(** * NodeBasedLibraryMS: the fine engine and the loan life cycle

    A shallow embedding of the backend's fine service (class [FineService]:
    [calculateFine], [generateFinesForOverdueBooks], [getStudentFines],
    [payFine], [waiveFine]), of the routes of [/api/issued-books] and of
    [/api/fines] with their middleware ([authenticateToken],
    [authorizeRoles]), and of the daily job of [CronService], over an
    explicit relational store.

    Conventions of the embedding:
    - an instant (a JS [Date]) is its [getTime()] value, milliseconds since
      the epoch, as [Z]; [new Date()] is the parameter [now] of the operation
      that calls it (one request is evaluated at one instant);
    - a [DATEONLY] column holds a day number (days since the epoch); reading
      it back with [new Date(col)] gives midnight UTC of that day, writing
      an instant keeps its UTC day, and a [where] that compares the column
      with an instant compares it with the day of that instant (the ORM
      sends the instant as ['YYYY-MM-DD']);
    - a [DECIMAL(10,2)] column is an amount in hundredths, so [5.00] is
      [500]; the MySQL driver hands such a column to JS as a string, so a
      non-null value is truthy whatever its amount;
    - a table is the list of its rows in insertion order, and a [findOne]
      without [order] returns the first row that matches;
    - a write of the ORM either succeeds or rejects; which writes reject is
      a parameter ([rejects]) of the operations, and a rejected write leaves
      the store as it was (no operation opens a transaction). *)

From Stdlib Require Import ZArith List String DecimalString Bool Lia.
From Stdlib Require Import Ascii Sorted Permutation.
Import ListNotations.
Open Scope Z_scope.

(** ** Rows *)

Inductive LoanStatus := issued | returned | overdue | lost.
Inductive FineStatus := pending | paid | waived.

Definition LoanStatus_eqb (a b : LoanStatus) : bool :=
  match a, b with
  | issued, issued | returned, returned | overdue, overdue | lost, lost => true
  | _, _ => false
  end.

Definition FineStatus_eqb (a b : FineStatus) : bool :=
  match a, b with
  | pending, pending | paid, paid | waived, waived => true
  | _, _ => false
  end.

(** models/IssuedBook.js *)
Record IssuedBook := mkIssuedBook {
  ib_id : Z;
  ib_student_id : Z;
  ib_book_id : Z;
  ib_librarian_id : Z;
  ib_issue_date : Z;            (* DATEONLY *)
  ib_due_date : Z;              (* DATEONLY *)
  ib_return_date : option Z;    (* DATEONLY, nullable *)
  ib_fine_amount : Z;           (* DECIMAL(10,2) *)
  ib_status : LoanStatus;
  ib_notes : option string
}.

(** models/Fine.js *)
Record Fine := mkFine {
  fine_id : Z;
  fine_issued_book_id : Z;
  fine_student_id : Z;
  fine_amount : Z;              (* DECIMAL(10,2) *)
  fine_days_overdue : Z;
  fine_rate_per_day : Z;        (* DECIMAL(10,2) *)
  fine_status : FineStatus;
  fine_paid_date : option Z;    (* DATEONLY, nullable *)
  fine_notes : option string;
  fine_created_at : Z
}.

(** models/FineConfig.js *)
Record FineConfig := mkFineConfig {
  cfg_id : Z;
  cfg_fine_rate_per_day : Z;        (* DECIMAL(10,2) *)
  cfg_grace_period_days : Z;
  cfg_max_fine_amount : option Z;   (* DECIMAL(10,2), nullable *)
  cfg_is_active : bool;
  cfg_created_at : Z
}.

(** models/Book.js and models/Student.js, the columns the routes read *)
Record Book := mkBook {
  book_id : Z;
  book_total_copies : Z;
  book_available_copies : Z;
  book_is_active : bool
}.

Record Student := mkStudent {
  stu_id : Z;
  stu_is_active : bool;
  stu_max_books_allowed : Z
}.

Record Store := mkStore {
  issued_books : list IssuedBook;
  fines : list Fine;
  fine_configs : list FineConfig;
  books : list Book;
  students : list Student
}.

Definition set_issued_books (l : list IssuedBook) (s : Store) : Store :=
  mkStore l (fines s) (fine_configs s) (books s) (students s).
Definition set_fines (l : list Fine) (s : Store) : Store :=
  mkStore (issued_books s) l (fine_configs s) (books s) (students s).
Definition set_books (l : list Book) (s : Store) : Store :=
  mkStore (issued_books s) (fines s) (fine_configs s) l (students s).

(** ** Time and arithmetic of the source *)

(** [1000 * 3600 * 24], the divisor of [calculateFine] *)
Definition MS_PER_DAY : Z := 1000 * 3600 * 24.

(** [new Date(row.due_date).getTime()] *)
Definition date_getTime (day : Z) : Z := day * MS_PER_DAY.

(** the day an instant is stored as in a [DATEONLY] column *)
Definition to_dateonly (t : Z) : Z := t / MS_PER_DAY.

(** [Math.ceil(a / b)] for [b > 0] *)
Definition ceil_div (a b : Z) : Z := - ((- a) / b).

(** the id an auto-increment key gives the next row *)
Definition next_id (ids : list Z) : Z := 1 + fold_right Z.max 0 ids.

(** ** Queries *)

Definition IssuedBook_findByPk (id : Z) (s : Store) : option IssuedBook :=
  find (fun b => ib_id b =? id) (issued_books s).

Definition Fine_findByPk (id : Z) (s : Store) : option Fine :=
  find (fun f => fine_id f =? id) (fines s).

(** the first row of [order: [['created_at', 'DESC']]] *)
Fixpoint latest_created (l : list FineConfig) : option FineConfig :=
  match l with
  | [] => None
  | c :: rest =>
      match latest_created rest with
      | None => Some c
      | Some d => if cfg_created_at d <=? cfg_created_at c then Some c else Some d
      end
  end.

(** [FineConfig.findOne({ where: { is_active: true },
                          order: [['created_at', 'DESC']] })] *)
Definition FineConfig_findCurrent (s : Store) : option FineConfig :=
  latest_created (filter cfg_is_active (fine_configs s)).

(** the object [calculateFine] returns *)
Record FineData := mkFineData {
  fd_issued_book_id : Z;
  fd_student_id : Z;
  fd_amount : Z;
  fd_days_overdue : Z;
  fd_fine_rate_per_day : Z
}.

(** ** Effects: a store that persists across a rejected write *)

Inductive Outcome (A : Type) : Type :=
| Ok (a : A)
| Threw (e : string).
Arguments Ok {A} a.
Arguments Threw {A} e.

(** an [async] function over the store: it resolves or rejects, and the
    writes done before a rejection stay done *)
Definition M (A : Type) : Type := Store -> Outcome A * Store.

Definition ret {A : Type} (a : A) : M A := fun s => (Ok a, s).

Definition throw {A : Type} (e : string) : M A := fun s => (Threw e, s).

Definition bind {A B : Type} (m : M A) (k : A -> M B) : M B :=
  fun s =>
    match m s with
    | (Ok a, s') => k a s'
    | (Threw e, s') => (Threw e, s')
    end.

Definition gets {A : Type} (q : Store -> A) : M A := fun s => (Ok (q s), s).

Notation "x <- m ;; k" := (bind m (fun x => k))
  (at level 61, m at next level, right associativity).

(** the writes the operations issue *)
Inductive DbWrite :=
| W_Fine_create (issued_book_id : Z)
| W_Fine_update (id : Z)
| W_IssuedBook_create (student_id book_id : Z)
| W_IssuedBook_update (id : Z)
| W_Book_update (id : Z)
| W_Book_increment (id : Z).

Definition db_error : string := "SequelizeDatabaseError".

(** column updates *)
Definition Fine_set_computed (d : FineData) (f : Fine) : Fine :=
  mkFine (fine_id f) (fd_issued_book_id d) (fd_student_id d) (fd_amount d)
         (fd_days_overdue d) (fd_fine_rate_per_day d) (fine_status f)
         (fine_paid_date f) (fine_notes f) (fine_created_at f).

Definition Fine_set_recomputed (amount days : Z) (f : Fine) : Fine :=
  mkFine (fine_id f) (fine_issued_book_id f) (fine_student_id f) amount days
         (fine_rate_per_day f) pending (fine_paid_date f) (fine_notes f)
         (fine_created_at f).

Definition Fine_set_paid (paid_date : Z) (f : Fine) : Fine :=
  mkFine (fine_id f) (fine_issued_book_id f) (fine_student_id f)
         (fine_amount f) (fine_days_overdue f) (fine_rate_per_day f) paid
         (Some paid_date) (fine_notes f) (fine_created_at f).

Definition Fine_set_waived (notes : string) (f : Fine) : Fine :=
  mkFine (fine_id f) (fine_issued_book_id f) (fine_student_id f)
         (fine_amount f) (fine_days_overdue f) (fine_rate_per_day f) waived
         (fine_paid_date f) (Some notes) (fine_created_at f).

Definition IssuedBook_set_status (st : LoanStatus) (b : IssuedBook)
  : IssuedBook :=
  mkIssuedBook (ib_id b) (ib_student_id b) (ib_book_id b) (ib_librarian_id b)
               (ib_issue_date b) (ib_due_date b) (ib_return_date b)
               (ib_fine_amount b) st (ib_notes b).

Definition IssuedBook_set_returned (return_date fine_amount : Z)
    (notes : option string) (b : IssuedBook) : IssuedBook :=
  mkIssuedBook (ib_id b) (ib_student_id b) (ib_book_id b) (ib_librarian_id b)
               (ib_issue_date b) (ib_due_date b) (Some return_date)
               fine_amount returned notes.

Definition Book_set_available_copies (n : Z) (b : Book) : Book :=
  mkBook (book_id b) (book_total_copies b) n (book_is_active b).

Section Orm.

(** the writes the persistence layer rejects *)
Variable rejects : DbWrite -> bool.

(** [Fine.create(fineData)]: [status], [paid_date] and [notes] take the
    model's defaults *)
Definition Fine_create (now : Z) (d : FineData) : M Fine :=
  fun s =>
    if rejects (W_Fine_create (fd_issued_book_id d)) then (Threw db_error, s)
    else
      let fine :=
        mkFine (next_id (map fine_id (fines s))) (fd_issued_book_id d)
               (fd_student_id d) (fd_amount d) (fd_days_overdue d)
               (fd_fine_rate_per_day d) pending None None now in
      (Ok fine, set_fines (fines s ++ [fine]) s).

(** [fine.update(values)]: the row of the instance's key gets the columns,
    and so does the instance *)
Definition Fine_update (fine : Fine) (values : Fine -> Fine) : M Fine :=
  fun s =>
    if rejects (W_Fine_update (fine_id fine)) then (Threw db_error, s)
    else
      (Ok (values fine),
       set_fines
         (map (fun f => if fine_id f =? fine_id fine then values f else f)
              (fines s)) s).

(** [IssuedBook.create({ student_id, book_id, librarian_id, due_date,
    notes })] *)
Definition IssuedBook_create (now : Z)
    (student_id book_id librarian_id due_date : Z) (notes : option string)
  : M IssuedBook :=
  fun s =>
    if rejects (W_IssuedBook_create student_id book_id)
    then (Threw db_error, s)
    else
      let issuedBook :=
        mkIssuedBook (next_id (map ib_id (issued_books s))) student_id
                     book_id librarian_id (to_dateonly now)
                     (to_dateonly due_date) None 0 issued notes in
      (Ok issuedBook, set_issued_books (issued_books s ++ [issuedBook]) s).

Definition IssuedBook_update (issuedBook : IssuedBook)
    (values : IssuedBook -> IssuedBook) : M IssuedBook :=
  fun s =>
    if rejects (W_IssuedBook_update (ib_id issuedBook))
    then (Threw db_error, s)
    else
      (Ok (values issuedBook),
       set_issued_books
         (map (fun b => if ib_id b =? ib_id issuedBook then values b else b)
              (issued_books s)) s).

Definition Book_update (book : Book) (values : Book -> Book) : M Book :=
  fun s =>
    if rejects (W_Book_update (book_id book)) then (Threw db_error, s)
    else
      (Ok (values book),
       set_books
         (map (fun b => if book_id b =? book_id book then values b else b)
              (books s)) s).

(** [Book.increment('available_copies', { where: { id } })] *)
Definition Book_increment_available_copies (id : Z) : M unit :=
  fun s =>
    if rejects (W_Book_increment id) then (Threw db_error, s)
    else
      (Ok tt,
       set_books
         (map (fun b =>
                 if book_id b =? id
                 then Book_set_available_copies (book_available_copies b + 1) b
                 else b)
              (books s)) s).

End Orm.

(** ** class FineService *)

Module FineService.

Definition calculateFine (now : Z) (issuedBookId : Z) (s : Store)
  : option FineData :=
  match IssuedBook_findByPk issuedBookId s with
  | None => None
  | Some issuedBook =>
      if LoanStatus_eqb (ib_status issuedBook) returned then None else
      let today := now in
      let dueDate := date_getTime (ib_due_date issuedBook) in
      if today <=? dueDate then None else
      let fineConfig := FineConfig_findCurrent s in
      let fineRate :=
        match fineConfig with
        | Some c => cfg_fine_rate_per_day c
        | None => 500
        end in
      let gracePeriod :=
        match fineConfig with
        | Some c => cfg_grace_period_days c
        | None => 0
        end in
      let timeDiff := today - dueDate in
      let daysOverdue := ceil_div timeDiff MS_PER_DAY - gracePeriod in
      let daysOverdue := Z.max 0 daysOverdue in
      if daysOverdue =? 0 then None else
      let fineAmount := daysOverdue * fineRate in
      let fineAmount :=
        match fineConfig with
        | Some c =>
            match cfg_max_fine_amount c with
            | Some cap => if fineAmount >? cap then cap else fineAmount
            | None => fineAmount
            end
        | None => fineAmount
        end in
      Some (mkFineData issuedBookId (ib_student_id issuedBook)
                       fineAmount daysOverdue fineRate)
  end.

(** the entries of the report of the sweep *)
Inductive Action := created | updated.

Record SweepResult := mkSweepResult {
  sr_issued_book_id : Z;
  sr_action : Action;
  sr_fine : Fine
}.

(** [Fine.findOne({ where: { issued_book_id, status: 'pending' } })] *)
Definition Fine_findOne_pending (issued_book_id : Z) (s : Store)
  : option Fine :=
  find (fun f => (fine_issued_book_id f =? issued_book_id)
                 && FineStatus_eqb (fine_status f) pending)
       (fines s).

(** [IssuedBook.findAll({ where: { status: 'issued',
                                   due_date: { [Op.lt]: new Date() } } })]:
    [due_date] is a [DATEONLY] column, so the condition is
    [due_date < 'YYYY-MM-DD'] with the day of [new Date()] *)
Definition IssuedBook_findAll_overdue (now : Z) (s : Store)
  : list IssuedBook :=
  filter (fun b => LoanStatus_eqb (ib_status b) issued
                   && (ib_due_date b <? to_dateonly now))
         (issued_books s).

(** [order: [['created_at', 'DESC']]] on fines *)
Fixpoint insert_created_desc (f : Fine) (l : list Fine) : list Fine :=
  match l with
  | [] => [f]
  | g :: rest =>
      if fine_created_at g <=? fine_created_at f then f :: l
      else g :: insert_created_desc f rest
  end.

Definition order_created_desc (l : list Fine) : list Fine :=
  fold_right insert_created_desc [] l.

(** [getStudentFines(studentId, status = 'pending')]; [None] is a call
    without the argument (or with [undefined]) *)
Definition getStudentFines (studentId : Z) (status : option FineStatus)
    (s : Store) : list Fine :=
  let status := match status with Some st => st | None => pending end in
  order_created_desc
    (filter (fun f => (fine_student_id f =? studentId)
                      && FineStatus_eqb (fine_status f) status)
            (fines s)).

Section Service.

Variable rejects : DbWrite -> bool.

(** the body of the [for (const book of overdueBooks)] loop of
    [generateFinesForOverdueBooks], for one [book] *)
Definition sweep_body (now : Z) (book : IssuedBook)
    (results : list SweepResult) : M (list SweepResult) :=
  fineData <- gets (calculateFine now (ib_id book)) ;;
  match fineData with
  | Some fd =>
      existingFine <- gets (Fine_findOne_pending (ib_id book)) ;;
      results' <-
        match existingFine with
        | Some existing =>
            fine <- Fine_update rejects existing (Fine_set_computed fd) ;;
            ret (results ++ [mkSweepResult (ib_id book) updated fine])
        | None =>
            fine <- Fine_create rejects now fd ;;
            ret (results ++ [mkSweepResult (ib_id book) created fine])
        end ;;
      _ <- IssuedBook_update rejects book (IssuedBook_set_status overdue) ;;
      ret results'
  | None => ret results
  end.

(** the loop: the books in order, the first rejection ends it *)
Fixpoint sweep_loop (now : Z) (overdueBooks : list IssuedBook)
    (results : list SweepResult) : M (list SweepResult) :=
  match overdueBooks with
  | [] => ret results
  | book :: rest =>
      results' <- sweep_body now book results ;;
      sweep_loop now rest results'
  end.

Definition generateFinesForOverdueBooks (now : Z) : M (list SweepResult) :=
  overdueBooks <- gets (IssuedBook_findAll_overdue now) ;;
  sweep_loop now overdueBooks [].

(** [payFine(fineId, paidDate = new Date())] *)
Definition payFine (now : Z) (fineId : Z) (paidDate : option Z) : M Fine :=
  let paidDate := match paidDate with Some d => d | None => now end in
  fine <- gets (Fine_findByPk fineId) ;;
  match fine with
  | None => throw "Fine not found"
  | Some fine =>
      if FineStatus_eqb (fine_status fine) paid
      then throw "Fine already paid"
      else Fine_update rejects fine (Fine_set_paid (to_dateonly paidDate))
  end.

(** [waiveFine(fineId, notes = '')] *)
Definition waiveFine (fineId : Z) (notes : option string) : M Fine :=
  let notes := match notes with Some n => n | None => EmptyString end in
  fine <- gets (Fine_findByPk fineId) ;;
  match fine with
  | None => throw "Fine not found"
  | Some fine =>
      if FineStatus_eqb (fine_status fine) paid
      then throw "Cannot waive paid fine"
      else Fine_update rejects fine (Fine_set_waived notes)
  end.

End Service.

End FineService.

(** ** The routes of /api/issued-books and /api/fines *)

Record HttpResponse := mkResponse {
  http_status : Z;
  http_message : string;
  http_fineAmount : option Z
}.

(** the [try { ... } catch (error) { res.status(500)... }] of a handler *)
Definition handler (body : M HttpResponse) (s : Store)
  : HttpResponse * Store :=
  match body s with
  | (Ok r, s') => (r, s')
  | (Threw _, s') => (mkResponse 500 "Server error" None, s')
  end.

Definition Student_findOne_active (id : Z) (s : Store) : option Student :=
  find (fun st => (stu_id st =? id) && stu_is_active st) (students s).

Definition Book_findOne_active (id : Z) (s : Store) : option Book :=
  find (fun b => (book_id b =? id) && book_is_active b) (books s).

(** [where: { student_id, book_id, status: 'issued' }] *)
Definition IssuedBook_findOne_issued (student_id book_id : Z) (s : Store)
  : option IssuedBook :=
  find (fun b => (ib_student_id b =? student_id) && (ib_book_id b =? book_id)
                 && LoanStatus_eqb (ib_status b) issued)
       (issued_books s).

(** [IssuedBook.count({ where: { student_id, status: 'issued' } })] *)
Definition IssuedBook_count_issued (student_id : Z) (s : Store) : Z :=
  Z.of_nat
    (List.length
       (filter (fun b => (ib_student_id b =? student_id)
                         && LoanStatus_eqb (ib_status b) issued)
               (issued_books s))).

(** [Fine.findOne({ where: { issued_book_id } })] of the return route *)
Definition Fine_findOne_of_loan (issued_book_id : Z) (s : Store)
  : option Fine :=
  find (fun f => fine_issued_book_id f =? issued_book_id) (fines s).

Definition limit_message (n : Z) : string :=
  "Student has reached maximum limit of "
  ++ NilZero.string_of_int (Z.to_int n) ++ " books".

(** [notes || issuedBook.notes] *)
Definition notes_or (notes old : option string) : option string :=
  match notes with
  | Some EmptyString | None => old
  | Some n => Some n
  end.

(** a field of [req.body] as the validation chain of its route sees it:
    absent, a value of the format the chain checks ([isInt], [isISO8601]),
    read as [a], or a value that is not of that format *)
Inductive Field (A : Type) : Type :=
| Absent
| Value (a : A)
| Malformed.
Arguments Absent {A}.
Arguments Value {A} a.
Arguments Malformed {A}.

Module IssuedBooksRoute.

Section Routes.

Variable rejects : DbWrite -> bool.

(** [POST /api/issued-books/issue], the handler from the destructuring of
    [req.body] on, past its [validationResult] branch ([issue_request]
    below has the branch); [librarian_id] is [req.user.id] *)
Definition issue_body (now : Z) (librarian_id : Z)
    (student_id book_id due_date : Z) (notes : option string)
  : M HttpResponse :=
  student <- gets (Student_findOne_active student_id) ;;
  match student with
  | None => ret (mkResponse 400 "Student not found or inactive" None)
  | Some student =>
  book <- gets (Book_findOne_active book_id) ;;
  match book with
  | None => ret (mkResponse 400 "Book not found or inactive" None)
  | Some book =>
  if book_available_copies book <=? 0
  then ret (mkResponse 400 "Book not available" None)
  else
  existingIssue <- gets (IssuedBook_findOne_issued student_id book_id) ;;
  match existingIssue with
  | Some _ => ret (mkResponse 400 "Student has already issued this book" None)
  | None =>
  currentIssued <- gets (IssuedBook_count_issued student_id) ;;
  if currentIssued >=? stu_max_books_allowed student
  then ret (mkResponse 400 (limit_message (stu_max_books_allowed student)) None)
  else
  issuedBook <- IssuedBook_create rejects now student_id book_id librarian_id
                                  due_date notes ;;
  _ <- Book_update rejects book
         (Book_set_available_copies (book_available_copies book - 1)) ;;
  ret (mkResponse 201 "Book issued successfully" None)
  end end end.

Definition issue (now : Z) (librarian_id : Z)
    (student_id book_id due_date : Z) (notes : option string) (s : Store)
  : HttpResponse * Store :=
  handler (issue_body now librarian_id student_id book_id due_date notes) s.

(** the handler of [POST /api/issued-books/issue] whole: the answer 400 of
    its [validationResult] branch unless [student_id] and [book_id] pass
    [isInt({ min: 1 })] and [due_date] passes [isISO8601()], and then the
    rest of the handler; [notes] is the field after [trim()] *)
Definition issue_request (now : Z) (librarian_id : Z)
    (student_id book_id due_date : Field Z) (notes : option string)
    (s : Store) : HttpResponse * Store :=
  match student_id, book_id, due_date with
  | Value sid, Value bid, Value due =>
      if (1 <=? sid) && (1 <=? bid)
      then issue now librarian_id sid bid due notes s
      else (mkResponse 400 "Validation failed" None, s)
  | _, _, _ => (mkResponse 400 "Validation failed" None, s)
  end.

(** [PUT /api/issued-books/:id/return], the handler from the destructuring
    of [req.body] on, past its [validationResult] branch ([return_request]
    below has the branch) *)
Definition return_body (now : Z) (id : Z) (return_date : option Z)
    (notes : option string) : M HttpResponse :=
  issuedBook <- gets (IssuedBook_findByPk id) ;;
  match issuedBook with
  | None => ret (mkResponse 404 "Issued book not found" None)
  | Some issuedBook =>
  if LoanStatus_eqb (ib_status issuedBook) returned
  then ret (mkResponse 400 "Book already returned" None)
  else
  let returnDate := match return_date with Some d => d | None => now end in
  let dueDate := date_getTime (ib_due_date issuedBook) in
  fineAmount <-
    (if returnDate >? dueDate then
       fineData <- gets (FineService.calculateFine now (ib_id issuedBook)) ;;
       match fineData with
       | Some fd =>
           existingFine <- gets (Fine_findOne_of_loan (ib_id issuedBook)) ;;
           match existingFine with
           | Some existing =>
               _ <- Fine_update rejects existing
                      (Fine_set_recomputed (fd_amount fd)
                                           (fd_days_overdue fd)) ;;
               ret (fd_amount fd)
           | None =>
               _ <- Fine_create rejects now fd ;;
               ret (fd_amount fd)
           end
       | None => ret 0
       end
     else ret 0) ;;
  _ <- IssuedBook_update rejects issuedBook
         (fun b => IssuedBook_set_returned (to_dateonly returnDate) fineAmount
                     (notes_or notes (ib_notes issuedBook)) b) ;;
  _ <- Book_increment_available_copies rejects (ib_book_id issuedBook) ;;
  ret (mkResponse 200 "Book returned successfully" (Some fineAmount))
  end.

Definition return_book (now : Z) (id : Z) (return_date : option Z)
    (notes : option string) (s : Store) : HttpResponse * Store :=
  handler (return_body now id return_date notes) s.

(** the handler of [PUT /api/issued-books/:id/return] whole: the answer 400
    of its [validationResult] branch when [return_date] is given and does
    not pass [isISO8601()] (the field is [optional()]), and then the rest of
    the handler; [notes] is the field after [trim()] *)
Definition return_request (now : Z) (id : Z) (return_date : Field Z)
    (notes : option string) (s : Store) : HttpResponse * Store :=
  match return_date with
  | Malformed => (mkResponse 400 "Validation failed" None, s)
  | Absent => return_book now id None notes s
  | Value d => return_book now id (Some d) notes s
  end.

End Routes.

End IssuedBooksRoute.

Module FinesRoute.

(** [GET /api/fines/student/:studentId]; [status] is [req.query.status] *)
Definition student_fines (studentId : Z) (status : option FineStatus)
    (s : Store) : list Fine :=
  FineService.getStudentFines studentId status s.

End FinesRoute.

(** ** middleware/auth.js *)

(** [req.user.id] and [req.userRole], as [authenticateToken] sets them *)
Record Requester := mkRequester {
  req_user_id : Z;
  req_userRole : string
}.

(** a JSON answer: a status with a body, or a status with a [message] *)
Inductive Answer (A : Type) : Type :=
| Json (status : Z) (body : A)
| JsonMessage (status : Z) (message : string).
Arguments Json {A} status body.
Arguments JsonMessage {A} status message.

Definition answer_status {A : Type} (a : Answer A) : Z :=
  match a with
  | Json status _ => status
  | JsonMessage status _ => status
  end.

(** [authorizeRoles(...roles)]: [Some] is the answer it sends, [None] is
    [next()] *)
Definition authorizeRoles (roles : list string) (req : Requester)
  : option (Z * string) :=
  if negb (existsb (String.eqb (req_userRole req)) roles)
  then Some (403, "Access denied. Insufficient permissions."%string)
  else None.

(** [str.split(' ')] *)
Fixpoint split_space (str : string) : list string :=
  match str with
  | EmptyString => [EmptyString]
  | String c rest =>
      if Ascii.eqb c " "%char
      then EmptyString :: split_space rest
      else match split_space rest with
           | word :: words => String c word :: words
           | [] => [String c EmptyString]
           end
  end.

(** what [jwt.verify] does with a token: the payload, or an error thrown
    with its [name] *)
Inductive JwtResult :=
| Decoded (id : Z) (role : string)
| JwtThrows (name : string).

(** models/Librarian.js, the columns the middleware reads *)
Record Librarian := mkLibrarian {
  lib_id : Z;
  lib_is_active : bool
}.

Inductive AuthResult :=
| Denied (status : Z) (message : string)
| Authenticated (req : Requester).

Section Auth.

(** [jwt.verify(token, process.env.JWT_SECRET)] *)
Variable jwt_verify : string -> JwtResult.

(** [authenticateToken]; [authorization] is [req.headers['authorization']] *)
Definition authenticateToken (librarians : list Librarian)
    (authorization : option string) (s : Store) : AuthResult :=
  let token :=
    match authorization with
    | None | Some EmptyString => None
    | Some authHeader => nth_error (split_space authHeader) 1
    end in
  match token with
  | None | Some EmptyString => Denied 401 "Access token required"
  | Some token =>
      match jwt_verify token with
      | Decoded id role =>
          let user :=
            if String.eqb role "student" then
              option_map (fun u => (stu_id u, stu_is_active u))
                         (find (fun u => stu_id u =? id) (students s))
            else if String.eqb role "librarian" then
              option_map (fun u => (lib_id u, lib_is_active u))
                         (find (fun u => lib_id u =? id) librarians)
            else None in
          match user with
          | Some (user_id, true) => Authenticated (mkRequester user_id role)
          | _ => Denied 401 "Invalid token or user not active"
          end
      | JwtThrows name =>
          if String.eqb name "JsonWebTokenError"
          then Denied 401 "Invalid token"
          else if String.eqb name "TokenExpiredError"
          then Denied 401 "Token expired"
          else Denied 500 "Server error during authentication"
      end
  end.

End Auth.

(** ** The other routes of /api/issued-books *)


Definition FineStatus_name (st : FineStatus) : string :=
  match st with
  | pending => "pending"
  | paid => "paid"
  | waived => "waived"
  end.

(** [order: [[column, 'DESC']]] and [order: [[column, 'ASC']]], rows of
    equal column in table order *)
Fixpoint insert_desc {A : Type} (column : A -> Z) (x : A) (l : list A)
  : list A :=
  match l with
  | [] => [x]
  | y :: rest =>
      if column y <=? column x then x :: l
      else y :: insert_desc column x rest
  end.

Definition order_desc {A : Type} (column : A -> Z) (l : list A) : list A :=
  fold_right (insert_desc column) [] l.

Fixpoint insert_asc {A : Type} (column : A -> Z) (x : A) (l : list A)
  : list A :=
  match l with
  | [] => [x]
  | y :: rest =>
      if column x <=? column y then x :: l
      else y :: insert_asc column x rest
  end.

Definition order_asc {A : Type} (column : A -> Z) (l : list A) : list A :=
  fold_right (insert_asc column) [] l.

(** a query parameter that is present and not the empty string *)
Definition truthy (v : option string) : option string :=
  match v with
  | Some EmptyString | None => None
  | Some str => Some str
  end.

(** [req.query] of [GET /api/issued-books] *)
Record IssuedQuery := mkIssuedQuery {
  iq_status : option string;
  iq_student_id : option Z;
  iq_overdue_only : option string
}.



(** Modelled from the spec: the association [fines] of a loan, whose
    declaration is not in the sources: the Fine rows that reference the
    loan by [issued_book_id]. *)
Definition IssuedBook_fines (b : IssuedBook) (s : Store) : list Fine :=
  filter (fun f => fine_issued_book_id f =? ib_id b) (fines s).

(** an entry of [GET /api/issued-books/overdue]: the loan, its pending
    fines, and [total_fine] *)
Record OverdueEntry := mkOverdueEntry {
  oe_loan : IssuedBook;
  oe_fines : list Fine;
  oe_total_fine : Z
}.

Module IssuedBooksApi.

(** the validators of [GET /api/issued-books] *)
Definition list_valid (q : IssuedQuery) : bool :=
  match iq_student_id q with
  | Some sid => 1 <=? sid
  | None => true
  end
  && match iq_overdue_only q with
     | Some v => existsb (String.eqb v) ["true"; "false"; "1"; "0"]%string
     | None => true
     end.


(** [GET /api/issued-books/overdue] *)
Definition get_overdue (now : Z) (req : Requester) (s : Store)
  : Answer (list OverdueEntry) :=
  match authorizeRoles ["librarian"%string] req with
  | Some (status, message) => JsonMessage status message
  | None =>
      let overdueBooks :=
        order_asc ib_due_date (FineService.IssuedBook_findAll_overdue now s) in
      Json 200
        (map (fun book =>
                let fines :=
                  filter (fun f => FineStatus_eqb (fine_status f) pending)
                         (IssuedBook_fines book s) in
                mkOverdueEntry book fines
                  (fold_left (fun sum fine => sum + fine_amount fine) fines 0))
             overdueBooks)
  end.



Section Guarded.

Variable rejects : DbWrite -> bool.

(** [POST /api/issued-books/issue] with its middleware *)
Definition post_issue (now : Z) (req : Requester)
    (student_id book_id due_date : Field Z) (notes : option string)
    (s : Store) : HttpResponse * Store :=
  match authorizeRoles ["librarian"%string] req with
  | Some (status, message) => (mkResponse status message None, s)
  | None =>
      IssuedBooksRoute.issue_request rejects now (req_user_id req) student_id
        book_id due_date notes s
  end.

(** [PUT /api/issued-books/:id/return] with its middleware *)
Definition put_return (now : Z) (req : Requester) (id : Z)
    (return_date : Field Z) (notes : option string) (s : Store)
  : HttpResponse * Store :=
  match authorizeRoles ["librarian"%string] req with
  | Some (status, message) => (mkResponse status message None, s)
  | None => IssuedBooksRoute.return_request rejects now id return_date notes s
  end.

End Guarded.

End IssuedBooksApi.

(** ** The other routes of /api/fines *)

(** [req.query] of [GET /api/fines] *)
Record FinesQuery := mkFinesQuery {
  fq_student_id : option Z;
  fq_status : option string;
  fq_page : option Z;
  fq_limit : option Z
}.

(** the [pagination] object of [GET /api/fines] *)
Record Pagination := mkPagination {
  pg_total : Z;
  pg_page : Z;
  pg_limit : Z;
  pg_totalPages : Z
}.

Module FinesApi.

(** the validators of [GET /api/fines] *)
Definition list_valid (q : FinesQuery) : bool :=
  match fq_page q with Some p => 1 <=? p | None => true end
  && match fq_limit q with
     | Some l => (1 <=? l) && (l <=? 100)
     | None => true
     end
  && match fq_student_id q with Some sid => 1 <=? sid | None => true end
  && match fq_status q with
     | Some st => existsb (String.eqb st) ["pending"; "paid"; "waived"]%string
     | None => true
     end.

(** the [where] of [GET /api/fines] *)
Definition list_matches (q : FinesQuery) (f : Fine) : bool :=
  match fq_student_id q with
  | Some sid => fine_student_id f =? sid
  | None => true
  end
  && match truthy (fq_status q) with
     | Some st => String.eqb (FineStatus_name (fine_status f)) st
     | None => true
     end.

(** [GET /api/fines]. [created_at] is the only key of [order], so the
    order of rows of equal [created_at] is the storage engine's, query by
    query: [scan] is the order in which the engine comes upon the matching
    rows in the query of this request, before it sorts them *)
Definition get_fines (scan : list Fine -> list Fine) (q : FinesQuery)
    (s : Store) : Answer (list Fine * Pagination) :=
  if negb (list_valid q) then JsonMessage 400 "Validation failed" else
  let page := match fq_page q with Some p => p | None => 1 end in
  let limit := match fq_limit q with Some l => l | None => 20 end in
  let offset := (page - 1) * limit in
  let matching := filter (list_matches q) (fines s) in
  let count := Z.of_nat (List.length matching) in
  let rows :=
    firstn (Z.to_nat limit)
      (skipn (Z.to_nat offset) (order_desc fine_created_at (scan matching))) in
  Json 200 (rows, mkPagination count page limit (ceil_div count limit)).

Section Guarded.

Variable rejects : DbWrite -> bool.

(** [POST /api/fines/generate] *)
Definition post_generate (now : Z) (req : Requester) (s : Store)
  : Answer (list FineService.SweepResult) * Store :=
  match authorizeRoles ["librarian"%string] req with
  | Some (status, message) => (JsonMessage status message, s)
  | None =>
      match FineService.generateFinesForOverdueBooks rejects now s with
      | (Ok results, s') => (Json 200 results, s')
      | (Threw _, s') => (JsonMessage 500 "Server error", s')
      end
  end.

(** [POST /api/fines/:id/pay] *)
Definition post_pay (now : Z) (req : Requester) (id : Z)
    (paid_date : option Z) (s : Store) : Answer Fine * Store :=
  match authorizeRoles ["librarian"%string] req with
  | Some (status, message) => (JsonMessage status message, s)
  | None =>
      match FineService.payFine rejects now id paid_date s with
      | (Ok fine, s') => (Json 200 fine, s')
      | (Threw message, s') => (JsonMessage 400 message, s')
      end
  end.

(** [POST /api/fines/:id/waive] *)
Definition post_waive (req : Requester) (id : Z) (notes : option string)
    (s : Store) : Answer Fine * Store :=
  match authorizeRoles ["librarian"%string] req with
  | Some (status, message) => (JsonMessage status message, s)
  | None =>
      match FineService.waiveFine rejects id notes s with
      | (Ok fine, s') => (Json 200 fine, s')
      | (Threw message, s') => (JsonMessage 400 message, s')
      end
  end.

End Guarded.

End FinesApi.

(** ** class CronService *)

Inductive LogLine :=
| console_log (text : string)
| console_error (text : string) (error : string).

Module CronService.

(** the callback [init] schedules for every midnight *)
Definition job (rejects : DbWrite -> bool) (now : Z) (s : Store)
  : list LogLine * Store :=
  match FineService.generateFinesForOverdueBooks rejects now s with
  | (Ok results, s') =>
      ([console_log "Running daily fine generation...";
        console_log ("Generated fines for "
                     ++ NilZero.string_of_int
                          (Z.to_int (Z.of_nat (List.length results)))
                     ++ " overdue books")],
       s')
  | (Threw error, s') =>
      ([console_log "Running daily fine generation...";
        console_error "Error in daily fine generation:" error],
       s')
  end.

End CronService.

(** * Specification vocabulary *)

(** ** The policy [calculateFine] evaluates with *)

(** [(rate, grace, cap)] is the current policy of the store: the columns of
    an active configuration that no active configuration is newer than, or
    the fallback [5.00] a day, no grace, no cap when no configuration is
    active. *)
Definition current_policy (s : Store) (rate grace : Z) (cap : option Z)
  : Prop :=
  ((forall c, In c (fine_configs s) -> cfg_is_active c = false)
   /\ rate = 500 /\ grace = 0 /\ cap = None)
  \/
  (exists c,
      In c (fine_configs s) /\ cfg_is_active c = true
      /\ (forall d, In d (fine_configs s) -> cfg_is_active d = true ->
                    cfg_created_at d <= cfg_created_at c)
      /\ rate = cfg_fine_rate_per_day c
      /\ grace = cfg_grace_period_days c
      /\ cap = cfg_max_fine_amount c).

(** [amount], cut to the cap when there is one and [amount] is above it *)
Definition capped (cap : option Z) (amount : Z) : Z :=
  match cap with
  | Some m => if amount >? m then m else amount
  | None => amount
  end.

(** [k] is the number of days, rounded up, from the due date to [now] *)
Definition raw_days (now due_date k : Z) : Prop :=
  (k - 1) * MS_PER_DAY < now - date_getTime due_date <= k * MS_PER_DAY.

(** ** The loans a sweep marks *)

(** [calculateFine] yields a fine for the loan *)
Definition has_fine (now : Z) (s : Store) (b : IssuedBook) : bool :=
  match FineService.calculateFine now (ib_id b) s with
  | Some _ => true
  | None => false
  end.

(** the loan is one of [l] (by key) that [calculateFine] yields a fine for *)
Definition fined_among (now : Z) (s : Store) (l : list IssuedBook)
    (b : IssuedBook) : bool :=
  existsb (fun h => (ib_id h =? ib_id b) && has_fine now s h) l.

(** the loans a sweep at [now] fines: those with status issued and a due
    date before the day of [now] that [calculateFine] yields a fine for *)
Definition loans_to_fine (now : Z) (s : Store) : list IssuedBook :=
  filter (fun b => LoanStatus_eqb (ib_status b) issued
                   && (ib_due_date b <? to_dateonly now)
                   && has_fine now s b)
         (issued_books s).

(** the writes one iteration of the sweep issues for a loan that
    [calculateFine] yields a fine for: the update of its pending fine, or
    the creation of a fine when it has none pending, then the update of the
    loan *)
Definition sweep_writes (s : Store) (b : IssuedBook) : list DbWrite :=
  [match FineService.Fine_findOne_pending (ib_id b) s with
   | Some existing => W_Fine_update (fine_id existing)
   | None => W_Fine_create (ib_id b)
   end;
   W_IssuedBook_update (ib_id b)].

(** the [status: 'overdue'] update of the sweep, on the row of key [id] *)
Definition mark_overdue (id : Z) (b : IssuedBook) : IssuedBook :=
  if ib_id b =? id then IssuedBook_set_status overdue b else b.

(** the fines of one loan *)
Definition fines_of_loan (id : Z) (s : Store) : list Fine :=
  filter (fun f => fine_issued_book_id f =? id) (fines s).

(** the pending fines of one loan *)
Definition pending_fines_of_loan (id : Z) (s : Store) : list Fine :=
  filter (fun f => FineStatus_eqb (fine_status f) pending) (fines_of_loan id s).

(** the total of the amounts of the fine ledger *)
Definition total_fine_amount (s : Store) : Z :=
  fold_right Z.add 0 (map fine_amount (fines s)).

(** from [t1] to [t2] no midnight (UTC) is met: they are the same instant,
    or [t2] is not before [t1] and both are after the midnight that starts
    a day and before the midnight that ends it *)
Definition no_midnight_between (t1 t2 : Z) : Prop :=
  t2 = t1
  \/ exists day,
       date_getTime day < t1 /\ t1 <= t2 /\ t2 < date_getTime (day + 1).

(** the active (not returned) loans of a student for a book *)
Definition active_loans (student_id book_id : Z) (s : Store)
  : list IssuedBook :=
  filter (fun b => (ib_student_id b =? student_id) && (ib_book_id b =? book_id)
                   && negb (LoanStatus_eqb (ib_status b) returned))
         (issued_books s).

(** the entries of a report whose fine the sweep created *)
Definition created_entries (report : list FineService.SweepResult)
  : list FineService.SweepResult :=
  filter (fun e => match FineService.sr_action e with
                   | FineService.created => true
                   | FineService.updated => false
                   end)
         report.

(** the keys of the fines of those entries *)
Definition created_fine_ids (report : list FineService.SweepResult)
  : list Z :=
  map (fun e => fine_id (FineService.sr_fine e)) (created_entries report).

(** the fine the return route computes: none unless the return date is
    after the due date, and then the one [calculateFine] yields now *)
Definition return_fine (now : Z) (return_date : option Z) (loan : IssuedBook)
    (s : Store) : option FineData :=
  if match return_date with Some d => d | None => now end
     >? date_getTime (ib_due_date loan)
  then FineService.calculateFine now (ib_id loan) s
  else None.

(** the loans of a book that are not returned *)
Definition outstanding_loans (book : Z) (s : Store) : list IssuedBook :=
  filter (fun b => (ib_book_id b =? book)
                   && negb (LoanStatus_eqb (ib_status b) returned))
         (issued_books s).

(** every book row accounts for its copies: those available and those out
    on a loan that is not returned add up to the total *)
Definition copies_accounted (s : Store) : Prop :=
  forall b, In b (books s) ->
    book_available_copies b
    + Z.of_nat (List.length (outstanding_loans (book_id b) s))
    = book_total_copies b.

(** the fines a query of [GET /api/fines] matches, newest first *)
Definition fines_matching (q : FinesQuery) (s : Store) : list Fine :=
  order_desc fine_created_at (filter (FinesApi.list_matches q) (fines s)).

(** the rows [GET /api/fines] answers for the query [q] at page [page],
    in a request whose query the engine scans as [scan] *)
Definition fines_page (scan : list Fine -> list Fine) (q : FinesQuery)
    (page : Z) (s : Store) : list Fine :=
  match FinesApi.get_fines scan
          (mkFinesQuery (fq_student_id q) (fq_status q) (Some page)
                        (fq_limit q)) s with
  | Json _ (rows, _) => rows
  | JsonMessage _ _ => []
  end.

(** ** Sample data: the scenario of the specification *)

(** 2024-01-10 and 2024-01-15 as day numbers *)
Definition day_2024_01_10 : Z := 19732.
Definition day_2024_01_15 : Z := 19737.

Definition no_rejects : DbWrite -> bool := fun _ => false.

(** the loan of [Issue(student=42, book=7, due=2024-01-10)] *)
Definition scenario_loan : IssuedBook :=
  mkIssuedBook 1 42 7 1 19702 day_2024_01_10 None 0 issued None.

(** a store with that loan alone and no fine configuration *)
Definition scenario_store : Store :=
  mkStore [scenario_loan] [] [] [mkBook 7 3 2 true] [mkStudent 42 true 3].

(** the scenario store under a policy of 5.00 a day with 3 days of grace *)
Definition grace_store : Store :=
  mkStore [scenario_loan] [] [mkFineConfig 1 500 3 None true 0]
          [mkBook 7 3 2 true] [mkStudent 42 true 3].

(** a second loan, of student 43 and book 8, due the same day *)
Definition second_loan : IssuedBook :=
  mkIssuedBook 2 43 8 1 19702 day_2024_01_10 None 0 issued None.

Definition two_loan_store : Store :=
  mkStore [scenario_loan; second_loan] [] []
          [mkBook 7 3 2 true; mkBook 8 2 1 true]
          [mkStudent 42 true 3; mkStudent 43 true 3].

(** the persistence layer rejects the creation of a fine for loan 1 *)
Definition rejects_fine_of_loan_1 (w : DbWrite) : bool :=
  match w with
  | W_Fine_create 1 => true
  | _ => false
  end.

(** the fine and the report of the sweep of 2024-01-11 on the scenario *)
Definition first_fine : Fine :=
  mkFine 1 1 42 500 1 500 pending None None
         (date_getTime (day_2024_01_10 + 1)).

Definition swept_report : list FineService.SweepResult :=
  [FineService.mkSweepResult 1 FineService.created first_fine].

(** the scenario store after the sweep of 2024-01-11 *)
Definition swept_store : Store :=
  snd (FineService.generateFinesForOverdueBooks no_rejects
         (date_getTime (day_2024_01_10 + 1)) scenario_store).

(** the fine of the sweep, waived, and the swept store holding it so *)
Definition waived_fine : Fine := Fine_set_waived "lost receipt" first_fine.

Definition waived_store : Store := set_fines [waived_fine] swept_store.

(** the fine of the sweep, paid on 2024-01-12, and the store holding it so *)
Definition paid_fine : Fine := Fine_set_paid (day_2024_01_10 + 2) first_fine.

Definition paid_store : Store := set_fines [paid_fine] swept_store.

(** 2024-01-11 at 00:00:00.005 and at 01:00:00.005 *)
Definition sweep_instant : Z := date_getTime (day_2024_01_10 + 1) + 5.
Definition an_hour_later : Z := sweep_instant + 3600000.

(** two fines created at the same instant, as one sweep creates them, and
    a store whose ledger they are *)
Definition tied_fine_1 : Fine :=
  mkFine 1 1 42 500 1 500 pending None None (date_getTime day_2024_01_15).
Definition tied_fine_2 : Fine :=
  mkFine 2 2 43 500 1 500 pending None None (date_getTime day_2024_01_15).
Definition tied_store : Store :=
  set_fines [tied_fine_1; tied_fine_2] swept_store.

(** the persistence layer rejects the creation of a fine for loan 2 *)
Definition rejects_fine_of_loan_2 (w : DbWrite) : bool :=
  match w with
  | W_Fine_create 2 => true
  | _ => false
  end.

(** under 3 days of grace, the scenario loan and a loan of student 43 and
    book 8 that was due 2024-01-05 *)
Definition early_loan : IssuedBook :=
  mkIssuedBook 2 43 8 1 19702 (day_2024_01_10 - 5) None 0 issued None.

Definition mixed_store : Store :=
  mkStore [scenario_loan; early_loan] [] [mkFineConfig 1 500 3 None true 0]
          [mkBook 7 3 2 true; mkBook 8 2 1 true]
          [mkStudent 42 true 3; mkStudent 43 true 3].

(** the persistence layer rejects every update of a book *)
Definition rejects_book_updates (w : DbWrite) : bool :=
  match w with
  | W_Book_update _ => true
  | _ => false
  end.

(** * Properties *)

(** ** Arithmetic and queries *)

Lemma MS_PER_DAY_pos : 0 < MS_PER_DAY.
Proof. reflexivity. Qed.

(** [ceil_div a b] is the least [k] with [a <= k * b]. *)
Lemma ceil_div_bounds (a b : Z) :
  0 < b -> (ceil_div a b - 1) * b < a <= ceil_div a b * b.
Proof.
  intros Hb. unfold ceil_div.
  pose proof (Z.div_mod (- a) b ltac:(lia)) as Hdm.
  pose proof (Z.mod_pos_bound (- a) b Hb) as Hm.
  nia.
Qed.

Lemma ceil_div_unique (a b k : Z) :
  0 < b -> (k - 1) * b < a <= k * b -> ceil_div a b = k.
Proof.
  intros Hb Hk. pose proof (ceil_div_bounds a b Hb) as Hc. nia.
Qed.

Lemma ceil_div_le_iff (a b k : Z) :
  0 < b -> (ceil_div a b <= k <-> a <= k * b).
Proof.
  intros Hb. pose proof (ceil_div_bounds a b Hb). split; intros; nia.
Qed.

Lemma ceil_div_mono (a a' b : Z) :
  0 < b -> a <= a' -> ceil_div a b <= ceil_div a' b.
Proof.
  intros Hb Ha. apply ceil_div_le_iff; [exact Hb|].
  pose proof (ceil_div_bounds a' b Hb). lia.
Qed.

Lemma ceil_div_shift (a k b : Z) :
  0 < b -> ceil_div (a - k * b) b = ceil_div a b - k.
Proof.
  intros Hb. apply ceil_div_unique; [exact Hb|].
  pose proof (ceil_div_bounds a b Hb). nia.
Qed.

Lemma LoanStatus_eqb_eq (a b : LoanStatus) :
  LoanStatus_eqb a b = true <-> a = b.
Proof. destruct a, b; simpl; split; congruence. Qed.

Lemma FineStatus_eqb_eq (a b : FineStatus) :
  FineStatus_eqb a b = true <-> a = b.
Proof. destruct a, b; simpl; split; congruence. Qed.

Lemma LoanStatus_eqb_neq (a b : LoanStatus) :
  LoanStatus_eqb a b = false <-> a <> b.
Proof. destruct a, b; simpl; split; congruence. Qed.

Lemma latest_created_nil (l : list FineConfig) :
  latest_created l = None <-> l = [].
Proof.
  destruct l as [|c rest]; simpl; [tauto|].
  split; [|discriminate].
  destruct (latest_created rest) as [d|]; [|discriminate].
  destruct (cfg_created_at d <=? cfg_created_at c); discriminate.
Qed.

Lemma latest_created_max (l : list FineConfig) (c : FineConfig) :
  latest_created l = Some c ->
  In c l /\ forall d, In d l -> cfg_created_at d <= cfg_created_at c.
Proof.
  revert c. induction l as [|x rest IH]; simpl; intros c H; [discriminate|].
  destruct (latest_created rest) as [d|] eqn:E.
  - destruct (IH d eq_refl) as [Hin Hmax].
    destruct (cfg_created_at d <=? cfg_created_at x) eqn:Hle;
      inversion H; subst; clear H.
    + apply Z.leb_le in Hle. split; [now left|].
      intros e [->|He]; [lia|]. specialize (Hmax e He). lia.
    + apply Z.leb_gt in Hle. split; [now right|].
      intros e [->|He]; [lia|]. now apply Hmax.
  - inversion H; subst; clear H. apply latest_created_nil in E. subst rest.
    split; [now left|]. intros e [->|[]]. lia.
Qed.

(** ** The policy [calculateFine] evaluates with *)

Lemma findCurrent_policy (s : Store) :
  current_policy s
    (match FineConfig_findCurrent s with
     | Some c => cfg_fine_rate_per_day c | None => 500 end)
    (match FineConfig_findCurrent s with
     | Some c => cfg_grace_period_days c | None => 0 end)
    (match FineConfig_findCurrent s with
     | Some c => cfg_max_fine_amount c | None => None end).
Proof.
  unfold current_policy, FineConfig_findCurrent.
  destruct (latest_created (filter cfg_is_active (fine_configs s)))
    as [c|] eqn:E.
  - right. exists c. apply latest_created_max in E. destruct E as [Hin Hmax].
    apply filter_In in Hin. destruct Hin as [Hin Hact].
    repeat split; auto.
    intros d Hd Hda. apply Hmax. apply filter_In. auto.
  - left. apply latest_created_nil in E. repeat split; auto.
    intros c Hc. destruct (cfg_is_active c) eqn:Ha; [|reflexivity].
    assert (In c (filter cfg_is_active (fine_configs s)))
      by (apply filter_In; auto).
    rewrite E in H. contradiction.
Qed.

(** [calculateFine] on a row, with the lookups done. *)
Lemma calculateFine_unfold (now id : Z) (s : Store) (loan : IssuedBook) :
  IssuedBook_findByPk id s = Some loan ->
  ib_status loan <> returned ->
  date_getTime (ib_due_date loan) < now ->
  let rate := match FineConfig_findCurrent s with
              | Some c => cfg_fine_rate_per_day c | None => 500 end in
  let grace := match FineConfig_findCurrent s with
               | Some c => cfg_grace_period_days c | None => 0 end in
  let cap := match FineConfig_findCurrent s with
             | Some c => cfg_max_fine_amount c | None => None end in
  let days :=
    Z.max 0 (ceil_div (now - date_getTime (ib_due_date loan)) MS_PER_DAY
             - grace) in
  FineService.calculateFine now id s =
  if days =? 0 then None
  else Some (mkFineData id (ib_student_id loan) (capped cap (days * rate))
                        days rate).
Proof.
  intros Hfind Hst Hdue. unfold FineService.calculateFine. rewrite Hfind.
  apply LoanStatus_eqb_neq in Hst. rewrite Hst.
  apply Z.leb_gt in Hdue. rewrite Hdue.
  destruct (FineConfig_findCurrent s) as [c|]; simpl; reflexivity.
Qed.

(** C1. For a loan that is not returned and an evaluation instant after its
    due date, [calculateFine] evaluates the current policy (the newest
    active configuration, or 5.00 a day, no grace, no cap when none is
    active): with [rawDays] the days from the due date rounded up and
    [daysOverdue = max 0 (rawDays - grace)], it returns nothing when
    [daysOverdue] is 0 and otherwise the loan's fine with [days_overdue =
    daysOverdue], [amount = daysOverdue * rate] cut to the cap when one is
    set and exceeded, and the rate. *)
Theorem calculateFine_overdue (now id : Z) (s : Store) (loan : IssuedBook) :
  IssuedBook_findByPk id s = Some loan ->
  ib_status loan <> returned ->
  date_getTime (ib_due_date loan) < now ->
  exists rate grace cap rawDays,
    current_policy s rate grace cap
    /\ raw_days now (ib_due_date loan) rawDays
    /\ (Z.max 0 (rawDays - grace) = 0 ->
        FineService.calculateFine now id s = None)
    /\ (Z.max 0 (rawDays - grace) <> 0 ->
        FineService.calculateFine now id s =
        Some (mkFineData id (ib_student_id loan)
                (capped cap (Z.max 0 (rawDays - grace) * rate))
                (Z.max 0 (rawDays - grace)) rate)).
Proof.
  intros Hfind Hst Hdue.
  pose proof (calculateFine_unfold now id s loan Hfind Hst Hdue) as Hcalc.
  cbv zeta in Hcalc.
  eexists _, _, _, (ceil_div (now - date_getTime (ib_due_date loan)) MS_PER_DAY).
  split; [apply findCurrent_policy|].
  split; [apply ceil_div_bounds, MS_PER_DAY_pos|].
  split; intros Hd; rewrite Hcalc.
  - rewrite Hd. reflexivity.
  - apply Z.eqb_neq in Hd. rewrite Hd. reflexivity.
Qed.

Lemma calculateFine_overdue_witness :
  exists rate grace cap rawDays,
    current_policy scenario_store rate grace cap
    /\ raw_days (date_getTime day_2024_01_15) day_2024_01_10 rawDays
    /\ (Z.max 0 (rawDays - grace) = 0 ->
        FineService.calculateFine (date_getTime day_2024_01_15) 1
          scenario_store = None)
    /\ (Z.max 0 (rawDays - grace) <> 0 ->
        FineService.calculateFine (date_getTime day_2024_01_15) 1
          scenario_store =
        Some (mkFineData 1 42
                (capped cap (Z.max 0 (rawDays - grace) * rate))
                (Z.max 0 (rawDays - grace)) rate)).
Proof.
  apply (calculateFine_overdue (date_getTime day_2024_01_15) 1 scenario_store
           scenario_loan).
  - reflexivity.
  - discriminate.
  - reflexivity.
Defined.

(** C9. With a grace period of 0 days, a loan evaluated exactly at its due
    date gets no fine, and a loan evaluated one day after its due date gets
    a fine of 1 day overdue (as does every instant of the day in between). *)
Theorem calculateFine_boundary (id : Z) (s : Store) (loan : IssuedBook) :
  IssuedBook_findByPk id s = Some loan ->
  ib_status loan <> returned ->
  (forall c, FineConfig_findCurrent s = Some c -> cfg_grace_period_days c = 0) ->
  FineService.calculateFine (date_getTime (ib_due_date loan)) id s = None
  /\ (exists fd,
        FineService.calculateFine (date_getTime (ib_due_date loan + 1)) id s
        = Some fd
        /\ fd_days_overdue fd = 1)
  /\ (forall now,
        date_getTime (ib_due_date loan) < now
                     <= date_getTime (ib_due_date loan + 1) ->
        exists fd,
          FineService.calculateFine now id s = Some fd
          /\ fd_days_overdue fd = 1).
Proof.
  intros Hfind Hst Hgrace.
  assert (Hnow : forall now,
             date_getTime (ib_due_date loan) < now
                          <= date_getTime (ib_due_date loan + 1) ->
             exists fd,
               FineService.calculateFine now id s = Some fd
               /\ fd_days_overdue fd = 1).
  { intros now [Hlo Hhi].
    rewrite (calculateFine_unfold now id s loan Hfind Hst Hlo). cbv zeta.
    assert (Hg : match FineConfig_findCurrent s with
                 | Some c => cfg_grace_period_days c | None => 0 end = 0).
    { destruct (FineConfig_findCurrent s) as [c|] eqn:E; auto. }
    rewrite Hg.
    rewrite (ceil_div_unique (now - date_getTime (ib_due_date loan))
               MS_PER_DAY 1 MS_PER_DAY_pos)
      by (unfold date_getTime in *; lia).
    simpl. eexists. split; reflexivity. }
  split; [|split; [|exact Hnow]].
  - unfold FineService.calculateFine. rewrite Hfind.
    apply LoanStatus_eqb_neq in Hst. rewrite Hst.
    rewrite Z.leb_refl. reflexivity.
  - apply Hnow. unfold date_getTime.
    pose proof MS_PER_DAY_pos. lia.
Qed.

Lemma calculateFine_boundary_witness :
  FineService.calculateFine (date_getTime day_2024_01_10) 1 scenario_store
  = None
  /\ (exists fd,
        FineService.calculateFine (date_getTime (day_2024_01_10 + 1)) 1
          scenario_store = Some fd
        /\ fd_days_overdue fd = 1)
  /\ (forall now,
        date_getTime day_2024_01_10 < now
                     <= date_getTime (day_2024_01_10 + 1) ->
        exists fd,
          FineService.calculateFine now 1 scenario_store = Some fd
          /\ fd_days_overdue fd = 1).
Proof.
  apply (calculateFine_boundary 1 scenario_store scenario_loan).
  - reflexivity.
  - discriminate.
  - intros c Hc. discriminate Hc.
Defined.

(** ** getStudentFines *)

Lemma insert_created_desc_In (f g : Fine) (l : list Fine) :
  In g (FineService.insert_created_desc f l) <-> g = f \/ In g l.
Proof.
  induction l as [|h rest IH]; simpl.
  - intuition congruence.
  - destruct (fine_created_at h <=? fine_created_at f); simpl.
    + intuition congruence.
    + rewrite IH. intuition congruence.
Qed.

Lemma order_created_desc_In (g : Fine) (l : list Fine) :
  In g (FineService.order_created_desc l) <-> In g l.
Proof.
  induction l as [|h rest IH]; simpl; [tauto|].
  rewrite insert_created_desc_In, IH. intuition congruence.
Qed.

(** C10. Without a status argument [getStudentFines] returns exactly the
    student's fines whose status is pending: it is the call with status
    pending, and so is the route [GET /api/fines/student/:studentId] without
    a status query, whose answer holds no paid and no waived fine. *)
Theorem getStudentFines_default_pending (studentId : Z) (s : Store) :
  FineService.getStudentFines studentId None s
  = FineService.getStudentFines studentId (Some pending) s
  /\ FinesRoute.student_fines studentId None s
     = FineService.getStudentFines studentId (Some pending) s
  /\ (forall f,
        In f (FinesRoute.student_fines studentId None s) <->
        In f (fines s) /\ fine_student_id f = studentId
        /\ fine_status f = pending)
  /\ (forall f,
        In f (FinesRoute.student_fines studentId None s) ->
        fine_status f <> paid /\ fine_status f <> waived).
Proof.
  assert (Hin : forall f,
             In f (FinesRoute.student_fines studentId None s) <->
             In f (fines s) /\ fine_student_id f = studentId
             /\ fine_status f = pending).
  { intros f. unfold FinesRoute.student_fines, FineService.getStudentFines.
    rewrite order_created_desc_In, filter_In, andb_true_iff, Z.eqb_eq,
      FineStatus_eqb_eq. tauto. }
  split; [reflexivity|]. split; [reflexivity|]. split; [exact Hin|].
  intros f Hf. apply Hin in Hf. destruct Hf as (_ & _ & Hp).
  rewrite Hp. split; discriminate.
Qed.

(** ** Tables keyed by an integer primary key *)

Section Table.

Context {A : Type} (key : A -> Z).

Lemma find_key_some (k : Z) (l : list A) (b : A) :
  find (fun x => key x =? k) l = Some b -> In b l /\ key b = k.
Proof.
  intros H. apply find_some in H. destruct H as [Hin Hk].
  apply Z.eqb_eq in Hk. auto.
Qed.

Lemma key_inj (l : list A) (x y : A) :
  NoDup (map key l) -> In x l -> In y l -> key x = key y -> x = y.
Proof.
  induction l as [|h rest IH]; simpl; intros Hnd Hx Hy Hk; [contradiction|].
  inversion Hnd as [|? ? Hnotin Hnd']; subst.
  destruct Hx as [->|Hx], Hy as [->|Hy]; auto.
  - exfalso. apply Hnotin. rewrite Hk. now apply in_map.
  - exfalso. apply Hnotin. rewrite <- Hk. now apply in_map.
Qed.

Lemma find_key_In (l : list A) (b : A) :
  NoDup (map key l) -> In b l -> find (fun x => key x =? key b) l = Some b.
Proof.
  intros Hnd Hin.
  destruct (find (fun x => key x =? key b) l) as [c|] eqn:E.
  - apply find_key_some in E. destruct E as [Hc Hk].
    f_equal. now apply (key_inj l).
  - exfalso. apply (find_none _ _ E) in Hin.
    rewrite Z.eqb_refl in Hin. discriminate.
Qed.

Lemma map_key_map (g : A -> A) (l : list A) :
  (forall x, key (g x) = key x) -> map key (map g l) = map key l.
Proof.
  intros Hg. rewrite map_map. apply map_ext. exact Hg.
Qed.

Lemma find_key_map (g : A -> A) (l : list A) (b : A) :
  (forall x, key (g x) = key x) ->
  NoDup (map key l) -> In b l ->
  find (fun x => key x =? key b) (map g l) = Some (g b).
Proof.
  intros Hg Hnd Hin.
  rewrite <- (Hg b). apply find_key_In.
  - now rewrite map_key_map.
  - now apply in_map.
Qed.

Lemma find_key_update_other (u : A -> A) (j k : Z) (l : list A) :
  (forall x, key (u x) = key x) -> k <> j ->
  find (fun x => key x =? k)
       (map (fun x => if key x =? j then u x else x) l)
  = find (fun x => key x =? k) l.
Proof.
  intros Hu Hne. induction l as [|h rest IH]; simpl; [reflexivity|].
  destruct (key h =? j) eqn:Ej.
  - apply Z.eqb_eq in Ej. rewrite Hu.
    assert ((key h =? k) = false) as -> by (apply Z.eqb_neq; lia).
    exact IH.
  - destruct (key h =? k); [reflexivity|exact IH].
Qed.

(** an update by key changes the one row of that key *)
Lemma update_key_other (u : A -> A) (l : list A) (b x : A) :
  NoDup (map key l) -> In b l -> In x l -> x <> b ->
  (if key x =? key b then u x else x) = x.
Proof.
  intros Hnd Hb Hx Hne.
  destruct (key x =? key b) eqn:E; [|reflexivity].
  apply Z.eqb_eq in E. exfalso. apply Hne. now apply (key_inj l).
Qed.

End Table.

Lemma find_update_found {A : Type} (key : A -> Z) (p : A -> bool)
    (u : A -> A) (l : list A) (e : A) :
  NoDup (map key l) -> find p l = Some e -> p (u e) = true ->
  find p (map (fun x => if key x =? key e then u x else x) l) = Some (u e).
Proof.
  intros Hnd Hfind Hp. induction l as [|h rest IH]; simpl in *;
    [discriminate|].
  inversion Hnd as [|? ? Hnotin Hnd']; subst.
  destruct (p h) eqn:Eh.
  - inversion Hfind; subst. rewrite Z.eqb_refl, Hp. reflexivity.
  - assert (He : In e rest) by (apply find_some in Hfind; tauto).
    assert (Hne : (key h =? key e) = false).
    { apply Z.eqb_neq. intros Hk. apply Hnotin. rewrite Hk.
      now apply in_map. }
    rewrite Hne, Eh. now apply IH.
Qed.

Lemma find_andb_filter {A : Type} (p q : A -> bool) (l : list A) :
  find (fun x => p x && q x) l = find q (filter p l).
Proof.
  induction l as [|h rest IH]; simpl; [reflexivity|].
  destruct (p h); simpl; [|exact IH].
  destruct (q h); [reflexivity|exact IH].
Qed.

Lemma filter_map_unchanged {A : Type} (p : A -> bool) (g : A -> A)
    (l : list A) :
  (forall x, In x l -> g x = x \/ (p x = false /\ p (g x) = false)) ->
  filter p (map g l) = filter p l.
Proof.
  induction l as [|h rest IH]; simpl; intros H; [reflexivity|].
  rewrite IH by (intros x Hx; apply H; now right).
  destruct (H h (or_introl eq_refl)) as [->|[-> ->]]; reflexivity.
Qed.

Lemma find_app_none {A : Type} (p : A -> bool) (l : list A) (x : A) :
  find p l = None -> find p (l ++ [x]) = if p x then Some x else None.
Proof.
  induction l as [|h rest IH]; simpl; [reflexivity|].
  destruct (p h); [discriminate|exact IH].
Qed.

Lemma find_key_map_gen {A : Type} (key : A -> Z) (g : A -> A) (k : Z)
    (l : list A) :
  (forall x, key (g x) = key x) ->
  find (fun x => key x =? k) (map g l)
  = option_map g (find (fun x => key x =? k) l).
Proof.
  intros Hg. induction l as [|h rest IH]; simpl; [reflexivity|].
  rewrite Hg. destruct (key h =? k); [reflexivity|exact IH].
Qed.

Lemma fold_max_ge (ids : list Z) (x : Z) :
  In x ids -> x <= fold_right Z.max 0 ids.
Proof.
  induction ids as [|h rest IH]; simpl; [contradiction|].
  intros [->|Hin]; [lia|]. specialize (IH Hin). lia.
Qed.

Lemma next_id_fresh (ids : list Z) : ~ In (next_id ids) ids.
Proof.
  intros Hin. apply fold_max_ge in Hin. unfold next_id in Hin. lia.
Qed.

Lemma NoDup_snoc (ids : list Z) (x : Z) :
  NoDup ids -> ~ In x ids -> NoDup (ids ++ [x]).
Proof.
  intros Hnd Hx. induction Hnd as [|h rest Hh Hnd IH]; simpl.
  - constructor; [tauto|constructor].
  - constructor.
    + rewrite in_app_iff. simpl. intros [H|[H|[]]]; [tauto|].
      apply Hx. now left.
    + apply IH. intros H. apply Hx. now right.
Qed.

(** ** One iteration of the sweep *)

Lemma calculateFine_ext (now id : Z) (s1 s2 : Store) :
  IssuedBook_findByPk id s1 = IssuedBook_findByPk id s2 ->
  fine_configs s1 = fine_configs s2 ->
  FineService.calculateFine now id s1 = FineService.calculateFine now id s2.
Proof.
  intros Hf Hc. unfold FineService.calculateFine, FineConfig_findCurrent.
  rewrite Hf, Hc. reflexivity.
Qed.

(** [calculateFine] reads the instant of its evaluation only through the
    number of days, rounded up, that it is after the epoch *)
Lemma calculateFine_same_ceil (now1 now2 id : Z) (s : Store) :
  ceil_div now1 MS_PER_DAY = ceil_div now2 MS_PER_DAY ->
  FineService.calculateFine now1 id s = FineService.calculateFine now2 id s.
Proof.
  intros H. unfold FineService.calculateFine.
  destruct (IssuedBook_findByPk id s) as [b|]; [|reflexivity].
  destruct (LoanStatus_eqb (ib_status b) returned); [reflexivity|].
  cbv zeta. unfold date_getTime.
  rewrite !ceil_div_shift by apply MS_PER_DAY_pos. rewrite H.
  assert (Hle : (now1 <=? ib_due_date b * MS_PER_DAY)
                = (now2 <=? ib_due_date b * MS_PER_DAY)).
  { pose proof (ceil_div_le_iff now1 MS_PER_DAY (ib_due_date b) MS_PER_DAY_pos).
    pose proof (ceil_div_le_iff now2 MS_PER_DAY (ib_due_date b) MS_PER_DAY_pos).
    destruct (now1 <=? ib_due_date b * MS_PER_DAY) eqn:E1;
      destruct (now2 <=? ib_due_date b * MS_PER_DAY) eqn:E2;
      try reflexivity;
      [apply Z.leb_le in E1; apply Z.leb_gt in E2
      |apply Z.leb_gt in E1; apply Z.leb_le in E2]; lia. }
  rewrite Hle. reflexivity.
Qed.

Lemma calculateFine_id (now id : Z) (s : Store) (fd : FineData) :
  FineService.calculateFine now id s = Some fd -> fd_issued_book_id fd = id.
Proof.
  unfold FineService.calculateFine.
  destruct (IssuedBook_findByPk id s) as [b|]; [|discriminate].
  destruct (LoanStatus_eqb (ib_status b) returned); [discriminate|].
  destruct (now <=? date_getTime (ib_due_date b)); [discriminate|].
  cbv zeta.
  match goal with |- (if ?c then _ else _) = _ -> _ => destruct c end;
    [discriminate|].
  intros H. inversion H. reflexivity.
Qed.

Ltac run_body :=
  unfold FineService.sweep_body, bind, gets, ret, throw,
    Fine_update, Fine_create, IssuedBook_update in *.

Section Sweep.

Variable rejects : DbWrite -> bool.
Variable now : Z.

Lemma sweep_body_None (book : IssuedBook) (r : list FineService.SweepResult)
    (s : Store) :
  FineService.calculateFine now (ib_id book) s = None ->
  FineService.sweep_body rejects now book r s = (Ok r, s).
Proof. intros H. run_body. rewrite H. reflexivity. Qed.

(** what one iteration does to the loans and to the report *)
Lemma sweep_body_loans (book : IssuedBook) (r : list FineService.SweepResult)
    (s : Store) (out : Outcome (list FineService.SweepResult)) (s' : Store) :
  FineService.sweep_body rejects now book r s = (out, s') ->
  fine_configs s' = fine_configs s
  /\ books s' = books s
  /\ students s' = students s
  /\ match out with
     | Ok r' =>
         if has_fine now s book
         then issued_books s' = map (mark_overdue (ib_id book)) (issued_books s)
              /\ exists act fine,
                   r' = r ++ [FineService.mkSweepResult (ib_id book) act fine]
         else s' = s /\ r' = r
     | Threw e =>
         has_fine now s book = true
         /\ issued_books s' = issued_books s /\ e = db_error
     end.
Proof.
  unfold has_fine. run_body.
  destruct (FineService.calculateFine now (ib_id book) s) as [fd|].
  - destruct (FineService.Fine_findOne_pending (ib_id book) s) as [ex|].
    + destruct (rejects (W_Fine_update (fine_id ex)));
        [intros H; inversion H; subst; repeat split; auto|].
      destruct (rejects (W_IssuedBook_update (ib_id book))); simpl;
        intros H; inversion H; subst; simpl; repeat split; eauto.
    + destruct (rejects (W_Fine_create (fd_issued_book_id fd)));
        [intros H; inversion H; subst; repeat split; auto|].
      destruct (rejects (W_IssuedBook_update (ib_id book))); simpl;
        intros H; inversion H; subst; simpl; repeat split; eauto.
  - intros H; inversion H; subst. repeat split; auto.
Qed.

Lemma Fine_findOne_pending_of_loan (id : Z) (s : Store) :
  FineService.Fine_findOne_pending id s
  = find (fun f => FineStatus_eqb (fine_status f) pending)
         (fines_of_loan id s).
Proof. apply find_andb_filter. Qed.

(** what one iteration does to the fines: keys stay unique, a fine that is
    not pending stays as it is, and so do the fines of the other loans *)
Lemma sweep_body_fines (book : IssuedBook) (r : list FineService.SweepResult)
    (s : Store) (out : Outcome (list FineService.SweepResult)) (s' : Store) :
  NoDup (map fine_id (fines s)) ->
  FineService.sweep_body rejects now book r s = (out, s') ->
  NoDup (map fine_id (fines s'))
  /\ (forall f, In f (fines s) -> fine_status f <> pending -> In f (fines s'))
  /\ (forall k, k <> ib_id book -> fines_of_loan k s' = fines_of_loan k s).
Proof.
  intros Hnd. run_body.
  destruct (FineService.calculateFine now (ib_id book) s) as [fd|] eqn:Ecalc;
    [|intros H; inversion H; subst; auto].
  apply calculateFine_id in Ecalc.
  assert (Hupd : forall ex,
             FineService.Fine_findOne_pending (ib_id book) s = Some ex ->
             let fs := map (fun f => if fine_id f =? fine_id ex
                                     then Fine_set_computed fd f else f)
                           (fines s) in
             NoDup (map fine_id fs)
             /\ (forall f, In f (fines s) -> fine_status f <> pending ->
                           In f fs)
             /\ (forall k, k <> ib_id book ->
                   filter (fun f => fine_issued_book_id f =? k) fs
                   = fines_of_loan k s)).
  { intros ex Hex fs. apply find_some in Hex. destruct Hex as [Hin Hp].
    apply andb_true_iff in Hp. destruct Hp as [Hloan Hst].
    apply Z.eqb_eq in Hloan. apply FineStatus_eqb_eq in Hst.
    split; [|split].
    - unfold fs. rewrite map_key_map; [exact Hnd|].
      intros x. destruct (fine_id x =? fine_id ex); reflexivity.
    - intros f Hf Hnp. unfold fs. apply in_map_iff. exists f.
      split; [|exact Hf].
      apply (update_key_other fine_id _ (fines s) ex f Hnd Hin Hf).
      congruence.
    - intros k Hk. unfold fs, fines_of_loan.
      apply filter_map_unchanged. intros x Hx.
      destruct (fine_id x =? fine_id ex) eqn:E; [right|now left].
      apply Z.eqb_eq in E.
      assert (x = ex) by (now apply (key_inj fine_id (fines s))). subst x.
      simpl. split; apply Z.eqb_neq; congruence. }
  assert (Hnew : forall fine,
             fine_id fine = next_id (map fine_id (fines s)) ->
             fine_issued_book_id fine = ib_id book ->
             let fs := fines s ++ [fine] in
             NoDup (map fine_id fs)
             /\ (forall f, In f (fines s) -> fine_status f <> pending ->
                           In f fs)
             /\ (forall k, k <> ib_id book ->
                   filter (fun f => fine_issued_book_id f =? k) fs
                   = fines_of_loan k s)).
  { intros fine Hid Hloan fs. unfold fs. split; [|split].
    - rewrite map_app. simpl. apply NoDup_snoc; [exact Hnd|].
      rewrite Hid. apply next_id_fresh.
    - intros f Hf _. apply in_or_app. now left.
    - intros k Hk. rewrite filter_app. simpl.
      assert ((fine_issued_book_id fine =? k) = false) as ->
          by (apply Z.eqb_neq; congruence).
      apply app_nil_r. }
  destruct (FineService.Fine_findOne_pending (ib_id book) s) as [ex|] eqn:Eex.
  - specialize (Hupd ex eq_refl). cbv zeta in Hupd.
    destruct (rejects (W_Fine_update (fine_id ex)));
      [intros H; inversion H; subst; auto|].
    destruct (rejects (W_IssuedBook_update (ib_id book)));
      intros H; inversion H; subst; exact Hupd.
  - match goal with
    | |- context [Ok ?f] =>
        match type of f with Fine => specialize (Hnew f eq_refl Ecalc) end
    end.
    cbv zeta in Hnew.
    destruct (rejects (W_Fine_create (fd_issued_book_id fd)));
      [intros H; inversion H; subst; auto|].
    destruct (rejects (W_IssuedBook_update (ib_id book)));
      intros H; inversion H; subst; exact Hnew.
Qed.

Lemma mark_overdue_id (id : Z) (b : IssuedBook) :
  ib_id (mark_overdue id b) = ib_id b.
Proof. unfold mark_overdue. destruct (ib_id b =? id); reflexivity. Qed.

(** the upsert of one iteration: the loan's pending fine holds the values
    just computed *)
Lemma sweep_body_upsert (book : IssuedBook) (r r' : list FineService.SweepResult)
    (s s' : Store) (fd : FineData) :
  NoDup (map fine_id (fines s)) ->
  FineService.sweep_body rejects now book r s = (Ok r', s') ->
  FineService.calculateFine now (ib_id book) s = Some fd ->
  exists f,
    FineService.Fine_findOne_pending (ib_id book) s' = Some f
    /\ fine_amount f = fd_amount fd
    /\ fine_days_overdue f = fd_days_overdue fd
    /\ fine_rate_per_day f = fd_fine_rate_per_day fd.
Proof.
  intros Hnd Hrun Hcalc. pose proof (calculateFine_id _ _ _ _ Hcalc) as Hid.
  revert Hrun. run_body. rewrite Hcalc.
  destruct (FineService.Fine_findOne_pending (ib_id book) s) as [ex|] eqn:Eex.
  - destruct (rejects (W_Fine_update (fine_id ex))); [discriminate|].
    destruct (rejects (W_IssuedBook_update (ib_id book))); [discriminate|].
    intros H; inversion H; subst; clear H.
    exists (Fine_set_computed fd ex). split; [|auto].
    unfold FineService.Fine_findOne_pending in *. simpl.
    apply (find_update_found fine_id); auto.
    simpl. apply find_some in Eex. destruct Eex as [_ Hp].
    apply andb_true_iff in Hp. destruct Hp as [_ Hp].
    rewrite Hid, Z.eqb_refl, Hp. reflexivity.
  - destruct (rejects (W_Fine_create (fd_issued_book_id fd))); [discriminate|].
    destruct (rejects (W_IssuedBook_update (ib_id book))); [discriminate|].
    intros H; inversion H; subst; clear H.
    eexists. split.
    + unfold FineService.Fine_findOne_pending in *. simpl.
      rewrite (find_app_none _ _ _ Eex). simpl.
      rewrite Hid, Z.eqb_refl. reflexivity.
    + simpl. auto.
Qed.

(** moving a loan that [calculateFine] yields a fine for to overdue changes
    no answer of [calculateFine] *)
Lemma calculateFine_mark (s s' : Store) (k : Z) :
  issued_books s' = map (mark_overdue k) (issued_books s) ->
  fine_configs s' = fine_configs s ->
  FineService.calculateFine now k s <> None ->
  forall id,
    FineService.calculateFine now id s' = FineService.calculateFine now id s.
Proof.
  intros Hrows Hc Hfine id. destruct (Z.eq_dec id k) as [->|Hne].
  - unfold FineService.calculateFine, FineConfig_findCurrent in *.
    unfold IssuedBook_findByPk in *. rewrite Hrows, Hc.
    rewrite (find_key_map_gen ib_id) by apply mark_overdue_id.
    destruct (find (fun b => ib_id b =? k) (issued_books s)) as [b|] eqn:Eb;
      simpl; [|reflexivity].
    apply find_key_some in Eb. destruct Eb as [_ Hb].
    unfold mark_overdue. rewrite Hb, Z.eqb_refl.
    destruct (LoanStatus_eqb (ib_status b) returned); [contradiction|].
    reflexivity.
  - apply calculateFine_ext; [|exact Hc].
    unfold IssuedBook_findByPk. rewrite Hrows. unfold mark_overdue.
    apply (find_key_update_other ib_id); auto.
Qed.

(** an iteration changes no answer of [calculateFine] *)
Lemma sweep_body_calculateFine (book : IssuedBook)
    (r : list FineService.SweepResult) (s : Store)
    (out : Outcome (list FineService.SweepResult)) (s' : Store) :
  FineService.sweep_body rejects now book r s = (out, s') ->
  forall id,
    FineService.calculateFine now id s' = FineService.calculateFine now id s.
Proof.
  intros Hrun id.
  destruct (sweep_body_loans _ _ _ _ _ Hrun) as (Hc & _ & _ & Hout).
  destruct out as [r'|e].
  - destruct (has_fine now s book) eqn:Hf.
    + destruct Hout as [Hrows _].
      apply (calculateFine_mark s s' (ib_id book)); auto.
      unfold has_fine in Hf.
      destruct (FineService.calculateFine now (ib_id book) s); congruence.
    + destruct Hout as [-> _]. reflexivity.
  - destruct Hout as (_ & Hrows & _).
    apply calculateFine_ext; [|exact Hc].
    unfold IssuedBook_findByPk. now rewrite Hrows.
Qed.

(** ** The loop of the sweep *)

Lemma sweep_loop_cons (h : IssuedBook) (rest : list IssuedBook)
    (r : list FineService.SweepResult) (s : Store) :
  FineService.sweep_loop rejects now (h :: rest) r s
  = match FineService.sweep_body rejects now h r s with
    | (Ok r1, s1) => FineService.sweep_loop rejects now rest r1 s1
    | (Threw e, s1) => (Threw e, s1)
    end.
Proof. reflexivity. Qed.

Lemma sweep_loop_noop (l : list IssuedBook) (r : list FineService.SweepResult)
    (s : Store) :
  (forall b, In b l -> FineService.calculateFine now (ib_id b) s = None) ->
  FineService.sweep_loop rejects now l r s = (Ok r, s).
Proof.
  induction l as [|h rest IH]; intros Hnone; [reflexivity|].
  rewrite sweep_loop_cons, sweep_body_None by (apply Hnone; now left).
  apply IH. intros b Hb. apply Hnone. now right.
Qed.

(** the loop changes no answer of [calculateFine] and only touches loans
    and fines *)
Lemma sweep_loop_frame (l : list IssuedBook) :
  forall r s out s',
    FineService.sweep_loop rejects now l r s = (out, s') ->
    (forall id, FineService.calculateFine now id s'
                = FineService.calculateFine now id s)
    /\ fine_configs s' = fine_configs s
    /\ books s' = books s
    /\ students s' = students s.
Proof.
  induction l as [|h rest IH]; intros r s out s' Hrun.
  - inversion Hrun; subst. auto.
  - rewrite sweep_loop_cons in Hrun.
    destruct (FineService.sweep_body rejects now h r s) as [o1 s1] eqn:Eb.
    pose proof (sweep_body_calculateFine _ _ _ _ _ Eb) as Hcalc.
    destruct (sweep_body_loans _ _ _ _ _ Eb) as (Hc & Hbk & Hst & _).
    destruct o1 as [r1|e].
    + destruct (IH _ _ _ _ Hrun) as (Hcalc' & Hc' & Hbk' & Hst').
      split; [intros id; rewrite Hcalc'; apply Hcalc|].
      repeat split; congruence.
    + inversion Hrun; subst. auto.
Qed.

Lemma fined_among_ext (s1 s2 : Store) (l : list IssuedBook) (b : IssuedBook) :
  (forall id, FineService.calculateFine now id s1
              = FineService.calculateFine now id s2) ->
  fined_among now s1 l b = fined_among now s2 l b.
Proof.
  intros H. unfold fined_among, has_fine.
  induction l as [|h rest IH]; simpl; [reflexivity|].
  rewrite IH, H. reflexivity.
Qed.

(** a sweep that completes moves to overdue exactly the loans of the list
    that [calculateFine] yields a fine for, and reports them in order *)
Lemma sweep_loop_rows (l : list IssuedBook) :
  forall r s r' s',
    FineService.sweep_loop rejects now l r s = (Ok r', s') ->
    issued_books s'
    = map (fun b => if fined_among now s l b
                    then IssuedBook_set_status overdue b else b)
          (issued_books s)
    /\ map FineService.sr_issued_book_id r'
       = map FineService.sr_issued_book_id r
         ++ map ib_id (filter (has_fine now s) l).
Proof.
  induction l as [|h rest IH]; intros r s r' s' Hrun.
  - inversion Hrun; subst. simpl. rewrite app_nil_r. split; [|reflexivity].
    symmetry. apply map_id.
  - rewrite sweep_loop_cons in Hrun.
    destruct (FineService.sweep_body rejects now h r s) as [o1 s1] eqn:Eb.
    pose proof (sweep_body_calculateFine _ _ _ _ _ Eb) as Hcalc.
    destruct (sweep_body_loans _ _ _ _ _ Eb) as (_ & _ & _ & Hout).
    destruct o1 as [r1|e]; [|discriminate].
    destruct (IH _ _ _ _ Hrun) as [Hrows Hrep].
    assert (Hfilter : filter (has_fine now s1) rest
                      = filter (has_fine now s) rest).
    { apply filter_ext. intros b. unfold has_fine. now rewrite Hcalc. }
    rewrite Hfilter in Hrep. simpl.
    destruct (has_fine now s h) eqn:Hf.
    + destruct Hout as [Hrows1 (act & fine & ->)].
      split.
      * rewrite Hrows, Hrows1, map_map. apply map_ext. intros b.
        rewrite (fined_among_ext s1 s) by exact Hcalc.
        unfold fined_among, mark_overdue. simpl.
        rewrite andb_true_r, (Z.eqb_sym (ib_id h) (ib_id b)).
        destruct (ib_id b =? ib_id h) eqn:E; simpl.
        -- destruct (existsb _ rest); reflexivity.
        -- reflexivity.
      * rewrite Hrep, map_app, <- app_assoc. reflexivity.
    + destruct Hout as [-> ->]. split.
      * rewrite Hrows. apply map_ext. intros b.
        unfold fined_among. simpl. rewrite andb_false_r. reflexivity.
      * exact Hrep.
Qed.

(** the loop on the fines: keys stay unique, a fine that is not pending
    stays as it is, and so do the fines of a loan that no iteration yields
    a fine for *)
Lemma sweep_loop_fines (l : list IssuedBook) :
  forall r s out s',
    NoDup (map fine_id (fines s)) ->
    FineService.sweep_loop rejects now l r s = (out, s') ->
    NoDup (map fine_id (fines s'))
    /\ (forall f, In f (fines s) -> fine_status f <> pending ->
                  In f (fines s'))
    /\ (forall k,
          (forall h, In h l -> ib_id h = k -> has_fine now s h = false) ->
          fines_of_loan k s' = fines_of_loan k s).
Proof.
  induction l as [|h rest IH]; intros r s out s' Hnd Hrun.
  - inversion Hrun; subst. auto.
  - rewrite sweep_loop_cons in Hrun.
    destruct (FineService.sweep_body rejects now h r s) as [o1 s1] eqn:Eb.
    destruct (sweep_body_fines _ _ _ _ _ Hnd Eb) as (Hnd1 & Hterm1 & Hoth1).
    pose proof (sweep_body_calculateFine _ _ _ _ _ Eb) as Hcalc.
    assert (Hhead : forall k,
               (forall h0, In h0 (h :: rest) -> ib_id h0 = k ->
                           has_fine now s h0 = false) ->
               fines_of_loan k s1 = fines_of_loan k s).
    { intros k Hk. destruct (Z.eq_dec (ib_id h) k) as [E|E].
      - specialize (Hk h (or_introl eq_refl) E). unfold has_fine in Hk.
        destruct (FineService.calculateFine now (ib_id h) s) eqn:Ec;
          [discriminate|].
        rewrite (sweep_body_None _ _ _ Ec) in Eb. inversion Eb; subst.
        reflexivity.
      - apply Hoth1. congruence. }
    destruct o1 as [r1|e].
    + destruct (IH _ _ _ _ Hnd1 Hrun) as (Hnd' & Hterm' & Hoth').
      split; [exact Hnd'|]. split.
      * intros f Hf Hp. apply Hterm'; auto.
      * intros k Hk. rewrite Hoth'; [now apply Hhead|].
        intros h0 Hh0 E. unfold has_fine. rewrite Hcalc.
        apply (Hk h0); [now right|exact E].
    + inversion Hrun; subst. split; [exact Hnd1|]. split; [exact Hterm1|].
      exact Hhead.
Qed.

(** after a sweep that completes, each loan of the list that
    [calculateFine] yields a fine for has a pending fine with the values
    computed *)
Lemma sweep_loop_upsert (l : list IssuedBook) :
  forall r s r' s',
    NoDup (map fine_id (fines s)) ->
    NoDup (map ib_id l) ->
    FineService.sweep_loop rejects now l r s = (Ok r', s') ->
    forall b fd,
      In b l ->
      FineService.calculateFine now (ib_id b) s = Some fd ->
      exists f,
        FineService.Fine_findOne_pending (ib_id b) s' = Some f
        /\ fine_amount f = fd_amount fd
        /\ fine_days_overdue f = fd_days_overdue fd
        /\ fine_rate_per_day f = fd_fine_rate_per_day fd.
Proof.
  induction l as [|h rest IH]; intros r s r' s' Hnd Hl Hrun b fd Hb Hcalc;
    [contradiction|].
  rewrite sweep_loop_cons in Hrun.
  destruct (FineService.sweep_body rejects now h r s) as [o1 s1] eqn:Eb.
  destruct o1 as [r1|e]; [|discriminate].
  destruct (sweep_body_fines _ _ _ _ _ Hnd Eb) as (Hnd1 & _ & _).
  inversion Hl as [|? ? Hnotin Hrest]; subst.
  destruct Hb as [->|Hb].
  - destruct (sweep_body_upsert _ _ _ _ _ _ Hnd Eb Hcalc) as (f & Hf & Hval).
    exists f. split; [|exact Hval].
    destruct (sweep_loop_fines _ _ _ _ _ Hnd1 Hrun) as (_ & _ & Hoth).
    rewrite Fine_findOne_pending_of_loan in *.
    rewrite Hoth; [exact Hf|].
    intros h0 Hh0 E. exfalso. apply Hnotin. rewrite <- E. now apply in_map.
  - apply (IH _ _ _ _ Hnd1 Hrest Hrun b fd Hb).
    rewrite (sweep_body_calculateFine _ _ _ _ _ Eb). exact Hcalc.
Qed.

(** a sweep that rejects has completed the loans before one loan, and
    stopped in the iteration of that loan *)
Lemma sweep_loop_threw (l : list IssuedBook) :
  forall r s e s',
    FineService.sweep_loop rejects now l r s = (Threw e, s') ->
    exists pre b post r1 s1,
      l = pre ++ b :: post
      /\ FineService.sweep_loop rejects now pre r s = (Ok r1, s1)
      /\ FineService.sweep_body rejects now b r1 s1 = (Threw e, s').
Proof.
  induction l as [|h rest IH]; intros r s e s' Hrun; [discriminate|].
  rewrite sweep_loop_cons in Hrun.
  destruct (FineService.sweep_body rejects now h r s) as [o1 s1] eqn:Eb.
  destruct o1 as [r1|e1].
  - destruct (IH _ _ _ _ Hrun) as (pre & b & post & r2 & s2 & -> & Hpre & Hb).
    exists (h :: pre), b, post, r2, s2. split; [reflexivity|].
    split; [|exact Hb]. rewrite sweep_loop_cons, Eb. exact Hpre.
  - inversion Hrun; subst. exists [], h, rest, r, s. auto.
Qed.

End Sweep.

Lemma NoDup_app_apart (l1 l2 : list Z) (x : Z) :
  NoDup (l1 ++ l2) -> In x l1 -> In x l2 -> False.
Proof.
  induction l1 as [|h rest IH]; simpl; intros Hnd H1 H2; [contradiction|].
  inversion Hnd as [|? ? Hnotin Hnd']; subst.
  destruct H1 as [->|H1].
  - apply Hnotin. apply in_or_app. now right.
  - now apply IH.
Qed.

Lemma NoDup_map_filter {A : Type} (key : A -> Z) (p : A -> bool)
    (l : list A) :
  NoDup (map key l) -> NoDup (map key (filter p l)).
Proof.
  induction l as [|h rest IH]; simpl; intros Hnd; [constructor|].
  inversion Hnd as [|? ? Hnotin Hnd']; subst.
  destruct (p h); simpl; [|now apply IH].
  constructor; [|now apply IH].
  intros Hin. apply Hnotin. apply in_map_iff in Hin.
  destruct Hin as (x & Hx & Hin). apply filter_In in Hin.
  apply in_map_iff. exists x. tauto.
Qed.

(** a day before the day of an instant ended before that instant *)
Lemma dateonly_lt_instant (day now : Z) :
  day < to_dateonly now <-> date_getTime (day + 1) <= now.
Proof.
  unfold to_dateonly, date_getTime. pose proof MS_PER_DAY_pos as Hpos.
  pose proof (Z.div_mod now MS_PER_DAY ltac:(lia)) as Hdm.
  pose proof (Z.mod_pos_bound now MS_PER_DAY Hpos) as Hm.
  split; intros H; nia.
Qed.

Lemma dateonly_lt_past (day now : Z) :
  day < to_dateonly now -> date_getTime day < now.
Proof.
  intros H. apply dateonly_lt_instant in H. unfold date_getTime in *.
  pose proof MS_PER_DAY_pos. lia.
Qed.

Lemma findAll_overdue_In (now : Z) (s : Store) (b : IssuedBook) :
  In b (FineService.IssuedBook_findAll_overdue now s) <->
  In b (issued_books s) /\ ib_status b = issued
  /\ ib_due_date b < to_dateonly now.
Proof.
  unfold FineService.IssuedBook_findAll_overdue.
  rewrite filter_In, andb_true_iff, LoanStatus_eqb_eq, Z.ltb_lt. tauto.
Qed.

Lemma filter_filter_andb {A : Type} (p q : A -> bool) (l : list A) :
  filter q (filter p l) = filter (fun x => p x && q x) l.
Proof.
  induction l as [|h rest IH]; simpl; [reflexivity|].
  destruct (p h); simpl; [|exact IH].
  destruct (q h); now rewrite IH.
Qed.

Lemma length_filter_map {A : Type} (p : A -> bool) (g : A -> A) (l : list A) :
  (forall x, In x l -> p (g x) = p x) ->
  List.length (filter p (map g l)) = List.length (filter p l).
Proof.
  induction l as [|h rest IH]; simpl; intros H; [reflexivity|].
  rewrite (H h (or_introl eq_refl)).
  destruct (p h); simpl; rewrite IH; auto.
Qed.

Lemma find_none_filter_nil {A : Type} (p : A -> bool) (l : list A) :
  find p l = None -> filter p l = [].
Proof.
  induction l as [|h rest IH]; simpl; [reflexivity|].
  destruct (p h); [discriminate|exact IH].
Qed.

Lemma pending_fines_of_loan_filter (k : Z) (s : Store) :
  pending_fines_of_loan k s
  = filter (fun f => (fine_issued_book_id f =? k)
                     && FineStatus_eqb (fine_status f) pending)
           (fines s).
Proof. apply filter_filter_andb. Qed.

Section Upsert.

Variable rejects : DbWrite -> bool.
Variable now : Z.

(** one iteration adds a pending fine to a loan only when it has none *)
Lemma sweep_body_pending (book : IssuedBook) (r : list FineService.SweepResult)
    (s : Store) (out : Outcome (list FineService.SweepResult)) (s' : Store)
    (k : Z) :
  NoDup (map fine_id (fines s)) ->
  FineService.sweep_body rejects now book r s = (out, s') ->
  (List.length (pending_fines_of_loan k s')
   <= Nat.max 1 (List.length (pending_fines_of_loan k s)))%nat.
Proof.
  intros Hnd Hrun.
  destruct (Z.eq_dec k (ib_id book)) as [->|Hne].
  2:{ destruct (sweep_body_fines _ _ _ _ _ _ _ Hnd Hrun) as (_ & _ & Hoth).
      unfold pending_fines_of_loan. rewrite (Hoth k Hne). lia. }
  revert Hrun. run_body.
  destruct (FineService.calculateFine now (ib_id book) s) as [fd|] eqn:Ecalc;
    [|intros H; inversion H; subst; lia].
  apply calculateFine_id in Ecalc.
  destruct (FineService.Fine_findOne_pending (ib_id book) s) as [ex|] eqn:Eex.
  - destruct (rejects (W_Fine_update (fine_id ex)));
      [intros H; inversion H; subst; lia|].
    assert (Hlen : List.length
                     (filter (fun f => (fine_issued_book_id f =? ib_id book)
                                       && FineStatus_eqb (fine_status f) pending)
                        (map (fun f => if fine_id f =? fine_id ex
                                       then Fine_set_computed fd f else f)
                             (fines s)))
                   = List.length (pending_fines_of_loan (ib_id book) s)).
    { rewrite pending_fines_of_loan_filter. apply length_filter_map.
      intros x Hx. destruct (fine_id x =? fine_id ex) eqn:E; [|reflexivity].
      apply Z.eqb_eq in E. apply find_some in Eex. destruct Eex as [Hex Hp].
      assert (x = ex) by (now apply (key_inj fine_id (fines s))). subst x.
      apply andb_true_iff in Hp. destruct Hp as [Hl Hp]. simpl.
      now rewrite Ecalc, Z.eqb_refl, Hl. }
    destruct (rejects (W_IssuedBook_update (ib_id book)));
      intros H; inversion H; subst;
      rewrite pending_fines_of_loan_filter; cbn [fines set_fines set_issued_books];
      rewrite Hlen; lia.
  - destruct (rejects (W_Fine_create (fd_issued_book_id fd)));
      [intros H; inversion H; subst; lia|].
    assert (Hnil : pending_fines_of_loan (ib_id book) s = []).
    { rewrite pending_fines_of_loan_filter.
      now apply find_none_filter_nil. }
    destruct (rejects (W_IssuedBook_update (ib_id book)));
      intros H; inversion H; subst;
      rewrite pending_fines_of_loan_filter;
      cbn [fines set_fines set_issued_books];
      rewrite filter_app, length_app, <- pending_fines_of_loan_filter, Hnil;
      cbn [filter fine_issued_book_id fine_status FineStatus_eqb];
      rewrite Ecalc, Z.eqb_refl; cbn [andb List.length]; lia.
Qed.

Lemma sweep_loop_pending (l : list IssuedBook) :
  forall r s out s' k,
    NoDup (map fine_id (fines s)) ->
    FineService.sweep_loop rejects now l r s = (out, s') ->
    (List.length (pending_fines_of_loan k s')
     <= Nat.max 1 (List.length (pending_fines_of_loan k s)))%nat.
Proof.
  induction l as [|h rest IH]; intros r s out s' k Hnd Hrun.
  - inversion Hrun; subst. lia.
  - rewrite sweep_loop_cons in Hrun.
    destruct (FineService.sweep_body rejects now h r s) as [o1 s1] eqn:Eb.
    pose proof (sweep_body_pending _ _ _ _ _ k Hnd Eb) as H1.
    destruct (sweep_body_fines _ _ _ _ _ _ _ Hnd Eb) as (Hnd1 & _).
    destruct o1 as [r1|e].
    + pose proof (IH _ _ _ _ k Hnd1 Hrun). lia.
    + inversion Hrun; subst. exact H1.
Qed.

End Upsert.

(** ** generateFinesForOverdueBooks *)

Lemma generateFines_unfold (rejects : DbWrite -> bool) (now : Z) (s : Store) :
  FineService.generateFinesForOverdueBooks rejects now s
  = FineService.sweep_loop rejects now
      (FineService.IssuedBook_findAll_overdue now s) [] s.
Proof. reflexivity. Qed.

Lemma fined_among_false (now : Z) (s : Store) (l : list IssuedBook)
    (b : IssuedBook) :
  (forall h, In h l -> ib_id h = ib_id b -> has_fine now s h = false) ->
  fined_among now s l b = false.
Proof.
  intros H. unfold fined_among.
  destruct (existsb _ l) eqn:E; [|reflexivity].
  apply existsb_exists in E. destruct E as (h & Hh & Hc).
  apply andb_true_iff in Hc. destruct Hc as [Hid Hf].
  apply Z.eqb_eq in Hid. rewrite (H h Hh Hid) in Hf. discriminate.
Qed.

Lemma fined_among_true (now : Z) (s : Store) (l : list IssuedBook)
    (b : IssuedBook) :
  In b l -> has_fine now s b = true -> fined_among now s l b = true.
Proof.
  intros Hb Hf. unfold fined_among. apply existsb_exists. exists b.
  split; [exact Hb|]. now rewrite Z.eqb_refl, Hf.
Qed.

Lemma no_midnight_between_days (t1 t2 : Z) :
  no_midnight_between t1 t2 ->
  to_dateonly t2 = to_dateonly t1
  /\ ceil_div t2 MS_PER_DAY = ceil_div t1 MS_PER_DAY.
Proof.
  intros [->|(day & Hlo & Hle & Hhi)]; [auto|].
  unfold date_getTime in *. pose proof MS_PER_DAY_pos as Hpos.
  assert (Hday : forall t, day * MS_PER_DAY < t < (day + 1) * MS_PER_DAY ->
                           to_dateonly t = day
                           /\ ceil_div t MS_PER_DAY = day + 1).
  { intros t Ht. split.
    - unfold to_dateonly. symmetry.
      apply (Z.div_unique t MS_PER_DAY day (t - day * MS_PER_DAY)); lia.
    - apply ceil_div_unique; lia. }
  destruct (Hday t1 ltac:(lia)) as [-> ->].
  destruct (Hday t2 ltac:(lia)) as [-> ->]. auto.
Qed.

(** Between two calls a loan can leave the grace period: under 3 days of
    grace, the call at midnight of 2024-01-13 finds the loan due 2024-01-10
    exactly 3 days late and writes nothing; a second call one millisecond
    later selects the same loan, creates its fine and moves the total of
    the fine amounts from 0 to 5.00. *)
Lemma second_sweep_fines_loan_leaving_grace :
  FineService.generateFinesForOverdueBooks no_rejects
    (date_getTime (day_2024_01_10 + 3)) grace_store = (Ok [], grace_store)
  /\ FineService.IssuedBook_findAll_overdue
       (date_getTime (day_2024_01_10 + 3) + 1) grace_store
     = FineService.IssuedBook_findAll_overdue
         (date_getTime (day_2024_01_10 + 3)) grace_store
  /\ total_fine_amount grace_store = 0
  /\ (exists report s2,
        FineService.generateFinesForOverdueBooks no_rejects
          (date_getTime (day_2024_01_10 + 3) + 1) grace_store
        = (Ok report, s2)
        /\ map FineService.sr_action report = [FineService.created]
        /\ total_fine_amount s2 = 500)
  /\ ~ (forall now1 now2 s report s1 out s2,
          now1 <= now2 ->
          FineService.generateFinesForOverdueBooks no_rejects now1 s
          = (Ok report, s1) ->
          FineService.IssuedBook_findAll_overdue now2 s
          = FineService.IssuedBook_findAll_overdue now1 s ->
          FineService.generateFinesForOverdueBooks no_rejects now2 s1
          = (out, s2) ->
          total_fine_amount s2 = total_fine_amount s1).
Proof.
  split; [reflexivity|]. split; [reflexivity|]. split; [reflexivity|].
  split; [eexists _, _; repeat split|].
  intros H.
  specialize (H (date_getTime (day_2024_01_10 + 3))
                (date_getTime (day_2024_01_10 + 3) + 1)
                grace_store [] grace_store _ _ ltac:(lia) eq_refl eq_refl
                eq_refl).
  discriminate H.
Qed.

(** C4 (amended). After a call of [generateFinesForOverdueBooks] that
    completed, a second call at the same instant, or later with no midnight
    met in between, changes nothing: it reports no loan and leaves the store
    as it is, so no pending fine is added for any loan and the total of the
    fine amounts is the same. Whenever the second call is made and whatever
    its outcome, no loan that had at most one pending fine has more than
    one after it. *)
Theorem generateFines_twice (rejects rejects' : DbWrite -> bool)
    (now now' : Z) (s : Store) (report : list FineService.SweepResult)
    (s1 : Store) :
  FineService.generateFinesForOverdueBooks rejects now s = (Ok report, s1) ->
  (no_midnight_between now now' ->
   FineService.generateFinesForOverdueBooks rejects' now' s1 = (Ok [], s1)
   /\ (forall out s2,
         FineService.generateFinesForOverdueBooks rejects' now' s1
         = (out, s2) ->
         fines s2 = fines s1
         /\ (forall id, pending_fines_of_loan id s2
                        = pending_fines_of_loan id s1)
         /\ total_fine_amount s2 = total_fine_amount s1))
  /\ (NoDup (map fine_id (fines s)) ->
      (forall k, (List.length (pending_fines_of_loan k s) <= 1)%nat) ->
      forall out s2,
        FineService.generateFinesForOverdueBooks rejects' now' s1
        = (out, s2) ->
        forall k, (List.length (pending_fines_of_loan k s2) <= 1)%nat).
Proof.
  intros Hrun. split.
  - intros Hspan.
    destruct (no_midnight_between_days _ _ Hspan) as [Hday Hceil].
    assert (Hsecond :
              FineService.generateFinesForOverdueBooks rejects' now' s1
              = (Ok [], s1)).
    { rewrite generateFines_unfold in *.
      destruct (sweep_loop_rows _ _ _ _ _ _ _ Hrun) as [Hrows _].
      destruct (sweep_loop_frame _ _ _ _ _ _ _ Hrun) as (Hcalc & _).
      apply sweep_loop_noop. intros b' Hb'.
      apply findAll_overdue_In in Hb'. destruct Hb' as (Hin & Hst & Hdue).
      rewrite Hday in Hdue.
      rewrite (calculateFine_same_ceil now' now) by exact Hceil.
      rewrite Hrows in Hin. apply in_map_iff in Hin.
      destruct Hin as (b & Hb' & Hb).
      destruct (fined_among now s
                  (FineService.IssuedBook_findAll_overdue now s) b) eqn:Hf.
      - subst b'. simpl in Hst. discriminate.
      - subst b'. rewrite Hcalc.
        assert (Hsel : In b (FineService.IssuedBook_findAll_overdue now s))
          by (apply findAll_overdue_In; auto).
        destruct (has_fine now s b) eqn:Hhas.
        + rewrite (fined_among_true _ _ _ _ Hsel Hhas) in Hf. discriminate.
        + unfold has_fine in Hhas.
          destruct (FineService.calculateFine now (ib_id b) s);
            [discriminate|reflexivity]. }
    split; [exact Hsecond|].
    intros out s2 H2. rewrite Hsecond in H2. inversion H2; subst. auto.
  - intros Hnd Hone out s2 H2 k. rewrite generateFines_unfold in *.
    destruct (sweep_loop_fines _ _ _ _ _ _ _ Hnd Hrun) as (Hnd1 & _).
    pose proof (sweep_loop_pending _ _ _ _ _ _ _ k Hnd Hrun).
    pose proof (sweep_loop_pending _ _ _ _ _ _ _ k Hnd1 H2).
    specialize (Hone k). lia.
Qed.

Lemma generateFines_twice_witness :
  no_midnight_between sweep_instant an_hour_later
  /\ (exists report s1,
        FineService.generateFinesForOverdueBooks no_rejects sweep_instant
          scenario_store = (Ok report, s1)
        /\ map FineService.sr_action report = [FineService.created]
        /\ FineService.generateFinesForOverdueBooks no_rejects an_hour_later
             s1 = (Ok [], s1)).
Proof.
  assert (Hspan : no_midnight_between sweep_instant an_hour_later).
  { right. exists (day_2024_01_10 + 1).
    unfold an_hour_later, sweep_instant, date_getTime, MS_PER_DAY,
      day_2024_01_10. lia. }
  split; [exact Hspan|].
  eexists _, _. split; [reflexivity|]. split; [reflexivity|].
  eapply (generateFines_twice no_rejects no_rejects sweep_instant
            an_hour_later scenario_store); [reflexivity|exact Hspan].
Defined.

(** A loan within the grace period stays issued: under 3 days of grace, the
    sweep of 2024-01-11 finds the loan due 2024-01-10 (status issued, due
    date before that day), reports nothing and leaves its status issued. *)
Lemma sweep_keeps_loan_in_grace_issued :
  In scenario_loan
     (FineService.IssuedBook_findAll_overdue
        (date_getTime (day_2024_01_10 + 1)) grace_store)
  /\ FineService.generateFinesForOverdueBooks no_rejects
       (date_getTime (day_2024_01_10 + 1)) grace_store
     = (Ok [], grace_store)
  /\ option_map ib_status (IssuedBook_findByPk 1 grace_store) = Some issued
  /\ ~ (forall b out s',
          In b (issued_books grace_store) ->
          ib_status b = issued ->
          ib_due_date b < to_dateonly (date_getTime (day_2024_01_10 + 1)) ->
          FineService.generateFinesForOverdueBooks no_rejects
            (date_getTime (day_2024_01_10 + 1)) grace_store = (out, s') ->
          option_map ib_status (IssuedBook_findByPk (ib_id b) s')
          = Some overdue).
Proof.
  split; [left; reflexivity|]. split; [reflexivity|]. split; [reflexivity|].
  intros H.
  specialize (H scenario_loan (Ok []) grace_store (or_introl eq_refl)
                eq_refl eq_refl eq_refl).
  discriminate H.
Qed.

(** C3 (amended). In a sweep that completes, every loan with status issued
    whose due date is a day before today (the day of the sweep) and for
    which [calculateFine] yields a fine gets that fine upserted as its
    pending fine, is reported, and ends with status overdue; such a loan for
    which [calculateFine] yields no fine (it is within the grace period)
    keeps status issued, is not reported, and its fines are as before. *)
Theorem generateFines_marks_fined_loans (rejects : DbWrite -> bool) (now : Z)
    (s : Store) (report : list FineService.SweepResult) (s' : Store)
    (b : IssuedBook) :
  NoDup (map ib_id (issued_books s)) ->
  NoDup (map fine_id (fines s)) ->
  FineService.generateFinesForOverdueBooks rejects now s = (Ok report, s') ->
  In b (issued_books s) ->
  ib_status b = issued ->
  ib_due_date b < to_dateonly now ->
  match FineService.calculateFine now (ib_id b) s with
  | Some fd =>
      IssuedBook_findByPk (ib_id b) s' = Some (IssuedBook_set_status overdue b)
      /\ In (ib_id b) (map FineService.sr_issued_book_id report)
      /\ exists f,
           FineService.Fine_findOne_pending (ib_id b) s' = Some f
           /\ fine_amount f = fd_amount fd
           /\ fine_days_overdue f = fd_days_overdue fd
           /\ fine_rate_per_day f = fd_fine_rate_per_day fd
  | None =>
      IssuedBook_findByPk (ib_id b) s' = Some b
      /\ ~ In (ib_id b) (map FineService.sr_issued_book_id report)
      /\ fines_of_loan (ib_id b) s' = fines_of_loan (ib_id b) s
  end.
Proof.
  intros Hloans Hfines Hrun Hb Hst Hdue.
  rewrite generateFines_unfold in Hrun.
  set (l := FineService.IssuedBook_findAll_overdue now s) in *.
  assert (Hsel : In b l) by (apply findAll_overdue_In; auto).
  assert (Hl : NoDup (map ib_id l)) by (apply NoDup_map_filter, Hloans).
  destruct (sweep_loop_rows _ _ _ _ _ _ _ Hrun) as [Hrows Hrep].
  simpl in Hrep.
  assert (Hrow : IssuedBook_findByPk (ib_id b) s'
                 = Some (if fined_among now s l b
                         then IssuedBook_set_status overdue b else b)).
  { unfold IssuedBook_findByPk. rewrite Hrows.
    apply (find_key_map ib_id); auto.
    intros x. destruct (fined_among now s l x); reflexivity. }
  assert (Hothers : forall h, In h l -> ib_id h = ib_id b -> h = b).
  { intros h Hh E. apply (key_inj ib_id (issued_books s)); auto.
    apply findAll_overdue_In in Hh. tauto. }
  destruct (FineService.calculateFine now (ib_id b) s) as [fd|] eqn:Ecalc.
  - assert (Hhas : has_fine now s b = true)
      by (unfold has_fine; now rewrite Ecalc).
    rewrite (fined_among_true _ _ _ _ Hsel Hhas) in Hrow.
    split; [exact Hrow|]. split.
    + rewrite Hrep. apply in_map. apply filter_In. auto.
    + apply (sweep_loop_upsert rejects now l [] s report s'); auto.
  - assert (Hhas : has_fine now s b = false)
      by (unfold has_fine; now rewrite Ecalc).
    assert (Hnone : forall h, In h l -> ib_id h = ib_id b ->
                              has_fine now s h = false).
    { intros h Hh E. now rewrite (Hothers h Hh E). }
    rewrite (fined_among_false _ _ _ _ Hnone) in Hrow.
    split; [exact Hrow|]. split.
    + rewrite Hrep. intros Hin. apply in_map_iff in Hin.
      destruct Hin as (h & E & Hh). apply filter_In in Hh.
      destruct Hh as [Hh Hf]. rewrite (Hnone h Hh E) in Hf. discriminate.
    + destruct (sweep_loop_fines _ _ _ _ _ _ _ Hfines Hrun) as (_ & _ & Hoth).
      now apply Hoth.
Qed.

Lemma generateFines_marks_fined_loans_witness :
  IssuedBook_findByPk 1 swept_store
  = Some (IssuedBook_set_status overdue scenario_loan)
  /\ In 1 (map FineService.sr_issued_book_id swept_report)
  /\ exists f,
       FineService.Fine_findOne_pending 1 swept_store = Some f
       /\ fine_amount f = 500
       /\ fine_days_overdue f = 1
       /\ fine_rate_per_day f = 500.
Proof.
  apply (generateFines_marks_fined_loans no_rejects
           (date_getTime (day_2024_01_10 + 1)) scenario_store swept_report
           swept_store scenario_loan).
  - simpl. constructor; [intros []|constructor].
  - simpl. constructor.
  - reflexivity.
  - simpl. left. reflexivity.
  - reflexivity.
  - reflexivity.
Defined.

(** A rejected write ends the sweep: when the creation of the fine of loan 1
    is rejected, the sweep of the two overdue loans rejects, returns no
    report, and leaves loan 2, whose own iteration would have completed,
    unprocessed. *)
Lemma sweep_aborts_at_first_failure :
  FineService.IssuedBook_findAll_overdue (date_getTime day_2024_01_15)
    two_loan_store = [scenario_loan; second_loan]
  /\ FineService.generateFinesForOverdueBooks rejects_fine_of_loan_1
       (date_getTime day_2024_01_15) two_loan_store
     = (Threw db_error, two_loan_store)
  /\ (exists r s',
        FineService.sweep_body rejects_fine_of_loan_1
          (date_getTime day_2024_01_15) second_loan [] two_loan_store
        = (Ok r, s')
        /\ map FineService.sr_issued_book_id r = [2])
  /\ ~ (exists report s',
          FineService.generateFinesForOverdueBooks rejects_fine_of_loan_1
            (date_getTime day_2024_01_15) two_loan_store = (Ok report, s')
          /\ In 2 (map FineService.sr_issued_book_id report)).
Proof.
  split; [reflexivity|]. split; [reflexivity|]. split.
  - eexists _, _. split; reflexivity.
  - intros (report & s' & H & _). discriminate H.
Qed.

Section Failure.

Variable rejects : DbWrite -> bool.
Variable now : Z.

(** an iteration for a loan with a fine rejects exactly when one of its
    writes is rejected *)
Lemma sweep_body_writes (book : IssuedBook) (r : list FineService.SweepResult)
    (s : Store) :
  has_fine now s book = true ->
  if existsb rejects (sweep_writes s book)
  then exists s', FineService.sweep_body rejects now book r s
                  = (Threw db_error, s')
  else exists r' s', FineService.sweep_body rejects now book r s
                     = (Ok r', s').
Proof.
  unfold has_fine, sweep_writes. run_body.
  destruct (FineService.calculateFine now (ib_id book) s) as [fd|] eqn:Ecalc;
    [intros _|discriminate].
  rewrite (calculateFine_id _ _ _ _ Ecalc).
  destruct (FineService.Fine_findOne_pending (ib_id book) s) as [ex|];
    cbn [existsb].
  - destruct (rejects (W_Fine_update (fine_id ex))); cbn [orb]; [eauto|].
    destruct (rejects (W_IssuedBook_update (ib_id book))); cbn [orb]; eauto.
  - destruct (rejects (W_Fine_create (ib_id book))); cbn [orb]; [eauto|].
    destruct (rejects (W_IssuedBook_update (ib_id book))); cbn [orb]; eauto.
Qed.

Lemma sweep_body_keeps_writes (book : IssuedBook)
    (r : list FineService.SweepResult) (s : Store)
    (out : Outcome (list FineService.SweepResult)) (s' : Store)
    (a : IssuedBook) :
  NoDup (map fine_id (fines s)) ->
  FineService.sweep_body rejects now book r s = (out, s') ->
  ib_id a <> ib_id book ->
  sweep_writes s' a = sweep_writes s a.
Proof.
  intros Hnd Hrun Hne. unfold sweep_writes.
  destruct (sweep_body_fines _ _ _ _ _ _ _ Hnd Hrun) as (_ & _ & Hoth).
  rewrite !Fine_findOne_pending_of_loan, (Hoth _ Hne). reflexivity.
Qed.

(** the loop completes when no write of its loans is rejected *)
Lemma sweep_loop_completes (l : list IssuedBook) :
  forall r s,
    NoDup (map fine_id (fines s)) ->
    NoDup (map ib_id l) ->
    (forall a, In a l -> has_fine now s a = true ->
               existsb rejects (sweep_writes s a) = false) ->
    exists r' s', FineService.sweep_loop rejects now l r s = (Ok r', s').
Proof.
  induction l as [|h rest IH]; intros r s Hnd Hl Hacc;
    [exists r, s; reflexivity|].
  simpl in Hl. apply NoDup_cons_iff in Hl. destruct Hl as [Hnotin Hrest].
  assert (Hbody : exists r1 s1,
             FineService.sweep_body rejects now h r s = (Ok r1, s1)).
  { destruct (has_fine now s h) eqn:Hf.
    - pose proof (sweep_body_writes h r s Hf) as Hw.
      rewrite (Hacc h (or_introl eq_refl) Hf) in Hw. exact Hw.
    - exists r, s. apply sweep_body_None. unfold has_fine in Hf.
      destruct (FineService.calculateFine now (ib_id h) s);
        [discriminate|reflexivity]. }
  destruct Hbody as (r1 & s1 & Eb).
  destruct (sweep_body_fines _ _ _ _ _ _ _ Hnd Eb) as (Hnd1 & _).
  destruct (IH r1 s1 Hnd1 Hrest) as (r' & s' & Hrest');
    [|exists r', s'; rewrite sweep_loop_cons, Eb; exact Hrest'].
  intros a Ha Hf.
  assert (Hne : ib_id a <> ib_id h).
  { intros E. apply Hnotin. rewrite <- E. now apply in_map. }
  rewrite (sweep_body_keeps_writes _ _ _ _ _ a Hnd Eb Hne).
  apply Hacc; [now right|].
  unfold has_fine in *.
  now rewrite <- (sweep_body_calculateFine _ _ _ _ _ _ _ Eb).
Qed.

Lemma sweep_loop_app (l1 l2 : list IssuedBook) :
  forall r s,
    FineService.sweep_loop rejects now (l1 ++ l2) r s
    = match FineService.sweep_loop rejects now l1 r s with
      | (Ok r1, s1) => FineService.sweep_loop rejects now l2 r1 s1
      | (Threw e, s1) => (Threw e, s1)
      end.
Proof.
  induction l1 as [|h rest IH]; intros r s; [reflexivity|].
  rewrite <- app_comm_cons, !sweep_loop_cons.
  destruct (FineService.sweep_body rejects now h r s) as [[r1|e] s1];
    [apply IH|reflexivity].
Qed.

(** the state a sweep leaves when the iteration of [b] rejects after the
    loans of [pre] completed *)
Lemma sweep_threw_state (s : Store) (pre : list IssuedBook) (b : IssuedBook)
    (post : list IssuedBook) (r1 : list FineService.SweepResult)
    (s1 : Store) (e : string) (s' : Store) :
  NoDup (map ib_id (issued_books s)) ->
  NoDup (map fine_id (fines s)) ->
  FineService.IssuedBook_findAll_overdue now s = pre ++ b :: post ->
  FineService.sweep_loop rejects now pre [] s = (Ok r1, s1) ->
  FineService.sweep_body rejects now b r1 s1 = (Threw e, s') ->
  (forall a, In a pre -> has_fine now s a = true ->
             IssuedBook_findByPk (ib_id a) s'
             = Some (IssuedBook_set_status overdue a))
  /\ IssuedBook_findByPk (ib_id b) s' = Some b
  /\ (forall c, In c post ->
                IssuedBook_findByPk (ib_id c) s' = Some c
                /\ fines_of_loan (ib_id c) s' = fines_of_loan (ib_id c) s).
Proof.
  intros Hloans Hfines Hl Hpre Hb.
  destruct (sweep_body_loans _ _ _ _ _ _ _ Hb) as (_ & _ & _ & Hbf & Hrows & He).
  assert (Hnd : NoDup (map ib_id (pre ++ b :: post))).
  { rewrite <- Hl. apply NoDup_map_filter, Hloans. }
  assert (Hin : forall x, In x (pre ++ b :: post) -> In x (issued_books s)).
  { intros x Hx. rewrite <- Hl in Hx. apply findAll_overdue_In in Hx. tauto. }
  destruct (sweep_loop_rows _ _ _ _ _ _ _ Hpre) as [Hrows1 _].
  assert (Hrow : forall x, In x (pre ++ b :: post) ->
             IssuedBook_findByPk (ib_id x) s'
             = Some (if fined_among now s pre x
                     then IssuedBook_set_status overdue x else x)).
  { intros x Hx. unfold IssuedBook_findByPk. rewrite Hrows, Hrows1.
    apply (find_key_map ib_id); auto.
    intros y. destruct (fined_among now s pre y); reflexivity. }
  assert (Hafter : forall x, In x (b :: post) ->
             forall h, In h pre -> ib_id h <> ib_id x).
  { intros x Hx h Hh E. rewrite map_app in Hnd.
    apply (NoDup_app_apart _ _ (ib_id h) Hnd).
    - now apply in_map.
    - rewrite E. now apply in_map. }
  split; [|split].
  - intros a Ha Hf. rewrite Hrow by (apply in_or_app; now left).
    now rewrite (fined_among_true _ _ _ _ Ha Hf).
  - rewrite Hrow by (apply in_or_app; right; now left).
    rewrite fined_among_false; [reflexivity|].
    intros h Hh E. exfalso. now apply (Hafter b (or_introl eq_refl) h).
  - intros c Hc. split.
    + rewrite Hrow by (apply in_or_app; right; now right).
      rewrite fined_among_false; [reflexivity|].
      intros h Hh E. exfalso. apply (Hafter c (or_intror Hc) h); auto.
    + destruct (sweep_loop_fines _ _ _ _ _ _ _ Hfines Hpre)
        as (Hfines1 & _ & Hoth).
      destruct (sweep_body_fines _ _ _ _ _ _ _ Hfines1 Hb) as (_ & _ & Hoth').
      rewrite Hoth'.
      * apply Hoth. intros h Hh E. exfalso.
        apply (Hafter c (or_intror Hc) h); auto.
      * intros E. rewrite map_app in Hnd. apply NoDup_remove_2 in Hnd.
        apply Hnd. apply in_or_app. right. rewrite <- E. now apply in_map.
Qed.

End Failure.

(** C5 (amended). A failure while processing one overdue loan ends the
    sweep. When the writes of the loans selected before a loan [b] are
    accepted and a write of [b] (the upsert of its fine or the update of its
    status) is rejected, the sweep rejects with the error of that write and
    returns no report; the loans before [b] were processed and their writes
    stay, the row of [b] is as it was, and each loan after [b] is left
    unprocessed, its row and its fines as they were before the sweep. *)
Theorem generateFines_failure_aborts (rejects : DbWrite -> bool) (now : Z)
    (s : Store) (pre : list IssuedBook) (b : IssuedBook)
    (post : list IssuedBook) :
  NoDup (map ib_id (issued_books s)) ->
  NoDup (map fine_id (fines s)) ->
  FineService.IssuedBook_findAll_overdue now s = pre ++ b :: post ->
  (forall a, In a pre -> has_fine now s a = true ->
             existsb rejects (sweep_writes s a) = false) ->
  has_fine now s b = true ->
  existsb rejects (sweep_writes s b) = true ->
  exists s',
    FineService.generateFinesForOverdueBooks rejects now s
    = (Threw db_error, s')
    /\ (forall a, In a pre -> has_fine now s a = true ->
                  IssuedBook_findByPk (ib_id a) s'
                  = Some (IssuedBook_set_status overdue a))
    /\ IssuedBook_findByPk (ib_id b) s' = Some b
    /\ (forall c, In c post ->
                  IssuedBook_findByPk (ib_id c) s' = Some c
                  /\ fines_of_loan (ib_id c) s' = fines_of_loan (ib_id c) s).
Proof.
  intros Hloans Hfines Hl Hacc Hfine Hrej.
  assert (Hnd : NoDup (map ib_id (pre ++ b :: post))).
  { rewrite <- Hl. apply NoDup_map_filter, Hloans. }
  assert (Hndpre : NoDup (map ib_id pre)).
  { rewrite map_app in Hnd. now apply NoDup_app_remove_r in Hnd. }
  assert (Hapart : forall h, In h pre -> ib_id h <> ib_id b).
  { intros h Hh E. rewrite map_app in Hnd.
    apply (NoDup_app_apart _ _ (ib_id h) Hnd); [now apply in_map|].
    rewrite E. simpl. now left. }
  destruct (sweep_loop_completes rejects now pre [] s Hfines Hndpre Hacc)
    as (r1 & s1 & Hpre).
  destruct (sweep_loop_frame _ _ _ _ _ _ _ Hpre) as (Hcalc & _).
  destruct (sweep_loop_fines _ _ _ _ _ _ _ Hfines Hpre) as (_ & _ & Hoth).
  assert (Hfine1 : has_fine now s1 b = true)
    by (unfold has_fine in *; now rewrite Hcalc).
  assert (Hwrites : sweep_writes s1 b = sweep_writes s b).
  { unfold sweep_writes. rewrite !Fine_findOne_pending_of_loan, Hoth;
      [reflexivity|].
    intros h Hh E. exfalso. now apply (Hapart h). }
  pose proof (sweep_body_writes rejects now b r1 s1 Hfine1) as Hbody.
  rewrite Hwrites, Hrej in Hbody. destruct Hbody as (s' & Hb).
  exists s'. split.
  - rewrite generateFines_unfold, Hl, sweep_loop_app, Hpre, sweep_loop_cons, Hb.
    reflexivity.
  - apply (sweep_threw_state rejects now s pre b post r1 s1 db_error s');
      assumption.
Qed.

Lemma generateFines_failure_aborts_witness :
  exists s',
    FineService.generateFinesForOverdueBooks rejects_fine_of_loan_2
      (date_getTime day_2024_01_15) two_loan_store = (Threw db_error, s')
    /\ IssuedBook_findByPk 1 s'
       = Some (IssuedBook_set_status overdue scenario_loan)
    /\ List.length (fines_of_loan 1 s') = 1%nat
    /\ IssuedBook_findByPk 2 s' = Some second_loan
    /\ fines_of_loan 2 s' = [].
Proof.
  destruct (generateFines_failure_aborts rejects_fine_of_loan_2
              (date_getTime day_2024_01_15) two_loan_store [scenario_loan]
              second_loan [])
    as (s' & Hrun & Hpre & Hb & _).
  - simpl. constructor; [simpl; intros [H|[]]; discriminate H|].
    constructor; [intros []|constructor].
  - simpl. constructor.
  - reflexivity.
  - intros a [<-|[]] _. reflexivity.
  - reflexivity.
  - reflexivity.
  - exists s'. split; [exact Hrun|].
    split; [exact (Hpre scenario_loan (or_introl eq_refl) eq_refl)|].
    inversion Hrun; subst s'. repeat split.
Defined.

(** X11. The sweep selects loans with status issued only: the fines of a loan
    with another status, overdue among them, are never recomputed by it. *)
Lemma sweep_skips_loans_not_issued (rejects : DbWrite -> bool) (now : Z)
    (s : Store) (out : Outcome (list FineService.SweepResult)) (s' : Store)
    (b : IssuedBook) :
  NoDup (map ib_id (issued_books s)) ->
  NoDup (map fine_id (fines s)) ->
  In b (issued_books s) ->
  ib_status b <> issued ->
  FineService.generateFinesForOverdueBooks rejects now s = (out, s') ->
  fines_of_loan (ib_id b) s' = fines_of_loan (ib_id b) s.
Proof.
  intros Hloans Hfines Hb Hst Hrun. rewrite generateFines_unfold in Hrun.
  destruct (sweep_loop_fines _ _ _ _ _ _ _ Hfines Hrun) as (_ & _ & Hoth).
  apply Hoth. intros h Hh E. exfalso. apply Hst.
  apply findAll_overdue_In in Hh. destruct Hh as (Hin & Hissued & _).
  now rewrite <- (key_inj ib_id (issued_books s) h b Hloans Hin Hb E).
Qed.

(** C2, at the failing input. The sweep of 2024-01-11 creates the pending
    fine of the scenario loan (1 day, 5.00) and moves the loan to overdue;
    the sweep of 2024-01-13 then selects no loan and leaves that fine as it
    was, while [calculateFine] at 2024-01-13 yields 3 days and 15.00. *)
Theorem later_sweep_leaves_fine_stale :
  FineService.generateFinesForOverdueBooks no_rejects
    (date_getTime (day_2024_01_10 + 1)) scenario_store
  = (Ok swept_report, swept_store)
  /\ pending_fines_of_loan 1 swept_store = [first_fine]
  /\ fine_days_overdue first_fine = 1 /\ fine_amount first_fine = 500
  /\ FineService.IssuedBook_findAll_overdue
       (date_getTime (day_2024_01_10 + 3)) swept_store = []
  /\ FineService.generateFinesForOverdueBooks no_rejects
       (date_getTime (day_2024_01_10 + 3)) swept_store
     = (Ok [], swept_store)
  /\ FineService.calculateFine (date_getTime (day_2024_01_10 + 3)) 1
       swept_store
     = Some (mkFineData 1 42 1500 3 500).
Proof. repeat split. Qed.

(** ** payFine and waiveFine *)

Section Terminal.

Variable rejects : DbWrite -> bool.

(** a column update of one fine, seen from any fine of the table *)
Lemma Fine_update_lookup (g : Fine) (u : Fine -> Fine) (s : Store)
    (out : Outcome Fine) (s' : Store) (f : Fine) :
  NoDup (map fine_id (fines s)) ->
  In f (fines s) ->
  (forall x, fine_id (u x) = fine_id x) ->
  Fine_update rejects g u s = (out, s') ->
  (rejects (W_Fine_update (fine_id g)) = true
   /\ out = Threw db_error /\ s' = s)
  \/ (rejects (W_Fine_update (fine_id g)) = false
      /\ out = Ok (u g)
      /\ Fine_findByPk (fine_id f) s'
         = Some (if fine_id f =? fine_id g then u f else f)).
Proof.
  intros Hnd Hf Hu. unfold Fine_update.
  destruct (rejects (W_Fine_update (fine_id g)));
    intros H; inversion H; subst; [left; auto|right].
  split; [reflexivity|]. split; [reflexivity|].
  unfold Fine_findByPk. simpl.
  apply (find_key_map fine_id
           (fun x => if fine_id x =? fine_id g then u x else x)); auto.
  intros x. destruct (fine_id x =? fine_id g); auto.
Qed.

Lemma Fine_findByPk_In (s : Store) (f : Fine) :
  NoDup (map fine_id (fines s)) -> In f (fines s) ->
  Fine_findByPk (fine_id f) s = Some f.
Proof. apply (find_key_In fine_id). Qed.

Lemma Fine_findByPk_same (s : Store) (id : Z) (f g : Fine) :
  NoDup (map fine_id (fines s)) -> In f (fines s) ->
  Fine_findByPk id s = Some g ->
  (fine_id f =? fine_id g) = true -> g = f.
Proof.
  intros Hnd Hf Hg E. apply Z.eqb_eq in E.
  apply find_key_some in Hg. destruct Hg as [Hg _].
  now apply (key_inj fine_id (fines s)).
Qed.

(** [payFine] as seen from a fine [f] of the table: [f] keeps its amount;
    it is changed only when it is the fine paid, and then it is not yet
    paid and becomes paid *)
Lemma payFine_lookup (now id : Z) (d : option Z) (s : Store)
    (out : Outcome Fine) (s' : Store) (f : Fine) :
  NoDup (map fine_id (fines s)) ->
  In f (fines s) ->
  FineService.payFine rejects now id d s = (out, s') ->
  Fine_findByPk (fine_id f) s' = Some f
  \/ (id = fine_id f /\ fine_status f <> paid
      /\ rejects (W_Fine_update id) = false
      /\ exists day,
           out = Ok (Fine_set_paid day f)
           /\ Fine_findByPk (fine_id f) s' = Some (Fine_set_paid day f)).
Proof.
  intros Hnd Hf. pose proof (Fine_findByPk_In s f Hnd Hf) as Hfind.
  unfold FineService.payFine, bind, gets, throw.
  destruct (Fine_findByPk id s) as [g|] eqn:Eg;
    [|intros H; inversion H; subst; auto].
  destruct (FineStatus_eqb (fine_status g) paid) eqn:Est;
    [intros H; inversion H; subst; auto|].
  intros Hrun.
  pose proof (fun Hu => Fine_update_lookup _ _ _ _ _ f Hnd Hf Hu Hrun) as Hl.
  destruct (Hl (fun x => eq_refl)) as [(_ & _ & ->)|(Hrej & -> & Hlook)];
    [auto|].
  destruct (fine_id f =? fine_id g) eqn:E; [|auto].
  pose proof (Fine_findByPk_same s id f g Hnd Hf Eg E). subst g.
  right. apply find_key_some in Eg. destruct Eg as [_ Hid]. subst id.
  split; [reflexivity|]. split.
  - intros Hp. rewrite Hp in Est. discriminate.
  - split; [exact Hrej|]. eexists. split; [reflexivity|exact Hlook].
Qed.

(** [waiveFine] as seen from a fine [f] of the table *)
Lemma waiveFine_lookup (id : Z) (notes : option string) (s : Store)
    (out : Outcome Fine) (s' : Store) (f : Fine) :
  NoDup (map fine_id (fines s)) ->
  In f (fines s) ->
  FineService.waiveFine rejects id notes s = (out, s') ->
  Fine_findByPk (fine_id f) s' = Some f
  \/ (id = fine_id f /\ fine_status f <> paid
      /\ exists n,
           out = Ok (Fine_set_waived n f)
           /\ Fine_findByPk (fine_id f) s' = Some (Fine_set_waived n f)).
Proof.
  intros Hnd Hf. pose proof (Fine_findByPk_In s f Hnd Hf) as Hfind.
  unfold FineService.waiveFine, bind, gets, throw.
  destruct (Fine_findByPk id s) as [g|] eqn:Eg;
    [|intros H; inversion H; subst; auto].
  destruct (FineStatus_eqb (fine_status g) paid) eqn:Est;
    [intros H; inversion H; subst; auto|].
  intros Hrun.
  pose proof (fun Hu => Fine_update_lookup _ _ _ _ _ f Hnd Hf Hu Hrun) as Hl.
  destruct (Hl (fun x => eq_refl)) as [(_ & _ & ->)|(Hrej & -> & Hlook)];
    [auto|].
  destruct (fine_id f =? fine_id g) eqn:E; [|auto].
  pose proof (Fine_findByPk_same s id f g Hnd Hf Eg E). subst g.
  right. apply find_key_some in Eg. destruct Eg as [_ Hid]. subst id.
  split; [reflexivity|]. split.
  - intros Hp. rewrite Hp in Est. discriminate.
  - eexists. split; [reflexivity|exact Hlook].
Qed.

Lemma payFine_paid (now : Z) (d : option Z) (s : Store) (f : Fine) :
  Fine_findByPk (fine_id f) s = Some f -> fine_status f = paid ->
  FineService.payFine rejects now (fine_id f) d s
  = (Threw "Fine already paid", s).
Proof.
  intros Hfind Hp. unfold FineService.payFine, bind, gets, throw.
  rewrite Hfind, Hp. reflexivity.
Qed.

Lemma waiveFine_paid (notes : option string) (s : Store) (f : Fine) :
  Fine_findByPk (fine_id f) s = Some f -> fine_status f = paid ->
  FineService.waiveFine rejects (fine_id f) notes s
  = (Threw "Cannot waive paid fine", s).
Proof.
  intros Hfind Hp. unfold FineService.waiveFine, bind, gets, throw.
  rewrite Hfind, Hp. reflexivity.
Qed.

(** the issue route writes no fine *)
Lemma issue_fines (now librarian_id student_id book_id due_date : Z)
    (notes : option string) (s : Store) (resp : HttpResponse) (s' : Store) :
  IssuedBooksRoute.issue rejects now librarian_id student_id book_id due_date
    notes s = (resp, s') ->
  fines s' = fines s.
Proof.
  unfold IssuedBooksRoute.issue, handler, IssuedBooksRoute.issue_body,
    bind, gets, ret, IssuedBook_create, Book_update.
  repeat match goal with
         | |- context [match ?c with _ => _ end] =>
             lazymatch c with
             | context [match _ with _ => _ end] => fail
             | _ => destruct c
             end
         end;
    intros H; inversion H; subst; reflexivity.
Qed.

End Terminal.

(** [payFine] on a waived fine pays it: the fine of the sweep, once waived,
    is found, is not paid, and so is set to paid. *)
Lemma payFine_pays_waived_fine :
  Fine_findByPk 1 waived_store = Some waived_fine
  /\ fine_status waived_fine = waived
  /\ (exists f' s',
        FineService.payFine no_rejects (date_getTime day_2024_01_15) 1 None
          waived_store = (Ok f', s')
        /\ Fine_findByPk 1 s' = Some f'
        /\ fine_status f' = paid)
  /\ ~ (forall out s' f',
          FineService.payFine no_rejects (date_getTime day_2024_01_15) 1 None
            waived_store = (out, s') ->
          Fine_findByPk 1 s' = Some f' ->
          fine_status f' = waived).
Proof.
  split; [reflexivity|]. split; [reflexivity|]. split.
  - eexists _, _. repeat split.
  - intros H.
    specialize (H _ _ (Fine_set_paid day_2024_01_15 waived_fine)
                  eq_refl eq_refl).
    discriminate H.
Qed.

(** C6 (amended). A fine that is paid or waived is left as it is by the
    sweep and by the issue route. A paid fine is left as it is by [payFine]
    and [waiveFine] too, which reject when called on it. A waived fine
    keeps its status and amount under [waiveFine], and keeps its amount
    under [payFine], which by design pays a waived fine it is called on. *)
Theorem terminal_fines_kept (rejects : DbWrite -> bool) (now : Z)
    (s : Store) (f : Fine) :
  NoDup (map fine_id (fines s)) ->
  In f (fines s) ->
  fine_status f <> pending ->
  (forall out s',
      FineService.generateFinesForOverdueBooks rejects now s = (out, s') ->
      Fine_findByPk (fine_id f) s' = Some f)
  /\ (forall librarian_id student_id book_id due_date notes resp s',
        IssuedBooksRoute.issue rejects now librarian_id student_id book_id
          due_date notes s = (resp, s') ->
        Fine_findByPk (fine_id f) s' = Some f)
  /\ (forall id notes out s',
        FineService.waiveFine rejects id notes s = (out, s') ->
        exists f',
          Fine_findByPk (fine_id f) s' = Some f'
          /\ fine_status f' = fine_status f
          /\ fine_amount f' = fine_amount f
          /\ (fine_status f = paid -> f' = f))
  /\ (forall id d out s',
        FineService.payFine rejects now id d s = (out, s') ->
        exists f',
          Fine_findByPk (fine_id f) s' = Some f'
          /\ fine_amount f' = fine_amount f
          /\ (fine_status f = paid -> f' = f)
          /\ (f' = f
              \/ (fine_status f = waived /\ id = fine_id f
                  /\ fine_status f' = paid)))
  /\ (fine_status f = paid ->
      (forall d, FineService.payFine rejects now (fine_id f) d s
                 = (Threw "Fine already paid", s))
      /\ (forall notes, FineService.waiveFine rejects (fine_id f) notes s
                        = (Threw "Cannot waive paid fine", s)))
  /\ (fine_status f = waived ->
      rejects (W_Fine_update (fine_id f)) = false ->
      forall d, exists f' s',
        FineService.payFine rejects now (fine_id f) d s = (Ok f', s')
        /\ Fine_findByPk (fine_id f) s' = Some f'
        /\ fine_status f' = paid
        /\ fine_amount f' = fine_amount f).
Proof.
  intros Hnd Hf Hterm.
  pose proof (Fine_findByPk_In s f Hnd Hf) as Hfind.
  split; [|split; [|split; [|split; [|split]]]].
  - intros out s' Hrun. rewrite generateFines_unfold in Hrun.
    destruct (sweep_loop_fines _ _ _ _ _ _ _ Hnd Hrun) as (Hnd' & Hin & _).
    apply Fine_findByPk_In; auto.
  - intros lib st bk due notes resp s' Hrun.
    apply issue_fines in Hrun. unfold Fine_findByPk in *. now rewrite Hrun.
  - intros id notes out s' Hrun.
    destruct (waiveFine_lookup _ _ _ _ _ _ f Hnd Hf Hrun)
      as [Hsame|(_ & Hnp & n & _ & Hlook)].
    + exists f. auto.
    + exists (Fine_set_waived n f). split; [exact Hlook|]. simpl.
      destruct (fine_status f); try contradiction; repeat split; congruence.
  - intros id d out s' Hrun.
    destruct (payFine_lookup _ _ _ _ _ _ _ f Hnd Hf Hrun)
      as [Hsame|(Hid & Hnp & _ & day & _ & Hlook)].
    + exists f. auto.
    + exists (Fine_set_paid day f). split; [exact Hlook|]. simpl.
      split; [reflexivity|]. split; [intros Hp; contradiction|].
      right. destruct (fine_status f); try contradiction; auto.
  - intros Hp. split; intros; [now apply payFine_paid|now apply waiveFine_paid].
  - intros Hw Hrej d.
    unfold FineService.payFine, bind, gets, throw. rewrite Hfind, Hw. simpl.
    destruct (Fine_update rejects f
                (Fine_set_paid
                   (to_dateonly match d with Some d0 => d0 | None => now end))
                s) as [out s'] eqn:Hrun.
    pose proof (fun Hu => Fine_update_lookup rejects _ _ _ _ _ f Hnd Hf Hu Hrun)
      as Hl.
    destruct (Hl (fun x => eq_refl)) as [(Hr & _)|(_ & -> & Hlook)];
      [congruence|].
    rewrite Z.eqb_refl in Hlook. eexists _, _. split; [reflexivity|].
    split; [exact Hlook|]. split; reflexivity.
Qed.

Lemma terminal_fines_kept_witness :
  (forall out s',
      FineService.generateFinesForOverdueBooks no_rejects
        (date_getTime day_2024_01_15) waived_store = (out, s') ->
      Fine_findByPk (fine_id waived_fine) s' = Some waived_fine)
  /\ (forall librarian_id student_id book_id due_date notes resp s',
        IssuedBooksRoute.issue no_rejects (date_getTime day_2024_01_15)
          librarian_id student_id book_id due_date notes waived_store
        = (resp, s') ->
        Fine_findByPk (fine_id waived_fine) s' = Some waived_fine)
  /\ (forall id notes out s',
        FineService.waiveFine no_rejects id notes waived_store = (out, s') ->
        exists f',
          Fine_findByPk (fine_id waived_fine) s' = Some f'
          /\ fine_status f' = fine_status waived_fine
          /\ fine_amount f' = fine_amount waived_fine
          /\ (fine_status waived_fine = paid -> f' = waived_fine))
  /\ (forall id d out s',
        FineService.payFine no_rejects (date_getTime day_2024_01_15) id d
          waived_store = (out, s') ->
        exists f',
          Fine_findByPk (fine_id waived_fine) s' = Some f'
          /\ fine_amount f' = fine_amount waived_fine
          /\ (fine_status waived_fine = paid -> f' = waived_fine)
          /\ (f' = waived_fine
              \/ (fine_status waived_fine = waived /\ id = fine_id waived_fine
                  /\ fine_status f' = paid)))
  /\ (fine_status waived_fine = paid ->
      (forall d, FineService.payFine no_rejects (date_getTime day_2024_01_15)
                   (fine_id waived_fine) d waived_store
                 = (Threw "Fine already paid", waived_store))
      /\ (forall notes, FineService.waiveFine no_rejects (fine_id waived_fine)
                          notes waived_store
                        = (Threw "Cannot waive paid fine", waived_store)))
  /\ (fine_status waived_fine = waived ->
      no_rejects (W_Fine_update (fine_id waived_fine)) = false ->
      forall d, exists f' s',
        FineService.payFine no_rejects (date_getTime day_2024_01_15)
          (fine_id waived_fine) d waived_store = (Ok f', s')
        /\ Fine_findByPk (fine_id waived_fine) s' = Some f'
        /\ fine_status f' = paid
        /\ fine_amount f' = fine_amount waived_fine).
Proof.
  apply (terminal_fines_kept no_rejects (date_getTime day_2024_01_15)
           waived_store waived_fine).
  - simpl. constructor; [intros []|constructor].
  - simpl. left. reflexivity.
  - simpl. discriminate.
Defined.

(** ** The return route *)

(** X20. What a return does when no write is rejected: the fine amount is the
    one [calculateFine] yields at the instant of the request, whatever the
    return date, provided the return date is after the due date; the loan
    ends returned with the return date given, and the book gets a copy
    back. *)
Lemma return_book_effects (rejects : DbWrite -> bool) (now id : Z)
    (return_date : option Z) (notes : option string) (s : Store)
    (loan : IssuedBook) :
  (forall w, rejects w = false) ->
  NoDup (map ib_id (issued_books s)) ->
  IssuedBook_findByPk id s = Some loan ->
  ib_status loan <> returned ->
  let returnDate := match return_date with Some d => d | None => now end in
  let fineAmount :=
    if returnDate >? date_getTime (ib_due_date loan)
    then match FineService.calculateFine now id s with
         | Some fd => fd_amount fd
         | None => 0
         end
    else 0 in
  exists s',
    IssuedBooksRoute.return_book rejects now id return_date notes s
    = (mkResponse 200 "Book returned successfully" (Some fineAmount), s')
    /\ IssuedBook_findByPk id s'
       = Some (IssuedBook_set_returned (to_dateonly returnDate) fineAmount
                 (notes_or notes (ib_notes loan)) loan)
    /\ books s'
       = map (fun b =>
                if book_id b =? ib_book_id loan
                then Book_set_available_copies (book_available_copies b + 1) b
                else b)
             (books s).
Proof.
  intros Hrej Hnd Hfind Hst returnDate fineAmount.
  pose proof (find_key_some ib_id _ _ _ Hfind) as [Hin Hid]. subst id.
  assert (Hrow : forall u : IssuedBook -> IssuedBook,
             (forall x, ib_id (u x) = ib_id x) ->
             find (fun b => ib_id b =? ib_id loan)
                  (map (fun b => if ib_id b =? ib_id loan then u b else b)
                       (issued_books s))
             = Some (u loan)).
  { intros u Hu.
    rewrite (find_key_map ib_id
               (fun b => if ib_id b =? ib_id loan then u b else b)); auto.
    - now rewrite Z.eqb_refl.
    - intros x. destruct (ib_id x =? ib_id loan); auto. }
  apply LoanStatus_eqb_neq in Hst.
  unfold IssuedBooksRoute.return_book, handler, IssuedBooksRoute.return_body,
    bind, gets, ret, Fine_update, Fine_create, IssuedBook_update,
    Book_increment_available_copies.
  rewrite Hfind, Hst. subst fineAmount returnDate.
  destruct (match return_date with Some d => d | None => now end
            >? date_getTime (ib_due_date loan)).
  - destruct (FineService.calculateFine now (ib_id loan) s) as [fd|].
    + destruct (Fine_findOne_of_loan (ib_id loan) s) as [ex|];
        rewrite !Hrej; eexists; (split; [reflexivity|]);
        (split; [|reflexivity]); unfold IssuedBook_findByPk; simpl;
        apply Hrow; reflexivity.
    + rewrite !Hrej. eexists. split; [reflexivity|].
      split; [|reflexivity]. unfold IssuedBook_findByPk. simpl.
      apply Hrow. reflexivity.
  - rewrite !Hrej. eexists. split; [reflexivity|].
    split; [|reflexivity]. unfold IssuedBook_findByPk. simpl.
    apply Hrow. reflexivity.
Qed.

(** X21. A return whose return date is not after the due date writes no fine,
    whenever the request is handled. *)
Lemma return_by_due_date_writes_no_fine (rejects : DbWrite -> bool)
    (now id : Z) (return_date : option Z) (notes : option string)
    (s : Store) (loan : IssuedBook) (resp : HttpResponse) (s' : Store) :
  IssuedBook_findByPk id s = Some loan ->
  match return_date with Some d => d | None => now end
  <= date_getTime (ib_due_date loan) ->
  IssuedBooksRoute.return_book rejects now id return_date notes s
  = (resp, s') ->
  fines s' = fines s.
Proof.
  intros Hfind Hdue.
  unfold IssuedBooksRoute.return_book, handler, IssuedBooksRoute.return_body,
    bind, gets, ret, IssuedBook_update, Book_increment_available_copies.
  rewrite Hfind.
  assert ((match return_date with Some d => d | None => now end
           >? date_getTime (ib_due_date loan)) = false) as ->
      by (rewrite Z.gtb_ltb; apply Z.ltb_ge; exact Hdue).
  destruct (LoanStatus_eqb (ib_status loan) returned);
    [intros H; inversion H; reflexivity|].
  destruct (rejects (W_IssuedBook_update (ib_id loan)));
    [intros H; inversion H; reflexivity|].
  destruct (rejects (W_Book_increment (ib_book_id loan)));
    intros H; inversion H; reflexivity.
Qed.

(** C7, at the failing input. The loan due 2024-01-10 is returned with
    [return_date] 2024-01-15 in a request handled on 2024-01-20, under the
    default policy: the loan ends returned with that return date and the
    book gets its copy back, but the fine created counts the days to the
    handling of the request, 10 days and 50.00, not the 5 days and 25.00 to
    the return date. *)
Theorem return_fine_counts_to_now :
  exists s',
    IssuedBooksRoute.return_book no_rejects (date_getTime (day_2024_01_15 + 5))
      1 (Some (date_getTime day_2024_01_15)) None scenario_store
    = (mkResponse 200 "Book returned successfully" (Some 5000), s')
    /\ IssuedBook_findByPk 1 s'
       = Some (IssuedBook_set_returned day_2024_01_15 5000 None scenario_loan)
    /\ books s' = [mkBook 7 3 3 true]
    /\ fines s'
       = [mkFine 1 1 42 5000 10 500 pending None None
                 (date_getTime (day_2024_01_15 + 5))].
Proof. eexists. repeat split. Qed.

(** The scenario of the specification holds when the request is handled at
    the return date itself, midnight of 2024-01-15: 5 days and 25.00. *)
Example return_scenario_at_return_date :
  exists s',
    IssuedBooksRoute.return_book no_rejects (date_getTime day_2024_01_15)
      1 (Some (date_getTime day_2024_01_15)) None scenario_store
    = (mkResponse 200 "Book returned successfully" (Some 2500), s')
    /\ IssuedBook_findByPk 1 s'
       = Some (IssuedBook_set_returned day_2024_01_15 2500 None scenario_loan)
    /\ books s' = [mkBook 7 3 3 true]
    /\ fines s'
       = [mkFine 1 1 42 2500 5 500 pending None None
                 (date_getTime day_2024_01_15)].
Proof. eexists. repeat split. Qed.

(** The fine upsert of the return route looks the fine up by loan alone: a
    fine already paid is found, recomputed and set back to pending. *)
Example return_reopens_paid_fine :
  Fine_findByPk 1 paid_store = Some paid_fine
  /\ fine_status paid_fine = paid /\ fine_amount paid_fine = 500
  /\ exists resp s' f',
       IssuedBooksRoute.return_book no_rejects (date_getTime day_2024_01_15)
         1 None None paid_store = (resp, s')
       /\ Fine_findByPk 1 s' = Some f'
       /\ fine_status f' = pending /\ fine_amount f' = 2500.
Proof.
  split; [reflexivity|]. split; [reflexivity|]. split; [reflexivity|].
  eexists _, _, _. repeat split.
Qed.

(** ** The issue route *)

(** The duplicate check on a loan with status issued: the route answers 400
    and writes nothing. *)
Lemma issue_rejects_issued_duplicate (rejects : DbWrite -> bool)
    (now librarian_id student_id book_id due_date : Z)
    (notes : option string) (s : Store) (student : Student) (book : Book)
    (loan : IssuedBook) :
  Student_findOne_active student_id s = Some student ->
  Book_findOne_active book_id s = Some book ->
  0 < book_available_copies book ->
  In loan (issued_books s) ->
  ib_student_id loan = student_id ->
  ib_book_id loan = book_id ->
  ib_status loan = issued ->
  IssuedBooksRoute.issue rejects now librarian_id student_id book_id due_date
    notes s
  = (mkResponse 400 "Student has already issued this book" None, s).
Proof.
  intros Hst Hbk Hcopies Hin Hs Hb Hissued.
  unfold IssuedBooksRoute.issue, handler, IssuedBooksRoute.issue_body,
    bind, gets, ret.
  rewrite Hst, Hbk.
  assert ((book_available_copies book <=? 0) = false) as ->
      by (apply Z.leb_gt; lia).
  destruct (IssuedBook_findOne_issued student_id book_id s) eqn:E;
    [reflexivity|].
  exfalso. apply (find_none _ _ E) in Hin.
  rewrite Hs, Hb, Hissued, !Z.eqb_refl in Hin. discriminate.
Qed.

(** C8, at the failing input. After the sweep the loan of student 42 for
    book 7 has status overdue; the duplicate check looks for status issued
    only, so a second issue of book 7 to student 42 is answered 201 and
    leaves two active loans of that student for that book. *)
Theorem issue_misses_overdue_duplicate :
  active_loans 42 7 swept_store
  = [IssuedBook_set_status overdue scenario_loan]
  /\ exists s',
       IssuedBooksRoute.issue no_rejects (date_getTime day_2024_01_15) 1
         42 7 (date_getTime (day_2024_01_15 + 14)) None swept_store
       = (mkResponse 201 "Book issued successfully" None, s')
       /\ active_loans 42 7 s'
          = [IssuedBook_set_status overdue scenario_loan;
             mkIssuedBook 2 42 7 1 day_2024_01_15 (day_2024_01_15 + 14)
                          None 0 issued None]
       /\ books s' = [mkBook 7 3 1 true].
Proof. split; [reflexivity|]. eexists. repeat split. Qed.

(** * Further properties of the fine service *)

(** ** calculateFine *)

(** X1. [calculateFine] returns nothing exactly when the loan does not exist,
    is returned, is not past its due date, or is past it by no more than
    the grace period of the current policy. *)
Theorem calculateFine_none_iff (now id : Z) (s : Store) :
  FineService.calculateFine now id s = None <->
  (IssuedBook_findByPk id s = None
   \/ exists loan,
        IssuedBook_findByPk id s = Some loan
        /\ (ib_status loan = returned
            \/ now <= date_getTime (ib_due_date loan)
            \/ now - date_getTime (ib_due_date loan)
               <= match FineConfig_findCurrent s with
                  | Some c => cfg_grace_period_days c
                  | None => 0
                  end * MS_PER_DAY)).
Proof.
  destruct (IssuedBook_findByPk id s) as [loan|] eqn:Hfind.
  2:{ unfold FineService.calculateFine. rewrite Hfind. tauto. }
  destruct (LoanStatus_eqb (ib_status loan) returned) eqn:Hst.
  { apply LoanStatus_eqb_eq in Hst.
    unfold FineService.calculateFine. rewrite Hfind, Hst. simpl.
    split; [|reflexivity]. intros _. right. exists loan. auto. }
  apply LoanStatus_eqb_neq in Hst.
  destruct (Z_le_gt_dec now (date_getTime (ib_due_date loan))) as [Hle|Hgt].
  { unfold FineService.calculateFine. rewrite Hfind.
    apply LoanStatus_eqb_neq in Hst. rewrite Hst.
    apply Z.leb_le in Hle. rewrite Hle.
    split; [|reflexivity]. intros _. right. exists loan.
    apply Z.leb_le in Hle. auto. }
  rewrite (calculateFine_unfold now id s loan Hfind Hst) by lia. cbv zeta.
  set (grace := match FineConfig_findCurrent s with
                | Some c => cfg_grace_period_days c | None => 0 end).
  set (raw := ceil_div (now - date_getTime (ib_due_date loan)) MS_PER_DAY).
  assert (Hraw : raw <= grace <->
                 now - date_getTime (ib_due_date loan) <= grace * MS_PER_DAY)
    by (apply ceil_div_le_iff, MS_PER_DAY_pos).
  destruct (Z.max 0 (raw - grace) =? 0) eqn:E.
  - apply Z.eqb_eq in E. split; [|reflexivity]. intros _. right. exists loan.
    split; [reflexivity|]. right. right. apply Hraw. lia.
  - apply Z.eqb_neq in E. split; [discriminate|].
    intros [H|(loan' & Hl & H)]; [discriminate|].
    inversion Hl; subst loan'. destruct H as [H|[H|H]];
      [contradiction|lia|].
    apply Hraw in H. lia.
Qed.

(** X2. A fine that [calculateFine] returns is for that loan and its
    student, counts at least one day, carries the rate of the current
    policy, never exceeds the cap when one is set, and is either days times
    rate or the cap that this product exceeds. *)
Theorem calculateFine_some_bounds (now id : Z) (s : Store) (fd : FineData) :
  FineService.calculateFine now id s = Some fd ->
  exists loan,
    IssuedBook_findByPk id s = Some loan
    /\ ib_status loan <> returned
    /\ date_getTime (ib_due_date loan) < now
    /\ fd_issued_book_id fd = id
    /\ fd_student_id fd = ib_student_id loan
    /\ 1 <= fd_days_overdue fd
    /\ fd_fine_rate_per_day fd
       = match FineConfig_findCurrent s with
         | Some c => cfg_fine_rate_per_day c
         | None => 500
         end
    /\ (forall c cap, FineConfig_findCurrent s = Some c ->
                      cfg_max_fine_amount c = Some cap ->
                      fd_amount fd <= cap)
    /\ (fd_amount fd = fd_days_overdue fd * fd_fine_rate_per_day fd
        \/ exists c,
             FineConfig_findCurrent s = Some c
             /\ cfg_max_fine_amount c = Some (fd_amount fd)
             /\ fd_amount fd < fd_days_overdue fd * fd_fine_rate_per_day fd).
Proof.
  intros Hcalc.
  destruct (IssuedBook_findByPk id s) as [loan|] eqn:Hfind.
  2:{ unfold FineService.calculateFine in Hcalc. rewrite Hfind in Hcalc.
      discriminate. }
  exists loan. split; [reflexivity|].
  assert (Hst : ib_status loan <> returned).
  { intros E. unfold FineService.calculateFine in Hcalc.
    rewrite Hfind, E in Hcalc. discriminate. }
  assert (Hdue : date_getTime (ib_due_date loan) < now).
  { destruct (Z_le_gt_dec now (date_getTime (ib_due_date loan))) as [H|H];
      [|lia].
    unfold FineService.calculateFine in Hcalc. rewrite Hfind in Hcalc.
    apply LoanStatus_eqb_neq in Hst. rewrite Hst in Hcalc.
    apply Z.leb_le in H. rewrite H in Hcalc. discriminate. }
  split; [exact Hst|]. split; [exact Hdue|].
  rewrite (calculateFine_unfold now id s loan Hfind Hst Hdue) in Hcalc.
  cbv zeta in Hcalc.
  match type of Hcalc with
  | (if ?c then _ else _) = _ => destruct c eqn:E; [discriminate|]
  end.
  apply Z.eqb_neq in E. inversion Hcalc; subst fd; clear Hcalc. simpl.
  split; [reflexivity|]. split; [reflexivity|]. split; [lia|].
  split; [reflexivity|].
  destruct (FineConfig_findCurrent s) as [c|]; simpl.
  - split.
    + intros c' cap Hc Hcap. inversion Hc; subst c'. rewrite Hcap. simpl.
      destruct (_ >? cap) eqn:G; [lia|]. rewrite Z.gtb_ltb in G.
      apply Z.ltb_ge in G. exact G.
    + destruct (cfg_max_fine_amount c) as [cap|] eqn:Hcap; simpl; [|now left].
      destruct (_ >? cap) eqn:G; [|now left].
      right. exists c. rewrite Z.gtb_ltb in G. apply Z.ltb_lt in G. auto.
  - split; [intros c cap Hc; discriminate|now left].
Qed.

Lemma calculateFine_some_bounds_witness :
  exists loan,
    IssuedBook_findByPk 1 scenario_store = Some loan
    /\ ib_status loan <> returned
    /\ date_getTime (ib_due_date loan) < date_getTime day_2024_01_15
    /\ fd_issued_book_id (mkFineData 1 42 2500 5 500) = 1
    /\ fd_student_id (mkFineData 1 42 2500 5 500) = ib_student_id loan
    /\ 1 <= fd_days_overdue (mkFineData 1 42 2500 5 500)
    /\ fd_fine_rate_per_day (mkFineData 1 42 2500 5 500)
       = match FineConfig_findCurrent scenario_store with
         | Some c => cfg_fine_rate_per_day c
         | None => 500
         end
    /\ (forall c cap, FineConfig_findCurrent scenario_store = Some c ->
                      cfg_max_fine_amount c = Some cap ->
                      fd_amount (mkFineData 1 42 2500 5 500) <= cap)
    /\ (fd_amount (mkFineData 1 42 2500 5 500)
        = fd_days_overdue (mkFineData 1 42 2500 5 500)
          * fd_fine_rate_per_day (mkFineData 1 42 2500 5 500)
        \/ exists c,
             FineConfig_findCurrent scenario_store = Some c
             /\ cfg_max_fine_amount c
                = Some (fd_amount (mkFineData 1 42 2500 5 500))
             /\ fd_amount (mkFineData 1 42 2500 5 500)
                < fd_days_overdue (mkFineData 1 42 2500 5 500)
                  * fd_fine_rate_per_day (mkFineData 1 42 2500 5 500)).
Proof.
  apply (calculateFine_some_bounds (date_getTime day_2024_01_15) 1
           scenario_store (mkFineData 1 42 2500 5 500)).
  reflexivity.
Defined.

Lemma calculateFine_some_loan (now id : Z) (s : Store) (fd : FineData) :
  FineService.calculateFine now id s = Some fd ->
  exists loan,
    IssuedBook_findByPk id s = Some loan
    /\ ib_status loan <> returned
    /\ date_getTime (ib_due_date loan) < now.
Proof.
  unfold FineService.calculateFine.
  destruct (IssuedBook_findByPk id s) as [loan|]; [|discriminate].
  destruct (LoanStatus_eqb (ib_status loan) returned) eqn:Hst;
    [discriminate|].
  destruct (now <=? date_getTime (ib_due_date loan)) eqn:Hdue;
    [discriminate|].
  intros _. exists loan. apply LoanStatus_eqb_neq in Hst.
  apply Z.leb_gt in Hdue. auto.
Qed.

Lemma capped_mono (cap : option Z) (a b : Z) :
  a <= b -> capped cap a <= capped cap b.
Proof.
  intros H. unfold capped. destruct cap as [m|]; [|exact H].
  destruct (a >? m) eqn:Ea, (b >? m) eqn:Eb;
    rewrite Z.gtb_ltb in Ea, Eb;
    try apply Z.ltb_lt in Ea; try apply Z.ltb_ge in Ea;
    try apply Z.ltb_lt in Eb; try apply Z.ltb_ge in Eb; lia.
Qed.

(** X3. Under a rate that is not negative the fine of a loan never shrinks
    as time passes: once [calculateFine] yields a fine, it yields one at
    every later instant, with at least as many days and at least the same
    amount, at the same rate. *)
Theorem calculateFine_monotone (now1 now2 id : Z) (s : Store) (fd1 : FineData) :
  now1 <= now2 ->
  (forall c, FineConfig_findCurrent s = Some c -> 0 <= cfg_fine_rate_per_day c) ->
  FineService.calculateFine now1 id s = Some fd1 ->
  exists fd2,
    FineService.calculateFine now2 id s = Some fd2
    /\ fd_days_overdue fd1 <= fd_days_overdue fd2
    /\ fd_amount fd1 <= fd_amount fd2
    /\ fd_fine_rate_per_day fd2 = fd_fine_rate_per_day fd1.
Proof.
  intros Hnow Hrate Hcalc.
  destruct (calculateFine_some_loan _ _ _ _ Hcalc)
    as (loan & Hfind & Hst & Hdue).
  rewrite (calculateFine_unfold now1 id s loan Hfind Hst Hdue) in Hcalc.
  rewrite (calculateFine_unfold now2 id s loan Hfind Hst) by lia.
  cbv zeta in *.
  set (rate := match FineConfig_findCurrent s with
               | Some c => cfg_fine_rate_per_day c | None => 500 end) in *.
  set (grace := match FineConfig_findCurrent s with
                | Some c => cfg_grace_period_days c | None => 0 end) in *.
  set (cap := match FineConfig_findCurrent s with
              | Some c => cfg_max_fine_amount c | None => None end) in *.
  assert (Hr : 0 <= rate).
  { unfold rate. destruct (FineConfig_findCurrent s) as [c|]; [|lia].
    now apply Hrate. }
  pose proof (ceil_div_mono (now1 - date_getTime (ib_due_date loan))
                (now2 - date_getTime (ib_due_date loan)) MS_PER_DAY
                MS_PER_DAY_pos ltac:(lia)) as Hceil.
  set (d1 := Z.max 0 (ceil_div (now1 - date_getTime (ib_due_date loan))
                        MS_PER_DAY - grace)) in *.
  set (d2 := Z.max 0 (ceil_div (now2 - date_getTime (ib_due_date loan))
                        MS_PER_DAY - grace)) in *.
  assert (Hd : d1 <= d2) by (unfold d1, d2; lia).
  destruct (d1 =? 0) eqn:E1; [discriminate|]. apply Z.eqb_neq in E1.
  inversion Hcalc; subst fd1; clear Hcalc. simpl.
  assert ((d2 =? 0) = false) as -> by (apply Z.eqb_neq; unfold d1 in *; lia).
  eexists. split; [reflexivity|]. simpl.
  split; [exact Hd|]. split; [|reflexivity].
  apply capped_mono. nia.
Qed.

Lemma calculateFine_monotone_witness :
  exists fd2,
    FineService.calculateFine (date_getTime (day_2024_01_15 + 5)) 1
      scenario_store = Some fd2
    /\ fd_days_overdue (mkFineData 1 42 2500 5 500) <= fd_days_overdue fd2
    /\ fd_amount (mkFineData 1 42 2500 5 500) <= fd_amount fd2
    /\ fd_fine_rate_per_day fd2
       = fd_fine_rate_per_day (mkFineData 1 42 2500 5 500).
Proof.
  apply (calculateFine_monotone (date_getTime day_2024_01_15)
           (date_getTime (day_2024_01_15 + 5)) 1 scenario_store
           (mkFineData 1 42 2500 5 500)).
  - discriminate.
  - intros c Hc. discriminate Hc.
  - reflexivity.
Defined.

(** ** getStudentFines *)

Lemma insert_created_desc_perm (f : Fine) (l : list Fine) :
  Permutation (FineService.insert_created_desc f l) (f :: l).
Proof.
  induction l as [|g rest IH]; simpl; [reflexivity|].
  destruct (fine_created_at g <=? fine_created_at f); [reflexivity|].
  rewrite IH. apply perm_swap.
Qed.

Lemma insert_created_desc_sorted (f : Fine) (l : list Fine) :
  StronglySorted (fun a b => fine_created_at b <= fine_created_at a) l ->
  StronglySorted (fun a b => fine_created_at b <= fine_created_at a)
                 (FineService.insert_created_desc f l).
Proof.
  induction l as [|g rest IH]; simpl; intros Hs.
  - constructor; constructor.
  - inversion Hs as [|? ? Hrest Hall]; subst.
    destruct (fine_created_at g <=? fine_created_at f) eqn:E.
    + apply Z.leb_le in E. constructor; [exact Hs|].
      constructor; [exact E|].
      rewrite Forall_forall in *. intros x Hx. specialize (Hall x Hx). lia.
    + apply Z.leb_gt in E. constructor; [now apply IH|].
      rewrite Forall_forall in *. intros x Hx.
      apply (Permutation_in _ (insert_created_desc_perm f rest)) in Hx.
      destruct Hx as [<-|Hx]; [lia|now apply Hall].
Qed.

(** X4. [getStudentFines] returns the student's fines of the status asked
    for (pending when none is given), each exactly once, newest first. *)
Theorem getStudentFines_sorted (studentId : Z) (status : option FineStatus)
    (s : Store) :
  Permutation
    (FineService.getStudentFines studentId status s)
    (filter (fun f => (fine_student_id f =? studentId)
                      && FineStatus_eqb (fine_status f)
                           (match status with Some st => st | None => pending end))
            (fines s))
  /\ StronglySorted (fun a b => fine_created_at b <= fine_created_at a)
       (FineService.getStudentFines studentId status s).
Proof.
  unfold FineService.getStudentFines.
  set (l := filter _ (fines s)). clearbody l.
  unfold FineService.order_created_desc.
  induction l as [|f rest [IHp IHs]]; simpl.
  - split; constructor.
  - split.
    + rewrite insert_created_desc_perm. now constructor.
    + now apply insert_created_desc_sorted.
Qed.

(** ** payFine and waiveFine, further *)

(** X5. [payFine] on a fine that is not yet paid, when the write is
    accepted, returns and stores that fine with status paid and the day of
    the date given (today when none is) as paid date, its other columns as
    they were; no fine is added or removed and every other fine is left as
    it is. *)
Theorem payFine_pays (rejects : DbWrite -> bool) (now id : Z)
    (paidDate : option Z) (s : Store) (f : Fine) :
  NoDup (map fine_id (fines s)) ->
  Fine_findByPk id s = Some f ->
  fine_status f <> paid ->
  rejects (W_Fine_update id) = false ->
  exists s',
    FineService.payFine rejects now id paidDate s
    = (Ok (Fine_set_paid
             (to_dateonly (match paidDate with Some d => d | None => now end))
             f), s')
    /\ Fine_findByPk id s'
       = Some (Fine_set_paid
                 (to_dateonly (match paidDate with Some d => d | None => now end))
                 f)
    /\ map fine_id (fines s') = map fine_id (fines s)
    /\ (forall g, In g (fines s) -> fine_id g <> id ->
                  Fine_findByPk (fine_id g) s' = Some g)
    /\ issued_books s' = issued_books s
    /\ books s' = books s.
Proof.
  intros Hnd Hfind Hst Hrej.
  pose proof (find_key_some fine_id _ _ _ Hfind) as [Hin Hid]. subst id.
  unfold FineService.payFine, bind, gets, throw. rewrite Hfind.
  assert (FineStatus_eqb (fine_status f) paid = false) as ->
      by (destruct (fine_status f); try reflexivity; contradiction).
  unfold Fine_update. rewrite Hrej. eexists. split; [reflexivity|].
  set (u := fun x : Fine =>
              if fine_id x =? fine_id f
              then Fine_set_paid
                     (to_dateonly match paidDate with Some d => d | None => now end)
                     x
              else x).
  assert (Hu : forall x, fine_id (u x) = fine_id x)
    by (intros x; unfold u; destruct (fine_id x =? fine_id f); reflexivity).
  simpl. split; [|split; [|split; [|split; reflexivity]]].
  - unfold Fine_findByPk. simpl.
    rewrite (find_key_map fine_id u (fines s) f Hu Hnd Hin).
    unfold u. now rewrite Z.eqb_refl.
  - now apply map_key_map.
  - intros g Hg Hne. unfold Fine_findByPk. simpl.
    rewrite (find_key_map fine_id u (fines s) g Hu Hnd Hg).
    unfold u. apply Z.eqb_neq in Hne. now rewrite Hne.
Qed.

Lemma payFine_pays_witness :
  exists s',
    FineService.payFine no_rejects (date_getTime day_2024_01_15) 1 None
      swept_store
    = (Ok (Fine_set_paid
             (to_dateonly (date_getTime day_2024_01_15)) first_fine), s')
    /\ Fine_findByPk 1 s'
       = Some (Fine_set_paid
                 (to_dateonly (date_getTime day_2024_01_15)) first_fine)
    /\ map fine_id (fines s') = map fine_id (fines swept_store)
    /\ (forall g, In g (fines swept_store) -> fine_id g <> 1 ->
                  Fine_findByPk (fine_id g) s' = Some g)
    /\ issued_books s' = issued_books swept_store
    /\ books s' = books swept_store.
Proof.
  apply (payFine_pays no_rejects (date_getTime day_2024_01_15) 1 None
           swept_store first_fine).
  - simpl. constructor; [intros []|constructor].
  - reflexivity.
  - discriminate.
  - reflexivity.
Defined.



(** X7. A [payFine] or [waiveFine] that fails writes nothing, and fails for
    one of three reasons: the fine does not exist, the fine is already
    paid, or the persistence layer rejected the update. *)
Theorem pay_waive_failure_writes_nothing (rejects : DbWrite -> bool)
    (now id : Z) (paidDate : option Z) (notes : option string) (s : Store) :
  (forall e s',
      FineService.payFine rejects now id paidDate s = (Threw e, s') ->
      s' = s
      /\ ((e = "Fine not found"%string /\ Fine_findByPk id s = None)
          \/ (e = "Fine already paid"%string
              /\ exists f, Fine_findByPk id s = Some f /\ fine_status f = paid)
          \/ (e = db_error /\ rejects (W_Fine_update id) = true)))
  /\ (forall e s',
        FineService.waiveFine rejects id notes s = (Threw e, s') ->
        s' = s
        /\ ((e = "Fine not found"%string /\ Fine_findByPk id s = None)
            \/ (e = "Cannot waive paid fine"%string
                /\ exists f, Fine_findByPk id s = Some f /\ fine_status f = paid)
            \/ (e = db_error /\ rejects (W_Fine_update id) = true))).
Proof.
  split; intros e s';
    unfold FineService.payFine, FineService.waiveFine, bind, gets, throw,
      Fine_update;
    (destruct (Fine_findByPk id s) as [f|] eqn:Hfind;
     [|intros H; inversion H; subst; auto]);
    pose proof (find_key_some fine_id _ _ _ Hfind) as [_ Hid]; subst id;
    (destruct (FineStatus_eqb (fine_status f) paid) eqn:Hst;
     [apply FineStatus_eqb_eq in Hst; intros H; inversion H; subst;
      split; [reflexivity|]; right; left; eauto|]);
    (destruct (rejects (W_Fine_update (fine_id f))) eqn:Hrej;
     intros H; inversion H; subst; auto).
Qed.

Lemma pay_waive_failure_writes_nothing_witness :
  FineService.payFine no_rejects (date_getTime day_2024_01_15) 1 None
    paid_store = (Threw "Fine already paid", paid_store)
  /\ FineService.waiveFine no_rejects 1 None paid_store
     = (Threw "Cannot waive paid fine", paid_store)
  /\ exists f, Fine_findByPk 1 paid_store = Some f /\ fine_status f = paid.
Proof.
  assert (Hp : FineService.payFine no_rejects (date_getTime day_2024_01_15) 1
                 None paid_store = (Threw "Fine already paid", paid_store))
    by reflexivity.
  assert (Hw : FineService.waiveFine no_rejects 1 None paid_store
               = (Threw "Cannot waive paid fine", paid_store))
    by reflexivity.
  split; [exact Hp|split; [exact Hw|]].
  destruct (pay_waive_failure_writes_nothing no_rejects
              (date_getTime day_2024_01_15) 1 None None paid_store) as [P _].
  destruct (P _ _ Hp) as [_ [[E _]|[[_ H]|[E _]]]].
  - discriminate E.
  - exact H.
  - discriminate E.
Defined.

(** ** generateFinesForOverdueBooks, further *)

Lemma sweep_loop_rows_any (rejects : DbWrite -> bool) (now : Z)
    (l : list IssuedBook) (r : list FineService.SweepResult) (s : Store)
    (out : Outcome (list FineService.SweepResult)) (s' : Store) :
  FineService.sweep_loop rejects now l r s = (out, s') ->
  exists l',
    (forall h, In h l' -> In h l)
    /\ issued_books s'
       = map (fun b => if fined_among now s l' b
                       then IssuedBook_set_status overdue b else b)
             (issued_books s).
Proof.
  intros Hrun. destruct out as [r'|e].
  - exists l. split; [auto|]. apply (sweep_loop_rows _ _ _ _ _ _ _ Hrun).
  - destruct (sweep_loop_threw _ _ _ _ _ _ _ Hrun)
      as (pre & b & post & r1 & s1 & -> & Hpre & Hb).
    exists pre. split; [intros h Hh; apply in_or_app; now left|].
    destruct (sweep_body_loans _ _ _ _ _ _ _ Hb) as (_ & _ & _ & _ & Hrows & _).
    rewrite Hrows. apply (sweep_loop_rows _ _ _ _ _ _ _ Hpre).
Qed.

(** X8. Whatever its outcome, the sweep leaves books, students and fine
    configurations alone and keeps every loan row in place; the only change
    it makes to a loan is to move one that is issued and past its due date
    to overdue. It never touches a returned, lost or overdue loan. *)
Theorem sweep_only_marks_issued_overdue (rejects : DbWrite -> bool) (now : Z)
    (s : Store) (out : Outcome (list FineService.SweepResult)) (s' : Store) :
  NoDup (map ib_id (issued_books s)) ->
  FineService.generateFinesForOverdueBooks rejects now s = (out, s') ->
  books s' = books s
  /\ students s' = students s
  /\ fine_configs s' = fine_configs s
  /\ map ib_id (issued_books s') = map ib_id (issued_books s)
  /\ (forall b, In b (issued_books s) ->
        IssuedBook_findByPk (ib_id b) s' = Some b
        \/ (ib_status b = issued
            /\ date_getTime (ib_due_date b) < now
            /\ IssuedBook_findByPk (ib_id b) s'
               = Some (IssuedBook_set_status overdue b))).
Proof.
  intros Hnd Hrun. rewrite generateFines_unfold in Hrun.
  destruct (sweep_loop_frame _ _ _ _ _ _ _ Hrun) as (_ & Hc & Hb & Hst).
  destruct (sweep_loop_rows_any _ _ _ _ _ _ _ Hrun) as (l' & Hsub & Hrows).
  split; [exact Hb|]. split; [exact Hst|]. split; [exact Hc|].
  set (g := fun b => if fined_among now s l' b
                     then IssuedBook_set_status overdue b else b) in *.
  assert (Hg : forall x, ib_id (g x) = ib_id x)
    by (intros x; unfold g; destruct (fined_among now s l' x); reflexivity).
  split; [rewrite Hrows; now apply map_key_map|].
  intros b Hb'.
  assert (Hrow : IssuedBook_findByPk (ib_id b) s' = Some (g b)).
  { unfold IssuedBook_findByPk. rewrite Hrows.
    now apply (find_key_map ib_id). }
  rewrite Hrow. unfold g. destruct (fined_among now s l' b) eqn:Hf;
    [right|now left].
  unfold fined_among in Hf. apply existsb_exists in Hf.
  destruct Hf as (h & Hh & Hc'). apply andb_true_iff in Hc'.
  destruct Hc' as [Hid _]. apply Z.eqb_eq in Hid.
  apply Hsub in Hh. apply findAll_overdue_In in Hh.
  destruct Hh as (Hin & Hissued & Hdue). apply dateonly_lt_past in Hdue.
  assert (h = b) by (now apply (key_inj ib_id (issued_books s))). subst h.
  auto.
Qed.

Lemma sweep_only_marks_issued_overdue_witness :
  books swept_store = books scenario_store
  /\ students swept_store = students scenario_store
  /\ fine_configs swept_store = fine_configs scenario_store
  /\ map ib_id (issued_books swept_store)
     = map ib_id (issued_books scenario_store)
  /\ (forall b, In b (issued_books scenario_store) ->
        IssuedBook_findByPk (ib_id b) swept_store = Some b
        \/ (ib_status b = issued
            /\ date_getTime (ib_due_date b) < date_getTime (day_2024_01_10 + 1)
            /\ IssuedBook_findByPk (ib_id b) swept_store
               = Some (IssuedBook_set_status overdue b))).
Proof.
  apply (sweep_only_marks_issued_overdue no_rejects
           (date_getTime (day_2024_01_10 + 1)) scenario_store
           (Ok swept_report) swept_store).
  - simpl. constructor; [intros []|constructor].
  - reflexivity.
Defined.

(** X9. The sweep keeps the pending fine of a loan unique: when no loan
    has more than one pending fine before it, none has after it, whatever
    the outcome of the sweep. *)
Theorem sweep_keeps_pending_fine_unique (rejects : DbWrite -> bool) (now : Z)
    (s : Store) (out : Outcome (list FineService.SweepResult)) (s' : Store) :
  NoDup (map fine_id (fines s)) ->
  (forall k, (List.length (pending_fines_of_loan k s) <= 1)%nat) ->
  FineService.generateFinesForOverdueBooks rejects now s = (out, s') ->
  forall k, (List.length (pending_fines_of_loan k s') <= 1)%nat.
Proof.
  intros Hnd Hone Hrun k. rewrite generateFines_unfold in Hrun.
  pose proof (sweep_loop_pending _ _ _ _ _ _ _ k Hnd Hrun).
  specialize (Hone k). lia.
Qed.

Lemma sweep_keeps_pending_fine_unique_witness :
  NoDup (map fine_id (fines scenario_store))
  /\ forall k, (List.length (pending_fines_of_loan k swept_store) <= 1)%nat.
Proof.
  split; [simpl; constructor|].
  apply (sweep_keeps_pending_fine_unique no_rejects
           (date_getTime (day_2024_01_10 + 1)) scenario_store
           (Ok swept_report) swept_store).
  - simpl. constructor.
  - intros k. simpl. lia.
  - reflexivity.
Defined.

Section Rows.

Variable rejects : DbWrite -> bool.
Variable now : Z.

(** one iteration keeps every fine row in place, by key, and appends the
    row it creates *)
Lemma sweep_body_keys (book : IssuedBook) (r : list FineService.SweepResult)
    (s : Store) (out : Outcome (list FineService.SweepResult)) (s' : Store) :
  FineService.sweep_body rejects now book r s = (out, s') ->
  exists added,
    map fine_id (fines s') = map fine_id (fines s) ++ added
    /\ forall r', out = Ok r' ->
                  created_fine_ids r' = created_fine_ids r ++ added.
Proof.
  assert (Hupd : forall (ex : Fine) (fd : FineData),
             map fine_id
               (map (fun f => if fine_id f =? fine_id ex
                              then Fine_set_computed fd f else f) (fines s))
             = map fine_id (fines s)).
  { intros ex fd. apply map_key_map. intros x.
    destruct (fine_id x =? fine_id ex); reflexivity. }
  run_body.
  destruct (FineService.calculateFine now (ib_id book) s) as [fd|].
  2:{ intros H; inversion H; subst. exists []. rewrite !app_nil_r.
      split; [reflexivity|]. intros r' E. now inversion E. }
  destruct (FineService.Fine_findOne_pending (ib_id book) s) as [ex|].
  - destruct (rejects (W_Fine_update (fine_id ex))).
    { intros H; inversion H; subst. exists []. rewrite app_nil_r.
      split; [reflexivity|discriminate]. }
    destruct (rejects (W_IssuedBook_update (ib_id book)));
      intros H; inversion H; subst; exists [];
      cbn [fines set_fines set_issued_books]; rewrite Hupd, !app_nil_r;
      (split; [reflexivity|]); [discriminate|].
    intros r' E. inversion E; subst.
    unfold created_fine_ids, created_entries.
    rewrite filter_app. simpl. now rewrite app_nil_r.
  - destruct (rejects (W_Fine_create (fd_issued_book_id fd))).
    { intros H; inversion H; subst. exists []. rewrite app_nil_r.
      split; [reflexivity|discriminate]. }
    destruct (rejects (W_IssuedBook_update (ib_id book)));
      intros H; inversion H; subst;
      exists [next_id (map fine_id (fines s))];
      cbn [fines set_fines set_issued_books]; rewrite map_app;
      (split; [reflexivity|]); [discriminate|].
    intros r' E. inversion E; subst.
    unfold created_fine_ids, created_entries.
    rewrite filter_app, map_app. reflexivity.
Qed.

Lemma sweep_loop_keys (l : list IssuedBook) :
  forall r s out s',
    FineService.sweep_loop rejects now l r s = (out, s') ->
    exists added,
      map fine_id (fines s') = map fine_id (fines s) ++ added
      /\ forall r', out = Ok r' ->
                    created_fine_ids r' = created_fine_ids r ++ added.
Proof.
  induction l as [|h rest IH]; intros r s out s' Hrun.
  - inversion Hrun; subst. exists []. rewrite !app_nil_r.
    split; [reflexivity|]. intros r' E. now inversion E.
  - rewrite sweep_loop_cons in Hrun.
    destruct (FineService.sweep_body rejects now h r s) as [o1 s1] eqn:Eb.
    destruct (sweep_body_keys _ _ _ _ _ Eb) as (a1 & Hk1 & Hr1).
    destruct o1 as [r1|e].
    + destruct (IH _ _ _ _ Hrun) as (a2 & Hk2 & Hr2).
      exists (a1 ++ a2). rewrite Hk2, Hk1, app_assoc.
      split; [reflexivity|]. intros r' E.
      rewrite (Hr2 r' E), (Hr1 r1 eq_refl), app_assoc. reflexivity.
    + inversion Hrun; subst. exists a1. split; [exact Hk1|discriminate].
Qed.

End Rows.

(** X10. The sweep never removes a fine row: whatever its outcome, the keys
    of the fine table after it are the keys before it, in place, followed by
    the keys of the rows it added. A sweep that completes added exactly the
    fines of the entries of its report with action created, and its report
    lists, in order, the selected loans (status issued, due date a day
    before today) that [calculateFine] yields a fine for. *)
Theorem sweep_adds_created_rows (rejects : DbWrite -> bool) (now : Z)
    (s : Store) (out : Outcome (list FineService.SweepResult)) (s' : Store) :
  FineService.generateFinesForOverdueBooks rejects now s = (out, s') ->
  (exists added, map fine_id (fines s') = map fine_id (fines s) ++ added)
  /\ forall report,
       out = Ok report ->
       map fine_id (fines s')
       = map fine_id (fines s) ++ created_fine_ids report
       /\ List.length (fines s')
          = (List.length (fines s) + List.length (created_entries report))%nat
       /\ map FineService.sr_issued_book_id report
          = map ib_id
              (filter (fun b => LoanStatus_eqb (ib_status b) issued
                                && (ib_due_date b <? to_dateonly now)
                                && has_fine now s b)
                      (issued_books s)).
Proof.
  intros Hrun. rewrite generateFines_unfold in Hrun.
  destruct (sweep_loop_keys _ _ _ _ _ _ _ Hrun) as (added & Hkeys & Hcreated).
  split; [exists added; exact Hkeys|]. intros report ->.
  specialize (Hcreated report eq_refl). simpl in Hcreated. subst added.
  split; [exact Hkeys|]. split.
  - rewrite <- (length_map fine_id (fines s')), Hkeys, length_app, !length_map.
    unfold created_fine_ids. now rewrite length_map.
  - destruct (sweep_loop_rows _ _ _ _ _ _ _ Hrun) as [_ Hrep].
    simpl in Hrep. rewrite Hrep.
    unfold FineService.IssuedBook_findAll_overdue.
    now rewrite filter_filter_andb.
Qed.

Lemma sweep_adds_created_rows_witness :
  (exists added,
      map fine_id (fines swept_store)
      = map fine_id (fines scenario_store) ++ added)
  /\ forall report,
       Ok swept_report = Ok report ->
       map fine_id (fines swept_store)
       = map fine_id (fines scenario_store) ++ created_fine_ids report
       /\ List.length (fines swept_store)
          = (List.length (fines scenario_store)
             + List.length (created_entries report))%nat
       /\ map FineService.sr_issued_book_id report
          = map ib_id
              (filter (fun b =>
                         LoanStatus_eqb (ib_status b) issued
                         && (ib_due_date b
                             <? to_dateonly (date_getTime (day_2024_01_10 + 1)))
                         && has_fine (date_getTime (day_2024_01_10 + 1))
                                     scenario_store b)
                      (issued_books scenario_store)).
Proof.
  apply (sweep_adds_created_rows no_rejects
           (date_getTime (day_2024_01_10 + 1)) scenario_store
           (Ok swept_report) swept_store).
  reflexivity.
Defined.

Lemma sweep_skips_loans_not_issued_witness :
  fines_of_loan 1 swept_store = fines_of_loan 1 swept_store.
Proof.
  apply (sweep_skips_loans_not_issued no_rejects
           (date_getTime (day_2024_01_10 + 3)) swept_store (Ok []) swept_store
           (IssuedBook_set_status overdue scenario_loan)).
  - simpl. constructor; [intros []|constructor].
  - simpl. constructor; [intros []|constructor].
  - simpl. left. reflexivity.
  - discriminate.
  - reflexivity.
Defined.

(** * Further properties of the issue and return routes *)

Lemma authorizeRoles_librarian (req : Requester) :
  authorizeRoles ["librarian"%string] req
  = if String.eqb (req_userRole req) "librarian"
    then None
    else Some (403, "Access denied. Insufficient permissions."%string).
Proof.
  unfold authorizeRoles. simpl. rewrite orb_false_r.
  destruct (String.eqb (req_userRole req) "librarian"); reflexivity.
Qed.

Ltac run_issue :=
  unfold IssuedBooksRoute.issue, handler, IssuedBooksRoute.issue_body,
    bind, gets, ret, IssuedBook_create, Book_update.

(** X12. An issue request that is answered 400 writes nothing: the store is
    as it was, whichever check refused it. *)
Theorem issue_refusal_writes_nothing (rejects : DbWrite -> bool)
    (now librarian_id student_id book_id due_date : Z)
    (notes : option string) (s : Store) (resp : HttpResponse) (s' : Store) :
  IssuedBooksRoute.issue rejects now librarian_id student_id book_id due_date
    notes s = (resp, s') ->
  http_status resp = 400 ->
  s' = s.
Proof.
  run_issue.
  repeat match goal with
         | |- context [match ?c with _ => _ end] =>
             lazymatch c with
             | context [match _ with _ => _ end] => fail
             | _ => destruct c
             end
         end;
    intros H; inversion H; subst; simpl; intros E;
    try reflexivity; discriminate E.
Qed.

Lemma issue_refusal_writes_nothing_witness : swept_store = swept_store.
Proof.
  apply (issue_refusal_writes_nothing no_rejects (date_getTime day_2024_01_15)
           1 42 9 (date_getTime (day_2024_01_15 + 14)) None swept_store
           (mkResponse 400 "Book not found or inactive" None) swept_store).
  - reflexivity.
  - reflexivity.
Defined.

(** the checks of the issue route past its validation, when no write is
    rejected *)
Lemma issue_201_checks (rejects : DbWrite -> bool)
    (now librarian_id student_id book_id due_date : Z)
    (notes : option string) (s : Store) :
  (forall w, rejects w = false) ->
  (http_status
     (fst (IssuedBooksRoute.issue rejects now librarian_id student_id book_id
             due_date notes s)) = 201
   <->
   exists student book,
     Student_findOne_active student_id s = Some student
     /\ Book_findOne_active book_id s = Some book
     /\ 0 < book_available_copies book
     /\ IssuedBook_findOne_issued student_id book_id s = None
     /\ IssuedBook_count_issued student_id s < stu_max_books_allowed student).
Proof.
  intros Hrej. run_issue.
  destruct (Student_findOne_active student_id s) as [student|];
    [|simpl; split; [discriminate|intros (? & ? & H & _); discriminate H]].
  destruct (Book_findOne_active book_id s) as [book|];
    [|simpl; split; [discriminate|intros (? & ? & _ & H & _); discriminate H]].
  destruct (book_available_copies book <=? 0) eqn:Hc.
  { apply Z.leb_le in Hc. simpl. split; [discriminate|].
    intros (st & bk & E1 & E2 & H & _). inversion E2; subst. lia. }
  apply Z.leb_gt in Hc.
  destruct (IssuedBook_findOne_issued student_id book_id s) as [dup|].
  { simpl. split; [discriminate|].
    intros (? & ? & _ & _ & _ & H & _). discriminate H. }
  destruct (IssuedBook_count_issued student_id s
            >=? stu_max_books_allowed student) eqn:Hl.
  { simpl. split; [discriminate|].
    intros (st & bk & E1 & _ & _ & _ & H). inversion E1; subst.
    rewrite Z.geb_leb in Hl. apply Z.leb_le in Hl. lia. }
  rewrite !Hrej. simpl. split; [|reflexivity]. intros _.
  exists student, book. rewrite Z.geb_leb in Hl. apply Z.leb_gt in Hl. auto.
Qed.

(** the issue handler, its validation included, when no write is rejected *)
Lemma issue_request_201 (rejects : DbWrite -> bool) (now librarian_id : Z)
    (student_id book_id due_date : Field Z) (notes : option string)
    (s : Store) :
  (forall w, rejects w = false) ->
  (http_status
     (fst (IssuedBooksRoute.issue_request rejects now librarian_id student_id
             book_id due_date notes s)) = 201
   <->
   exists sid bid due student book,
     student_id = Value sid /\ book_id = Value bid /\ due_date = Value due
     /\ 1 <= sid /\ 1 <= bid
     /\ Student_findOne_active sid s = Some student
     /\ Book_findOne_active bid s = Some book
     /\ 0 < book_available_copies book
     /\ IssuedBook_findOne_issued sid bid s = None
     /\ IssuedBook_count_issued sid s < stu_max_books_allowed student).
Proof.
  intros Hrej. unfold IssuedBooksRoute.issue_request.
  assert (Hinvalid :
            forall P : Prop, ~ P ->
              (http_status (mkResponse 400 "Validation failed" None) = 201
               <-> P)).
  { intros P HP. split; [discriminate|tauto]. }
  destruct student_id as [|sid|];
    try (apply Hinvalid; intros (? & ? & ? & ? & ? & H & _); discriminate H).
  destruct book_id as [|bid|];
    try (apply Hinvalid; intros (? & ? & ? & ? & ? & _ & H & _);
         discriminate H).
  destruct due_date as [|due|];
    try (apply Hinvalid; intros (? & ? & ? & ? & ? & _ & _ & H & _);
         discriminate H).
  destruct ((1 <=? sid) && (1 <=? bid)) eqn:Hvalid.
  - apply andb_true_iff in Hvalid. destruct Hvalid as [Hs Hb].
    apply Z.leb_le in Hs, Hb.
    rewrite (issue_201_checks rejects now librarian_id sid bid due notes s Hrej).
    split.
    + intros (student & book & H). exists sid, bid, due, student, book.
      repeat split; tauto.
    + intros (sid' & bid' & due' & student & book & E1 & E2 & E3 & _ & _ & H).
      inversion E1; inversion E2; subst. exists student, book. exact H.
  - apply Hinvalid.
    intros (sid' & bid' & due' & ? & ? & E1 & E2 & _ & Hs & Hb & _).
    inversion E1; inversion E2; subst.
    apply andb_false_iff in Hvalid.
    destruct Hvalid as [H|H]; apply Z.leb_gt in H; lia.
Qed.

(** X13. When no write is rejected, [POST /api/issued-books/issue] is
    answered 201 exactly when the requester is a librarian, the request
    passes validation ([student_id] and [book_id] integers of at least 1,
    [due_date] an ISO 8601 date), the student exists and is active, the
    book exists, is active and has a copy available, the student has no
    loan of that book with status issued, and the student has fewer loans
    with status issued than [max_books_allowed]. *)
Theorem issue_201_iff (rejects : DbWrite -> bool) (now : Z) (req : Requester)
    (student_id book_id due_date : Field Z) (notes : option string)
    (s : Store) :
  (forall w, rejects w = false) ->
  (http_status
     (fst (IssuedBooksApi.post_issue rejects now req student_id book_id
             due_date notes s)) = 201
   <->
   req_userRole req = "librarian"%string
   /\ exists sid bid due student book,
        student_id = Value sid /\ book_id = Value bid /\ due_date = Value due
        /\ 1 <= sid /\ 1 <= bid
        /\ Student_findOne_active sid s = Some student
        /\ Book_findOne_active bid s = Some book
        /\ 0 < book_available_copies book
        /\ IssuedBook_findOne_issued sid bid s = None
        /\ IssuedBook_count_issued sid s < stu_max_books_allowed student).
Proof.
  intros Hrej. unfold IssuedBooksApi.post_issue.
  rewrite authorizeRoles_librarian.
  destruct (String.eqb (req_userRole req) "librarian") eqn:Hrole.
  - apply String.eqb_eq in Hrole.
    rewrite (issue_request_201 rejects now (req_user_id req) student_id
               book_id due_date notes s Hrej).
    tauto.
  - apply String.eqb_neq in Hrole. simpl. split; [discriminate|tauto].
Qed.

Lemma issue_201_iff_witness :
  http_status
    (fst (IssuedBooksApi.post_issue no_rejects (date_getTime day_2024_01_15)
            (mkRequester 1 "librarian") (Value 42) (Value 8)
            (Value (date_getTime (day_2024_01_15 + 14))) None
            two_loan_store)) = 201
  /\ http_status
       (fst (IssuedBooksApi.post_issue no_rejects
               (date_getTime day_2024_01_15) (mkRequester 1 "librarian")
               (Value 42) (Value 8) Malformed None two_loan_store)) = 400
  /\ http_status
       (fst (IssuedBooksApi.post_issue no_rejects
               (date_getTime day_2024_01_15) (mkRequester 42 "student")
               (Value 42) (Value 8)
               (Value (date_getTime (day_2024_01_15 + 14))) None
               two_loan_store)) = 403.
Proof.
  split; [|split; reflexivity].
  apply (issue_201_iff no_rejects (date_getTime day_2024_01_15)
           (mkRequester 1 "librarian") (Value 42) (Value 8)
           (Value (date_getTime (day_2024_01_15 + 14))) None
           two_loan_store); [reflexivity|].
  split; [reflexivity|].
  exists 42, 8, (date_getTime (day_2024_01_15 + 14)), (mkStudent 42 true 3),
    (mkBook 8 2 1 true).
  repeat split; try reflexivity; discriminate.
Defined.

Lemma find_app_fresh {A : Type} (key : A -> Z) (l : list A) (x : A) :
  ~ In (key x) (map key l) ->
  find (fun y => key y =? key x) (l ++ [x]) = Some x.
Proof.
  intros Hfresh.
  rewrite find_app_none.
  - now rewrite Z.eqb_refl.
  - destruct (find (fun y => key y =? key x) l) as [y|] eqn:E; [|reflexivity].
    exfalso. apply find_key_some in E. destruct E as [Hy Hk].
    apply Hfresh. rewrite <- Hk. now apply in_map.
Qed.

(** X14. An issue request that passes the checks, with both writes
    accepted, is answered 201: one loan is appended with a fresh key,
    status issued, no return date and the due date given, and it can be
    looked up by that key; the copies of the book go down by one; loan keys
    stay unique and nothing else is written. *)
Theorem issue_success_effects (rejects : DbWrite -> bool)
    (now librarian sid bid due_date : Z)
    (notes : option string) (s : Store) (student : Student) (book : Book) :
  Student_findOne_active sid s = Some student ->
  Book_findOne_active bid s = Some book ->
  0 < book_available_copies book ->
  IssuedBook_findOne_issued sid bid s = None ->
  IssuedBook_count_issued sid s < stu_max_books_allowed student ->
  rejects (W_IssuedBook_create sid bid) = false ->
  rejects (W_Book_update (book_id book)) = false ->
  exists s',
    IssuedBooksRoute.issue rejects now librarian sid bid due_date notes s
    = (mkResponse 201 "Book issued successfully" None, s')
    /\ issued_books s'
       = issued_books s
         ++ [mkIssuedBook (next_id (map ib_id (issued_books s))) sid bid
               librarian (to_dateonly now) (to_dateonly due_date)
               None 0 issued notes]
    /\ IssuedBook_findByPk (next_id (map ib_id (issued_books s))) s'
       = Some (mkIssuedBook (next_id (map ib_id (issued_books s))) sid bid
                 librarian (to_dateonly now) (to_dateonly due_date)
                 None 0 issued notes)
    /\ (NoDup (map ib_id (issued_books s)) ->
        NoDup (map ib_id (issued_books s')))
    /\ books s'
       = map (fun b =>
                if book_id b =? book_id book
                then Book_set_available_copies (book_available_copies book - 1) b
                else b)
             (books s)
    /\ fines s' = fines s
    /\ students s' = students s
    /\ fine_configs s' = fine_configs s.
Proof.
  intros Hst Hbk Hc Hdup Hlim Hr1 Hr2.
  assert (Hc' : (book_available_copies book <=? 0) = false)
    by (apply Z.leb_gt; lia).
  assert (Hlim' : (IssuedBook_count_issued sid s
                   >=? stu_max_books_allowed student) = false)
    by (rewrite Z.geb_leb; apply Z.leb_gt; lia).
  run_issue. cbv beta. rewrite Hst, Hbk, Hc', Hdup, Hlim', Hr1.
  cbn [issued_books set_issued_books books fines students fine_configs].
  rewrite Hr2.
  eexists. split; [reflexivity|]. cbn.
  split; [reflexivity|]. split; [|split; [|repeat split]].
  - unfold IssuedBook_findByPk. cbn.
    apply (find_app_fresh ib_id (issued_books s)
             (mkIssuedBook (next_id (map ib_id (issued_books s))) sid bid
                librarian (to_dateonly now) (to_dateonly due_date)
                None 0 issued notes)).
    apply next_id_fresh.
  - intros Hnd. rewrite map_app. cbn. apply NoDup_snoc; [exact Hnd|].
    apply next_id_fresh.
Qed.

Lemma issue_success_effects_witness :
  exists s',
    IssuedBooksRoute.issue no_rejects (date_getTime day_2024_01_15) 1 42 8
      (date_getTime (day_2024_01_15 + 14)) None two_loan_store
    = (mkResponse 201 "Book issued successfully" None, s')
    /\ issued_books s'
       = issued_books two_loan_store
         ++ [mkIssuedBook (next_id (map ib_id (issued_books two_loan_store)))
               42 8 1 (to_dateonly (date_getTime day_2024_01_15))
               (to_dateonly (date_getTime (day_2024_01_15 + 14)))
               None 0 issued None]
    /\ IssuedBook_findByPk (next_id (map ib_id (issued_books two_loan_store))) s'
       = Some (mkIssuedBook
                 (next_id (map ib_id (issued_books two_loan_store)))
                 42 8 1 (to_dateonly (date_getTime day_2024_01_15))
                 (to_dateonly (date_getTime (day_2024_01_15 + 14)))
                 None 0 issued None)
    /\ (NoDup (map ib_id (issued_books two_loan_store)) ->
        NoDup (map ib_id (issued_books s')))
    /\ books s'
       = map (fun b =>
                if book_id b =? book_id (mkBook 8 2 1 true)
                then Book_set_available_copies
                       (book_available_copies (mkBook 8 2 1 true) - 1) b
                else b)
             (books two_loan_store)
    /\ fines s' = fines two_loan_store
    /\ students s' = students two_loan_store
    /\ fine_configs s' = fine_configs two_loan_store.
Proof.
  apply (issue_success_effects no_rejects (date_getTime day_2024_01_15) 1 42 8
           (date_getTime (day_2024_01_15 + 14)) None two_loan_store
           (mkStudent 42 true 3) (mkBook 8 2 1 true));
    reflexivity.
Defined.

(** X15. The issue route is not atomic: when it answers 500, either
    nothing was written (the creation of the loan was rejected), or the
    loan was created and the copies of the book were not taken (the update
    of the book was rejected). *)
Theorem issue_failure_is_partial (rejects : DbWrite -> bool)
    (now librarian sid bid due_date : Z)
    (notes : option string) (s : Store) (resp : HttpResponse) (s' : Store) :
  IssuedBooksRoute.issue rejects now librarian sid bid due_date notes s
  = (resp, s') ->
  http_status resp = 500 ->
  (s' = s /\ rejects (W_IssuedBook_create sid bid) = true)
  \/ (exists book,
        Book_findOne_active bid s = Some book
        /\ rejects (W_Book_update (book_id book)) = true
        /\ issued_books s'
           = issued_books s
             ++ [mkIssuedBook (next_id (map ib_id (issued_books s))) sid bid
                   librarian (to_dateonly now) (to_dateonly due_date)
                   None 0 issued notes]
        /\ books s' = books s
        /\ fines s' = fines s).
Proof.
  run_issue.
  destruct (Student_findOne_active sid s) as [student|];
    [|intros H; inversion H; subst; discriminate].
  destruct (Book_findOne_active bid s) as [book|];
    [|intros H; inversion H; subst; discriminate].
  destruct (book_available_copies book <=? 0);
    [intros H; inversion H; subst; discriminate|].
  destruct (IssuedBook_findOne_issued sid bid s);
    [intros H; inversion H; subst; discriminate|].
  destruct (IssuedBook_count_issued sid s >=? stu_max_books_allowed student);
    [intros H; inversion H; subst; discriminate|].
  destruct (rejects (W_IssuedBook_create sid bid)) eqn:Hr1;
    [intros H; inversion H; subst; auto|].
  cbn [issued_books set_issued_books books fines students fine_configs].
  destruct (rejects (W_Book_update (book_id book))) eqn:Hr2;
    intros H; inversion H; subst; [|discriminate].
  intros _. right. exists book. auto.
Qed.

Lemma issue_failure_is_partial_witness :
  (set_issued_books
     (issued_books two_loan_store
      ++ [mkIssuedBook 3 42 8 1 day_2024_01_15 (day_2024_01_15 + 14)
            None 0 issued None]) two_loan_store = two_loan_store
   /\ rejects_book_updates (W_IssuedBook_create 42 8) = true)
  \/ (exists book,
        Book_findOne_active 8 two_loan_store = Some book
        /\ rejects_book_updates (W_Book_update (book_id book)) = true
        /\ issued_books
             (set_issued_books
                (issued_books two_loan_store
                 ++ [mkIssuedBook 3 42 8 1 day_2024_01_15 (day_2024_01_15 + 14)
                       None 0 issued None]) two_loan_store)
           = issued_books two_loan_store
             ++ [mkIssuedBook (next_id (map ib_id (issued_books two_loan_store)))
                   42 8 1 (to_dateonly (date_getTime day_2024_01_15))
                   (to_dateonly (date_getTime (day_2024_01_15 + 14)))
                   None 0 issued None]
        /\ books
             (set_issued_books
                (issued_books two_loan_store
                 ++ [mkIssuedBook 3 42 8 1 day_2024_01_15 (day_2024_01_15 + 14)
                       None 0 issued None]) two_loan_store)
           = books two_loan_store
        /\ fines
             (set_issued_books
                (issued_books two_loan_store
                 ++ [mkIssuedBook 3 42 8 1 day_2024_01_15 (day_2024_01_15 + 14)
                       None 0 issued None]) two_loan_store)
           = fines two_loan_store).
Proof.
  apply (issue_failure_is_partial rejects_book_updates
           (date_getTime day_2024_01_15) 1 42 8
           (date_getTime (day_2024_01_15 + 14)) None two_loan_store
           (mkResponse 500 "Server error" None)).
  - reflexivity.
  - reflexivity.
Defined.

(** X16. The issue route never drives the copies of a book below zero:
    when no book has a negative [available_copies] before a request, none
    has after it, whatever the answer. *)
Theorem issue_keeps_copies_nonnegative (rejects : DbWrite -> bool)
    (now librarian sid bid due_date : Z)
    (notes : option string) (s : Store) (resp : HttpResponse) (s' : Store) :
  (forall b, In b (books s) -> 0 <= book_available_copies b) ->
  IssuedBooksRoute.issue rejects now librarian sid bid due_date notes s
  = (resp, s') ->
  forall b, In b (books s') -> 0 <= book_available_copies b.
Proof.
  intros Hinv. run_issue.
  destruct (Student_findOne_active sid s) as [student|];
    [|intros H; inversion H; subst; exact Hinv].
  destruct (Book_findOne_active bid s) as [book|];
    [|intros H; inversion H; subst; exact Hinv].
  destruct (book_available_copies book <=? 0) eqn:Hc;
    [intros H; inversion H; subst; exact Hinv|].
  apply Z.leb_gt in Hc.
  destruct (IssuedBook_findOne_issued sid bid s);
    [intros H; inversion H; subst; exact Hinv|].
  destruct (IssuedBook_count_issued sid s >=? stu_max_books_allowed student);
    [intros H; inversion H; subst; exact Hinv|].
  destruct (rejects (W_IssuedBook_create sid bid));
    [intros H; inversion H; subst; exact Hinv|].
  cbn [issued_books set_issued_books books fines students fine_configs].
  destruct (rejects (W_Book_update (book_id book)));
    intros H; inversion H; subst; cbn; [exact Hinv|].
  intros b Hb. apply in_map_iff in Hb. destruct Hb as (b0 & <- & Hb0).
  destruct (book_id b0 =? book_id book); [cbn; lia|now apply Hinv].
Qed.

Lemma issue_keeps_copies_nonnegative_witness :
  Forall (fun b => 0 <= book_available_copies b)
    (books (snd (IssuedBooksRoute.issue no_rejects
                   (date_getTime day_2024_01_15) 1 42 8
                   (date_getTime (day_2024_01_15 + 14)) None
                   two_loan_store))).
Proof.
  apply Forall_forall.
  apply (issue_keeps_copies_nonnegative no_rejects
           (date_getTime day_2024_01_15) 1 42 8
           (date_getTime (day_2024_01_15 + 14)) None two_loan_store
           (fst (IssuedBooksRoute.issue no_rejects
                   (date_getTime day_2024_01_15) 1 42 8
                   (date_getTime (day_2024_01_15 + 14)) None two_loan_store))).
  - simpl. intros b [<-|[<-|[]]]; simpl; lia.
  - reflexivity.
Defined.

Lemma issue_rejects_issued_duplicate_witness :
  IssuedBooksRoute.issue no_rejects (date_getTime day_2024_01_15) 1 42 7
    (date_getTime (day_2024_01_15 + 14)) None scenario_store
  = (mkResponse 400 "Student has already issued this book" None,
     scenario_store).
Proof.
  apply (issue_rejects_issued_duplicate no_rejects
           (date_getTime day_2024_01_15) 1 42 7
           (date_getTime (day_2024_01_15 + 14)) None scenario_store
           (mkStudent 42 true 3) (mkBook 7 3 2 true) scenario_loan).
  - reflexivity.
  - reflexivity.
  - reflexivity.
  - simpl. left. reflexivity.
  - reflexivity.
  - reflexivity.
  - reflexivity.
Defined.

(** ** The return route, further *)

Ltac run_return :=
  unfold IssuedBooksRoute.return_book, handler, IssuedBooksRoute.return_body,
    bind, gets, ret, Fine_update, Fine_create, IssuedBook_update,
    Book_increment_available_copies.

(** the store after a return that no write rejects *)
Lemma return_book_state (rejects : DbWrite -> bool) (now id : Z)
    (return_date : option Z) (notes : option string) (s : Store)
    (loan : IssuedBook) :
  (forall w, rejects w = false) ->
  IssuedBook_findByPk id s = Some loan ->
  ib_status loan <> returned ->
  let returnDate := match return_date with Some d => d | None => now end in
  let fineAmount := match return_fine now return_date loan s with
                    | Some fd => fd_amount fd
                    | None => 0
                    end in
  exists s',
    IssuedBooksRoute.return_book rejects now id return_date notes s
    = (mkResponse 200 "Book returned successfully" (Some fineAmount), s')
    /\ issued_books s'
       = map (fun b =>
                if ib_id b =? ib_id loan
                then IssuedBook_set_returned (to_dateonly returnDate)
                       fineAmount (notes_or notes (ib_notes loan)) b
                else b)
             (issued_books s)
    /\ books s'
       = map (fun b =>
                if book_id b =? ib_book_id loan
                then Book_set_available_copies (book_available_copies b + 1) b
                else b)
             (books s)
    /\ fines s'
       = match return_fine now return_date loan s with
         | None => fines s
         | Some fd =>
             match Fine_findOne_of_loan (ib_id loan) s with
             | Some ex =>
                 map (fun f =>
                        if fine_id f =? fine_id ex
                        then Fine_set_recomputed (fd_amount fd)
                               (fd_days_overdue fd) f
                        else f)
                     (fines s)
             | None =>
                 fines s
                 ++ [mkFine (next_id (map fine_id (fines s)))
                       (fd_issued_book_id fd) (fd_student_id fd)
                       (fd_amount fd) (fd_days_overdue fd)
                       (fd_fine_rate_per_day fd) pending None None now]
             end
         end
    /\ students s' = students s
    /\ fine_configs s' = fine_configs s.
Proof.
  intros Hrej Hfind Hst returnDate fineAmount.
  pose proof (find_key_some ib_id _ _ _ Hfind) as [_ Hid]. subst id.
  apply LoanStatus_eqb_neq in Hst.
  subst fineAmount returnDate. unfold return_fine.
  run_return. cbv beta. rewrite Hfind, Hst.
  destruct (match return_date with Some d => d | None => now end
            >? date_getTime (ib_due_date loan)).
  - destruct (FineService.calculateFine now (ib_id loan) s) as [fd|].
    + destruct (Fine_findOne_of_loan (ib_id loan) s) as [ex|];
        rewrite !Hrej; eexists; repeat split.
    + rewrite !Hrej. eexists. repeat split.
  - rewrite !Hrej. eexists. repeat split.
Qed.

(** X17. A loan is returned at most once: after a return that succeeded,
    every further return request for that loan is answered 400 'Book
    already returned' and writes nothing, whatever its arguments. *)
Theorem return_at_most_once (rejects : DbWrite -> bool) (now id : Z)
    (return_date : option Z) (notes : option string) (s : Store)
    (loan : IssuedBook) :
  (forall w, rejects w = false) ->
  NoDup (map ib_id (issued_books s)) ->
  IssuedBook_findByPk id s = Some loan ->
  ib_status loan <> returned ->
  exists resp s',
    IssuedBooksRoute.return_book rejects now id return_date notes s
    = (resp, s')
    /\ http_status resp = 200
    /\ forall rejects' now' return_date' notes',
         IssuedBooksRoute.return_book rejects' now' id return_date' notes' s'
         = (mkResponse 400 "Book already returned" None, s').
Proof.
  intros Hrej Hnd Hfind Hst.
  destruct (return_book_state rejects now id return_date notes s loan
              Hrej Hfind Hst) as (s' & Hrun & Hrows & _).
  cbv zeta in *. eexists _, s'. split; [exact Hrun|]. split; [reflexivity|].
  intros rejects' now' rd' notes'.
  pose proof (find_key_some ib_id _ _ _ Hfind) as [Hin Hid]. subst id.
  assert (Hfind' : exists loan',
             IssuedBook_findByPk (ib_id loan) s' = Some loan'
             /\ ib_status loan' = returned).
  { eexists. split.
    - unfold IssuedBook_findByPk. rewrite Hrows.
      apply (find_key_map ib_id); auto.
      intros x. destruct (ib_id x =? ib_id loan); reflexivity.
    - rewrite Z.eqb_refl. reflexivity. }
  destruct Hfind' as (loan' & Hf' & Hst').
  run_return. cbv beta. rewrite Hf', Hst'. reflexivity.
Qed.

Lemma return_at_most_once_witness :
  exists resp s',
    IssuedBooksRoute.return_book no_rejects (date_getTime day_2024_01_15) 1
      None None scenario_store = (resp, s')
    /\ http_status resp = 200
    /\ forall rejects' now' return_date' notes',
         IssuedBooksRoute.return_book rejects' now' 1 return_date' notes' s'
         = (mkResponse 400 "Book already returned" None, s').
Proof.
  apply (return_at_most_once no_rejects (date_getTime day_2024_01_15) 1
           None None scenario_store scenario_loan).
  - reflexivity.
  - simpl. constructor; [intros []|constructor].
  - reflexivity.
  - discriminate.
Defined.

(** the refusals of the return route past its validation *)
Lemma return_book_refusals (rejects : DbWrite -> bool)
    (now id : Z) (return_date : option Z) (notes : option string)
    (s : Store) (resp : HttpResponse) (s' : Store) :
  IssuedBooksRoute.return_book rejects now id return_date notes s
  = (resp, s') ->
  (http_status resp = 404 <-> IssuedBook_findByPk id s = None)
  /\ (http_status resp = 400 <->
      exists loan, IssuedBook_findByPk id s = Some loan
                   /\ ib_status loan = returned)
  /\ (http_status resp = 404 \/ http_status resp = 400 -> s' = s).
Proof.
  run_return. cbv beta.
  destruct (IssuedBook_findByPk id s) as [loan|].
  2:{ intros H; inversion H; subst. simpl. repeat split; auto;
      try discriminate. intros (? & E & _). discriminate E. }
  destruct (LoanStatus_eqb (ib_status loan) returned) eqn:Hst.
  { apply LoanStatus_eqb_eq in Hst. intros H; inversion H; subst. simpl.
    repeat split; auto; try discriminate. intros _. eauto. }
  apply LoanStatus_eqb_neq in Hst.
  assert (Hno : forall r : HttpResponse,
             http_status r = 200 \/ http_status r = 500 ->
             (http_status r = 404 <-> Some loan = None)
             /\ (http_status r = 400 <->
                 exists loan0, Some loan = Some loan0
                               /\ ib_status loan0 = returned)
             /\ (http_status r = 404 \/ http_status r = 400 -> s' = s)).
  { intros r Hr. split; [|split].
    - split; [intros E; destruct Hr; congruence|discriminate].
    - split; [intros E; destruct Hr; congruence|].
      intros (l0 & E & Hl0). inversion E; subst. contradiction.
    - intros [E|E]; destruct Hr; congruence. }
  repeat match goal with
         | |- context [match ?c with _ => _ end] =>
             lazymatch c with
             | context [match _ with _ => _ end] => fail
             | _ => destruct c
             end
         end;
    intros H; inversion H; subst; apply Hno; simpl; auto.
Qed.

(** the refusals of the return handler, its validation included *)
Lemma return_request_refusals (rejects : DbWrite -> bool)
    (now id : Z) (return_date : Field Z) (notes : option string)
    (s : Store) (resp : HttpResponse) (s' : Store) :
  IssuedBooksRoute.return_request rejects now id return_date notes s
  = (resp, s') ->
  (http_status resp = 404 <->
   return_date <> Malformed /\ IssuedBook_findByPk id s = None)
  /\ (http_status resp = 400 <->
      return_date = Malformed
      \/ exists loan, IssuedBook_findByPk id s = Some loan
                      /\ ib_status loan = returned)
  /\ (http_status resp = 404 \/ http_status resp = 400 -> s' = s).
Proof.
  unfold IssuedBooksRoute.return_request.
  destruct return_date as [|d|].
  - intros Hrun.
    destruct (return_book_refusals _ _ _ _ _ _ _ _ Hrun) as (H404 & H400 & Hs).
    split; [|split; [|exact Hs]].
    + rewrite H404. split; [intros H; split; [discriminate|exact H]|tauto].
    + rewrite H400. split; [tauto|]. intros [H|H]; [discriminate|exact H].
  - intros Hrun.
    destruct (return_book_refusals _ _ _ _ _ _ _ _ Hrun) as (H404 & H400 & Hs).
    split; [|split; [|exact Hs]].
    + rewrite H404. split; [intros H; split; [discriminate|exact H]|tauto].
    + rewrite H400. split; [tauto|]. intros [H|H]; [discriminate|exact H].
  - intros H. inversion H; subst. simpl. split; [|split].
    + split; [discriminate|]. intros [Hne _]. now contradiction Hne.
    + split; [now left|reflexivity].
    + reflexivity.
Qed.

(** the return handler answers 200, 400, 404 or 500 *)
Lemma return_request_statuses (rejects : DbWrite -> bool) (now id : Z)
    (return_date : Field Z) (notes : option string) (s : Store) :
  In (http_status
        (fst (IssuedBooksRoute.return_request rejects now id return_date
                notes s)))
     [200; 400; 404; 500].
Proof.
  unfold IssuedBooksRoute.return_request.
  destruct return_date as [|d|]; [| |simpl; tauto]; run_return; cbv beta;
    repeat match goal with
           | |- context [match ?c with _ => _ end] =>
               lazymatch c with
               | context [match _ with _ => _ end] => fail
               | _ => destruct c
               end
           end; simpl; tauto.
Qed.

(** X18. [PUT /api/issued-books/:id/return] is answered 403 exactly when
    the requester is not a librarian; for a librarian, 404 exactly when the
    request passes validation and the loan does not exist, and 400 exactly
    when the given [return_date] is not an ISO 8601 date or the loan is
    already returned. In all these cases nothing is written. *)
Theorem return_refusal_writes_nothing (rejects : DbWrite -> bool) (now : Z)
    (req : Requester) (id : Z) (return_date : Field Z)
    (notes : option string) (s : Store) (resp : HttpResponse) (s' : Store) :
  IssuedBooksApi.put_return rejects now req id return_date notes s
  = (resp, s') ->
  (http_status resp = 403 <-> req_userRole req <> "librarian"%string)
  /\ (http_status resp = 404 <->
      req_userRole req = "librarian"%string
      /\ return_date <> Malformed /\ IssuedBook_findByPk id s = None)
  /\ (http_status resp = 400 <->
      req_userRole req = "librarian"%string
      /\ (return_date = Malformed
          \/ exists loan, IssuedBook_findByPk id s = Some loan
                          /\ ib_status loan = returned))
  /\ (http_status resp = 403 \/ http_status resp = 404
      \/ http_status resp = 400 -> s' = s).
Proof.
  unfold IssuedBooksApi.put_return. rewrite authorizeRoles_librarian.
  destruct (String.eqb (req_userRole req) "librarian") eqn:Hrole.
  - apply String.eqb_eq in Hrole. intros Hrun.
    pose proof (return_request_statuses rejects now id return_date notes s)
      as Hst.
    rewrite Hrun in Hst. cbn [fst] in Hst.
    destruct (return_request_refusals _ _ _ _ _ _ _ _ Hrun)
      as (H404 & H400 & Hs).
    assert (Hno : http_status resp <> 403).
    { simpl in Hst. intros E. rewrite E in Hst.
      destruct Hst as [H|[H|[H|[H|[]]]]]; discriminate H. }
    split; [split; [intros E; contradiction|intros E; contradiction]|].
    split; [rewrite H404; tauto|]. split; [rewrite H400; tauto|].
    intros [E|E]; [contradiction|now apply Hs].
  - apply String.eqb_neq in Hrole. intros H; inversion H; subst. simpl.
    split; [split; [intros _; exact Hrole|reflexivity]|].
    split; [split; [discriminate|tauto]|].
    split; [split; [discriminate|tauto]|reflexivity].
Qed.

Lemma return_refusal_writes_nothing_witness :
  IssuedBooksApi.put_return no_rejects (date_getTime day_2024_01_15)
    (mkRequester 1 "librarian") 1 Malformed None scenario_store
  = (mkResponse 400 "Validation failed" None, scenario_store)
  /\ IssuedBooksApi.put_return no_rejects (date_getTime day_2024_01_15)
       (mkRequester 1 "librarian") 9 Absent None scenario_store
     = (mkResponse 404 "Issued book not found" None, scenario_store)
  /\ (req_userRole (mkRequester 1 "librarian") = "librarian"%string
      /\ Absent <> @Malformed Z
      /\ IssuedBook_findByPk 9 scenario_store = None).
Proof.
  split; [reflexivity|]. split; [reflexivity|].
  destruct (return_refusal_writes_nothing no_rejects
              (date_getTime day_2024_01_15) (mkRequester 1 "librarian") 9
              Absent None scenario_store
              (mkResponse 404 "Issued book not found" None) scenario_store
              eq_refl) as (_ & H404 & _).
  apply H404. reflexivity.
Defined.

Lemma fines_of_loan_nil (k : Z) (s : Store) :
  Fine_findOne_of_loan k s = None -> fines_of_loan k s = [].
Proof. apply find_none_filter_nil. Qed.

(** X19. The return route never gives a loan a second fine row: it updates
    the fine of the loan in place when there is one and creates one only
    when there is none, and it leaves the fines of every other loan as they
    are, whatever its answer. *)
Theorem return_never_duplicates_fine (rejects : DbWrite -> bool)
    (now id : Z) (return_date : option Z) (notes : option string)
    (s : Store) (resp : HttpResponse) (s' : Store) :
  NoDup (map fine_id (fines s)) ->
  IssuedBooksRoute.return_book rejects now id return_date notes s
  = (resp, s') ->
  (forall k, k <> id -> fines_of_loan k s' = fines_of_loan k s)
  /\ (List.length (fines_of_loan id s')
      <= Nat.max 1 (List.length (fines_of_loan id s)))%nat.
Proof.
  intros Hnd.
  assert (Hsame : (forall k, k <> id -> fines_of_loan k s = fines_of_loan k s)
                  /\ (List.length (fines_of_loan id s)
                      <= Nat.max 1 (List.length (fines_of_loan id s)))%nat)
    by (split; [reflexivity|lia]).
  assert (Hupd : forall ex amount days,
             Fine_findOne_of_loan id s = Some ex ->
             let fs := map (fun f => if fine_id f =? fine_id ex
                                     then Fine_set_recomputed amount days f
                                     else f) (fines s) in
             (forall k, k <> id ->
                filter (fun f => fine_issued_book_id f =? k) fs
                = fines_of_loan k s)
             /\ (List.length
                   (filter (fun f => (fine_issued_book_id f =? id)%Z) fs)
                 <= Nat.max 1 (List.length (fines_of_loan id s)))%nat).
  { intros ex amount days Hex fs. apply find_some in Hex.
    destruct Hex as [Hin Hloan]. apply Z.eqb_eq in Hloan. split.
    - intros k Hk. unfold fs, fines_of_loan. apply filter_map_unchanged.
      intros x Hx. destruct (fine_id x =? fine_id ex) eqn:E; [right|now left].
      apply Z.eqb_eq in E.
      assert (x = ex) by (now apply (key_inj fine_id (fines s))). subst x.
      simpl. split; apply Z.eqb_neq; congruence.
    - unfold fs, fines_of_loan. rewrite length_filter_map; [lia|].
      intros x Hx. destruct (fine_id x =? fine_id ex); reflexivity. }
  assert (Hnew : forall fine,
             Fine_findOne_of_loan id s = None ->
             fine_issued_book_id fine = id ->
             (forall k, k <> id ->
                filter (fun f => fine_issued_book_id f =? k) (fines s ++ [fine])
                = fines_of_loan k s)
             /\ (List.length
                   (filter (fun f => (fine_issued_book_id f =? id)%Z)
                      (fines s ++ [fine]))
                 <= Nat.max 1 (List.length (fines_of_loan id s)))%nat).
  { intros fine Hnone Hloan. split.
    - intros k Hk. rewrite filter_app. simpl.
      assert ((fine_issued_book_id fine =? k) = false) as ->
          by (apply Z.eqb_neq; congruence).
      apply app_nil_r.
    - rewrite filter_app, length_app. fold (fines_of_loan id s).
      rewrite (fines_of_loan_nil _ _ Hnone). simpl.
      rewrite Hloan, Z.eqb_refl. simpl. lia. }
  run_return. cbv beta.
  destruct (IssuedBook_findByPk id s) as [loan|] eqn:Hfind;
    [|intros H; inversion H; subst; exact Hsame].
  pose proof (find_key_some ib_id _ _ _ Hfind) as [_ Hid].
  destruct (LoanStatus_eqb (ib_status loan) returned);
    [intros H; inversion H; subst; exact Hsame|].
  rewrite Hid.
  destruct (_ >? date_getTime (ib_due_date loan)).
  - destruct (FineService.calculateFine now id s) as [fd|] eqn:Ecalc.
    + apply calculateFine_id in Ecalc.
      destruct (Fine_findOne_of_loan id s) as [ex|] eqn:Eex.
      * specialize (Hupd ex (fd_amount fd) (fd_days_overdue fd) eq_refl).
        cbv zeta in Hupd.
        destruct (rejects (W_Fine_update (fine_id ex)));
          [intros H; inversion H; subst; exact Hsame|].
        cbn [fines set_fines set_issued_books set_books issued_books books].
        destruct (rejects (W_IssuedBook_update id));
          [intros H; inversion H; subst; exact Hupd|].
        cbn [fines set_fines set_issued_books set_books issued_books books].
        destruct (rejects (W_Book_increment (ib_book_id loan)));
          intros H; inversion H; subst; exact Hupd.
      * match goal with
        | |- context [Ok ?f] =>
            match type of f with
            | Fine => specialize (Hnew f eq_refl Ecalc)
            end
        end.
        destruct (rejects (W_Fine_create (fd_issued_book_id fd)));
          [intros H; inversion H; subst; exact Hsame|].
        cbn [fines set_fines set_issued_books set_books issued_books books].
        destruct (rejects (W_IssuedBook_update id));
          [intros H; inversion H; subst; exact Hnew|].
        cbn [fines set_fines set_issued_books set_books issued_books books].
        destruct (rejects (W_Book_increment (ib_book_id loan)));
          intros H; inversion H; subst; exact Hnew.
    + destruct (rejects (W_IssuedBook_update id));
        [intros H; inversion H; subst; exact Hsame|].
      cbn [fines set_fines set_issued_books set_books issued_books books].
      destruct (rejects (W_Book_increment (ib_book_id loan)));
        intros H; inversion H; subst; exact Hsame.
  - destruct (rejects (W_IssuedBook_update id));
      [intros H; inversion H; subst; exact Hsame|].
    cbn [fines set_fines set_issued_books set_books issued_books books].
    destruct (rejects (W_Book_increment (ib_book_id loan)));
      intros H; inversion H; subst; exact Hsame.
Qed.

Lemma return_never_duplicates_fine_witness :
  (forall k, k <> 1 ->
     fines_of_loan k
       (snd (IssuedBooksRoute.return_book no_rejects
               (date_getTime day_2024_01_15) 1 None None swept_store))
     = fines_of_loan k swept_store)
  /\ (List.length
        (fines_of_loan 1
           (snd (IssuedBooksRoute.return_book no_rejects
                   (date_getTime day_2024_01_15) 1 None None swept_store)))
      <= Nat.max 1 (List.length (fines_of_loan 1 swept_store)))%nat.
Proof.
  apply (return_never_duplicates_fine no_rejects
           (date_getTime day_2024_01_15) 1 None None swept_store
           (fst (IssuedBooksRoute.return_book no_rejects
                   (date_getTime day_2024_01_15) 1 None None swept_store))).
  - simpl. constructor; [intros []|constructor].
  - reflexivity.
Defined.

Lemma return_book_effects_witness :
  exists s',
    IssuedBooksRoute.return_book no_rejects (date_getTime day_2024_01_15) 1
      None None swept_store
    = (mkResponse 200 "Book returned successfully" (Some 2500), s')
    /\ IssuedBook_findByPk 1 s'
       = Some (IssuedBook_set_returned day_2024_01_15 2500 None
                 (IssuedBook_set_status overdue scenario_loan))
    /\ books s'
       = map (fun b =>
                if book_id b =? 7
                then Book_set_available_copies (book_available_copies b + 1) b
                else b)
             (books swept_store).
Proof.
  apply (return_book_effects no_rejects (date_getTime day_2024_01_15) 1
           None None swept_store
           (IssuedBook_set_status overdue scenario_loan)).
  - reflexivity.
  - simpl. constructor; [intros []|constructor].
  - reflexivity.
  - discriminate.
Defined.

Lemma return_by_due_date_writes_no_fine_witness :
  fines (snd (IssuedBooksRoute.return_book no_rejects
                (date_getTime day_2024_01_15) 1
                (Some (date_getTime day_2024_01_10)) None scenario_store))
  = fines scenario_store.
Proof.
  apply (return_by_due_date_writes_no_fine no_rejects
           (date_getTime day_2024_01_15) 1
           (Some (date_getTime day_2024_01_10)) None scenario_store
           scenario_loan
           (fst (IssuedBooksRoute.return_book no_rejects
                   (date_getTime day_2024_01_15) 1
                   (Some (date_getTime day_2024_01_10)) None scenario_store))).
  - reflexivity.
  - simpl. discriminate.
  - reflexivity.
Defined.

(** ** Copies and loans *)

Lemma length_filter_update_out {A : Type} (key : A -> Z) (p : A -> bool)
    (u : A -> A) (l : list A) (b : A) :
  NoDup (map key l) -> In b l -> p b = true -> p (u b) = false ->
  S (List.length
       (filter p (map (fun x => if key x =? key b then u x else x) l)))
  = List.length (filter p l).
Proof.
  intros Hnd Hb Hp Hpu. induction l as [|h rest IH]; [contradiction|].
  inversion Hnd as [|? ? Hnotin Hnd']; subst. cbn [map filter].
  destruct Hb as [->|Hb].
  - rewrite Z.eqb_refl, Hpu, Hp. cbn [List.length]. f_equal.
    f_equal. apply filter_map_unchanged. intros x Hx. left.
    destruct (key x =? key b) eqn:E; [|reflexivity].
    apply Z.eqb_eq in E. exfalso. apply Hnotin. rewrite <- E.
    now apply in_map.
  - assert ((key h =? key b) = false) as ->.
    { apply Z.eqb_neq. intros E. apply Hnotin. rewrite E. now apply in_map. }
    destruct (p h); cbn [List.length]; now rewrite IH.
Qed.

Lemma sweep_keeps_copies_accounted (rejects : DbWrite -> bool) (now : Z)
    (s : Store) (out : Outcome (list FineService.SweepResult)) (s' : Store) :
  NoDup (map ib_id (issued_books s)) ->
  copies_accounted s ->
  FineService.generateFinesForOverdueBooks rejects now s = (out, s') ->
  copies_accounted s'.
Proof.
  intros Hnd Hacc Hrun. rewrite generateFines_unfold in Hrun.
  destruct (sweep_loop_frame _ _ _ _ _ _ _ Hrun) as (_ & _ & Hbooks & _).
  destruct (sweep_loop_rows_any _ _ _ _ _ _ _ Hrun) as (l' & Hsub & Hrows).
  intros b Hb. rewrite Hbooks in Hb. rewrite <- (Hacc b Hb). f_equal. f_equal.
  unfold outstanding_loans. rewrite Hrows. apply length_filter_map.
  intros x Hx. destruct (fined_among now s l' x) eqn:Hf; [|reflexivity].
  unfold fined_among in Hf. apply existsb_exists in Hf.
  destruct Hf as (h & Hh & Hc). apply andb_true_iff in Hc.
  destruct Hc as [Hid _]. apply Z.eqb_eq in Hid.
  apply Hsub, findAll_overdue_In in Hh. destruct Hh as (Hin & Hissued & _).
  assert (h = x) by (now apply (key_inj ib_id (issued_books s))). subst h.
  simpl. now rewrite Hissued.
Qed.

Lemma issue_keeps_copies_accounted (rejects : DbWrite -> bool)
    (now librarian sid bid due_date : Z) (notes : option string)
    (s : Store) (resp : HttpResponse) (s' : Store) :
  (forall w, rejects w = false) ->
  NoDup (map book_id (books s)) ->
  copies_accounted s ->
  IssuedBooksRoute.issue rejects now librarian sid bid due_date notes s
  = (resp, s') ->
  copies_accounted s'.
Proof.
  intros Hrej Hnd Hacc Hrun.
  revert Hrun. run_issue. cbv beta.
  destruct (Student_findOne_active sid s) as [student|];
    [|intros H; inversion H; subst; exact Hacc].
  destruct (Book_findOne_active bid s) as [book|] eqn:Hbk;
    [|intros H; inversion H; subst; exact Hacc].
  destruct (book_available_copies book <=? 0);
    [intros H; inversion H; subst; exact Hacc|].
  destruct (IssuedBook_findOne_issued sid bid s);
    [intros H; inversion H; subst; exact Hacc|].
  destruct (IssuedBook_count_issued sid s >=? stu_max_books_allowed student);
    [intros H; inversion H; subst; exact Hacc|].
  rewrite !Hrej. cbn [issued_books set_issued_books books].
  intros H. inversion H; subst; clear H.
  apply find_some in Hbk. destruct Hbk as [Hin Hb]. apply andb_true_iff in Hb.
  destruct Hb as [Hb _]. apply Z.eqb_eq in Hb. subst bid.
  intros b' Hb'. cbn in Hb'. apply in_map_iff in Hb'.
  destruct Hb' as (b0 & <- & Hb0). specialize (Hacc b0 Hb0).
  unfold outstanding_loans in *. cbn [issued_books set_books set_issued_books].
  rewrite filter_app, length_app. cbn [filter ib_book_id ib_status].
  destruct (book_id b0 =? book_id book) eqn:E.
  - apply Z.eqb_eq in E.
    assert (b0 = book) by (now apply (key_inj book_id (books s))). subst b0.
    cbn. rewrite Z.eqb_refl. cbn. lia.
  - apply Z.eqb_neq in E.
    assert ((book_id book =? book_id b0) = false) as ->
        by (apply Z.eqb_neq; congruence).
    cbn. lia.
Qed.

Lemma return_keeps_copies_accounted (rejects : DbWrite -> bool) (now id : Z)
    (return_date : option Z) (notes : option string)
    (s : Store) (resp : HttpResponse) (s' : Store) :
  (forall w, rejects w = false) ->
  NoDup (map ib_id (issued_books s)) ->
  copies_accounted s ->
  IssuedBooksRoute.return_book rejects now id return_date notes s
  = (resp, s') ->
  copies_accounted s'.
Proof.
  intros Hrej Hnd Hacc Hrun.
  destruct (IssuedBook_findByPk id s) as [loan|] eqn:Hfind.
  2:{ revert Hrun. run_return. cbv beta. rewrite Hfind.
      intros H; inversion H; subst. exact Hacc. }
  destruct (LoanStatus_eqb (ib_status loan) returned) eqn:Hst.
  { revert Hrun. run_return. cbv beta. rewrite Hfind, Hst.
    intros H; inversion H; subst. exact Hacc. }
  apply LoanStatus_eqb_neq in Hst.
  destruct (return_book_state rejects now id return_date notes s loan
              Hrej Hfind Hst) as (s'' & Hrun' & Hrows & Hbooks & _).
  cbv zeta in *. rewrite Hrun in Hrun'. inversion Hrun'; subst s''.
  pose proof (find_key_some ib_id _ _ _ Hfind) as [Hin _].
  intros b' Hb'. rewrite Hbooks in Hb'. apply in_map_iff in Hb'.
  destruct Hb' as (b0 & <- & Hb0). specialize (Hacc b0 Hb0).
  unfold outstanding_loans in *. rewrite Hrows.
  destruct (book_id b0 =? ib_book_id loan) eqn:E.
  - apply Z.eqb_eq in E. cbn [book_id Book_set_available_copies
                               book_available_copies book_total_copies].
    pose proof (length_filter_update_out ib_id
                  (fun b => (ib_book_id b =? book_id b0)
                            && negb (LoanStatus_eqb (ib_status b) returned))
                  (IssuedBook_set_returned
                     (to_dateonly match return_date with
                                  | Some d => d | None => now end)
                     match return_fine now return_date loan s with
                     | Some fd => fd_amount fd | None => 0 end
                     (notes_or notes (ib_notes loan)))
                  (issued_books s) loan Hnd Hin) as Hlen.
    cbn beta in Hlen. rewrite <- E in Hlen at 1. rewrite Z.eqb_refl in Hlen.
    apply LoanStatus_eqb_neq in Hst. rewrite Hst in Hlen.
    specialize (Hlen eq_refl). cbn in Hlen. rewrite andb_false_r in Hlen.
    specialize (Hlen eq_refl). cbn. lia.
  - rewrite length_filter_map; [exact Hacc|].
    intros x Hx. destruct (ib_id x =? ib_id loan) eqn:Ex; [|reflexivity].
    apply Z.eqb_eq in Ex.
    assert (x = loan) by (now apply (key_inj ib_id (issued_books s))).
    subst x. cbn. apply Z.eqb_neq in E.
    assert ((ib_book_id loan =? book_id b0) = false) as ->
        by (apply Z.eqb_neq; congruence).
    reflexivity.
Qed.

(** X22. Copies stay accounted for: when for every book the available
    copies and the loans not yet returned add up to the total, they still
    do after a sweep (whatever its outcome), after an issue request and
    after a return request that no write rejects. *)
Theorem copies_accounting_preserved (s : Store) :
  NoDup (map ib_id (issued_books s)) ->
  NoDup (map book_id (books s)) ->
  copies_accounted s ->
  (forall rejects now out s',
      FineService.generateFinesForOverdueBooks rejects now s = (out, s') ->
      copies_accounted s')
  /\ (forall rejects now librarian sid bid due_date notes resp s',
        (forall w, rejects w = false) ->
        IssuedBooksRoute.issue rejects now librarian sid bid due_date notes s
        = (resp, s') ->
        copies_accounted s')
  /\ (forall rejects now id return_date notes resp s',
        (forall w, rejects w = false) ->
        IssuedBooksRoute.return_book rejects now id return_date notes s
        = (resp, s') ->
        copies_accounted s').
Proof.
  intros Hloans Hbooks Hacc. split; [|split].
  - intros rejects now out s' Hrun.
    now apply (sweep_keeps_copies_accounted rejects now s out s').
  - intros rejects now librarian sid bid due_date notes resp s' Hrej Hrun.
    now apply (issue_keeps_copies_accounted rejects now librarian sid bid
                 due_date notes s resp s').
  - intros rejects now id return_date notes resp s' Hrej Hrun.
    now apply (return_keeps_copies_accounted rejects now id return_date notes
                 s resp s').
Qed.

Lemma copies_accounting_preserved_witness :
  (forall rejects now out s',
      FineService.generateFinesForOverdueBooks rejects now scenario_store
      = (out, s') ->
      copies_accounted s')
  /\ (forall rejects now librarian sid bid due_date notes resp s',
        (forall w, rejects w = false) ->
        IssuedBooksRoute.issue rejects now librarian sid bid due_date notes
          scenario_store = (resp, s') ->
        copies_accounted s')
  /\ (forall rejects now id return_date notes resp s',
        (forall w, rejects w = false) ->
        IssuedBooksRoute.return_book rejects now id return_date notes
          scenario_store = (resp, s') ->
        copies_accounted s').
Proof.
  apply (copies_accounting_preserved scenario_store).
  - simpl. constructor; [intros []|constructor].
  - simpl. constructor; [intros []|constructor].
  - intros b [<-|[]]. reflexivity.
Defined.

(** * Properties of the middleware and of the other routes *)

(** ** Ordering *)




Lemma insert_asc_perm {A : Type} (column : A -> Z) (x : A) (l : list A) :
  Permutation (insert_asc column x l) (x :: l).
Proof.
  induction l as [|y rest IH]; simpl; [reflexivity|].
  destruct (column x <=? column y); [reflexivity|].
  rewrite IH. apply perm_swap.
Qed.

Lemma order_asc_perm {A : Type} (column : A -> Z) (l : list A) :
  Permutation (order_asc column l) l.
Proof.
  induction l as [|x rest IH]; simpl; [constructor|].
  rewrite insert_asc_perm. now constructor.
Qed.

Lemma order_asc_In {A : Type} (column : A -> Z) (l : list A) (x : A) :
  In x (order_asc column l) <-> In x l.
Proof.
  split; apply Permutation_in;
    [apply order_asc_perm|symmetry; apply order_asc_perm].
Qed.

Lemma order_asc_sorted {A : Type} (column : A -> Z) (l : list A) :
  StronglySorted (fun a b => column a <= column b) (order_asc column l).
Proof.
  induction l as [|x rest IH]; simpl; [constructor|].
  set (sorted := order_asc column rest) in *. clearbody sorted.
  induction sorted as [|y more IHs]; simpl.
  - constructor; constructor.
  - inversion IH as [|? ? Hmore Hall]; subst.
    destruct (column x <=? column y) eqn:E.
    + apply Z.leb_le in E. constructor; [exact IH|].
      constructor; [exact E|].
      rewrite Forall_forall in *. intros z Hz. specialize (Hall z Hz). lia.
    + apply Z.leb_gt in E. constructor; [now apply IHs|].
      rewrite Forall_forall in *. intros z Hz.
      apply (Permutation_in _ (insert_asc_perm column x more)) in Hz.
      destruct Hz as [<-|Hz]; [lia|now apply Hall].
Qed.


(** ** authorizeRoles *)

(** X23. The endpoints that write, and the overdue list, are for
    librarians only: a request of any other role is answered 403 and
    leaves the store as it was; a request of a librarian reaches the
    handler. *)
Theorem librarian_only_endpoints (rejects : DbWrite -> bool) (now : Z)
    (req : Requester) (s : Store) :
  (req_userRole req <> "librarian"%string ->
   (forall sid bid due notes,
       IssuedBooksApi.post_issue rejects now req sid bid due notes s
       = (mkResponse 403 "Access denied. Insufficient permissions." None, s))
   /\ (forall id return_date notes,
         IssuedBooksApi.put_return rejects now req id return_date notes s
         = (mkResponse 403 "Access denied. Insufficient permissions." None, s))
   /\ IssuedBooksApi.get_overdue now req s
      = JsonMessage 403 "Access denied. Insufficient permissions."
   /\ FinesApi.post_generate rejects now req s
      = (JsonMessage 403 "Access denied. Insufficient permissions.", s)
   /\ (forall id paid_date,
         FinesApi.post_pay rejects now req id paid_date s
         = (JsonMessage 403 "Access denied. Insufficient permissions.", s))
   /\ (forall id notes,
         FinesApi.post_waive rejects req id notes s
         = (JsonMessage 403 "Access denied. Insufficient permissions.", s)))
  /\ (req_userRole req = "librarian"%string ->
      (forall sid bid due notes,
          1 <= sid -> 1 <= bid ->
          IssuedBooksApi.post_issue rejects now req (Value sid) (Value bid)
            (Value due) notes s
          = IssuedBooksRoute.issue rejects now (req_user_id req) sid bid due
              notes s)
      /\ (forall student_id book_id due_date notes,
            IssuedBooksApi.post_issue rejects now req student_id book_id
              due_date notes s
            = IssuedBooksRoute.issue_request rejects now (req_user_id req)
                student_id book_id due_date notes s)
      /\ (forall id return_date notes,
            IssuedBooksApi.put_return rejects now req id (Value return_date)
              notes s
            = IssuedBooksRoute.return_book rejects now id (Some return_date)
                notes s)
      /\ (forall id notes,
            IssuedBooksApi.put_return rejects now req id Absent notes s
            = IssuedBooksRoute.return_book rejects now id None notes s)
      /\ (forall id return_date notes,
            IssuedBooksApi.put_return rejects now req id return_date notes s
            = IssuedBooksRoute.return_request rejects now id return_date
                notes s)
      /\ answer_status (IssuedBooksApi.get_overdue now req s) = 200
      /\ (forall id paid_date,
            answer_status
              (fst (FinesApi.post_pay rejects now req id paid_date s)) <> 403)).
Proof.
  unfold IssuedBooksApi.post_issue, IssuedBooksApi.put_return,
    IssuedBooksApi.get_overdue, FinesApi.post_generate, FinesApi.post_pay,
    FinesApi.post_waive.
  rewrite authorizeRoles_librarian. split; intros Hrole.
  - apply String.eqb_neq in Hrole. rewrite Hrole. repeat split.
  - apply String.eqb_eq in Hrole. rewrite Hrole. repeat split.
    + intros sid bid due notes Hs Hb. unfold IssuedBooksRoute.issue_request.
      apply Z.leb_le in Hs, Hb. now rewrite Hs, Hb.
    + intros id paid_date.
      destruct (FineService.payFine rejects now id paid_date s) as [[f|e] s'];
        simpl; discriminate.
Qed.

Lemma librarian_only_endpoints_witness :
  FinesApi.post_generate no_rejects (date_getTime day_2024_01_15)
    (mkRequester 42 "student") scenario_store
  = (JsonMessage 403 "Access denied. Insufficient permissions.",
     scenario_store)
  /\ answer_status
       (IssuedBooksApi.get_overdue (date_getTime day_2024_01_15)
          (mkRequester 1 "librarian") scenario_store) = 200.
Proof.
  split.
  - destruct (librarian_only_endpoints no_rejects
                (date_getTime day_2024_01_15) (mkRequester 42 "student")
                scenario_store) as [Hdenied _].
    assert (Hrole : req_userRole (mkRequester 42 "student")
                    <> "librarian"%string) by (simpl; discriminate).
    destruct (Hdenied Hrole) as (_ & _ & _ & Hgen & _). exact Hgen.
  - destruct (librarian_only_endpoints no_rejects
                (date_getTime day_2024_01_15) (mkRequester 1 "librarian")
                scenario_store) as [_ Hpass].
    destruct (Hpass eq_refl) as (_ & _ & _ & _ & _ & Hoverdue & _).
    exact Hoverdue.
Defined.

(** ** authenticateToken *)

(** X24. [authenticateToken] lets a request through exactly when the second
    space-separated word of the authorization header is a non-empty token
    that verifies, the role of its payload is student or librarian, and the
    row of the payload's id in the table of that role exists and is active;
    the requester it passes on has that id and that role. The first word of
    the header is never looked at. *)
Theorem authenticateToken_passes_iff (jwt_verify : string -> JwtResult)
    (librarians : list Librarian) (authorization : option string)
    (s : Store) (req : Requester) :
  authenticateToken jwt_verify librarians authorization s = Authenticated req
  <->
  exists authHeader token,
    authorization = Some authHeader
    /\ nth_error (split_space authHeader) 1 = Some token
    /\ token <> EmptyString
    /\ jwt_verify token = Decoded (req_user_id req) (req_userRole req)
    /\ ((req_userRole req = "student"%string
         /\ exists u, In u (students s) /\ stu_id u = req_user_id req
                      /\ find (fun u => stu_id u =? req_user_id req)
                              (students s) = Some u
                      /\ stu_is_active u = true)
        \/ (req_userRole req = "librarian"%string
            /\ exists u, In u librarians /\ lib_id u = req_user_id req
                         /\ find (fun u => lib_id u =? req_user_id req)
                                 librarians = Some u
                         /\ lib_is_active u = true)).
Proof.
  unfold authenticateToken. split.
  - intros H.
    destruct authorization as [[|c rest]|]; try discriminate.
    set (authHeader := String c rest) in *.
    destruct (nth_error (split_space authHeader) 1) as [[|c' tok]|] eqn:Etok;
      try discriminate.
    set (token := String c' tok) in *.
    destruct (jwt_verify token) as [id role|name] eqn:Ev.
    2:{ destruct (String.eqb name "JsonWebTokenError"); [discriminate|].
        destruct (String.eqb name "TokenExpiredError"); discriminate. }
    exists authHeader, token. split; [reflexivity|]. split; [exact Etok|].
    split; [discriminate|].
    destruct (String.eqb role "student") eqn:Er.
    + apply String.eqb_eq in Er. subst role.
      destruct (find (fun u => stu_id u =? id) (students s)) as [u|] eqn:Eu;
        simpl in H; [|discriminate].
      destruct (stu_is_active u) eqn:Ea; [|discriminate].
      inversion H; subst req; clear H. simpl.
      pose proof (find_key_some stu_id _ _ _ Eu) as [Hin Hid].
      rewrite Hid. split; [exact Ev|]. left. split; [reflexivity|].
      exists u. auto.
    + destruct (String.eqb role "librarian") eqn:El; [|discriminate].
      apply String.eqb_eq in El. subst role.
      destruct (find (fun u => lib_id u =? id) librarians) as [u|] eqn:Eu;
        simpl in H; [|discriminate].
      destruct (lib_is_active u) eqn:Ea; [|discriminate].
      inversion H; subst req; clear H. simpl.
      pose proof (find_key_some lib_id _ _ _ Eu) as [Hin Hid].
      rewrite Hid. split; [exact Ev|]. right. split; [reflexivity|].
      exists u. auto.
  - intros (authHeader & token & -> & Etok & Hne & Ev & Huser).
    destruct authHeader as [|c rest]; [discriminate Etok|].
    rewrite Etok. destruct token as [|c' tok]; [contradiction|].
    rewrite Ev. destruct req as [uid role]. simpl in *.
    destruct Huser as [(-> & u & _ & Hid & Hfind & Hact)
                      |(-> & u & _ & Hid & Hfind & Hact)];
      simpl; rewrite Hfind; simpl; rewrite Hact, Hid; reflexivity.
Qed.

(** ** GET /api/issued-books *)



(** ** GET /api/issued-books/overdue *)

Lemma fold_left_sum (l : list Fine) (acc : Z) :
  fold_left (fun sum fine => sum + fine_amount fine) l acc
  = acc + fold_right Z.add 0 (map fine_amount l).
Proof.
  revert acc. induction l as [|f rest IH]; intros acc; simpl; [lia|].
  rewrite IH. lia.
Qed.

(** X26. What a librarian gets from [GET /api/issued-books/overdue] are the
    loans with status issued whose due date is a day before today, each
    once, earliest due date first, each with its pending fines and their
    total; a loan is not listed during its due day. A loan that a completed
    sweep has fined is no longer among them: the sweep has moved it to
    overdue. *)
Theorem get_overdue_after_sweep (rejects : DbWrite -> bool) (now : Z)
    (req : Requester) (s : Store) (report : list FineService.SweepResult)
    (s' : Store) :
  req_userRole req = "librarian"%string ->
  FineService.generateFinesForOverdueBooks rejects now s = (Ok report, s') ->
  exists entries,
    IssuedBooksApi.get_overdue now req s' = Json 200 entries
    /\ Permutation (map oe_loan entries)
                   (FineService.IssuedBook_findAll_overdue now s')
    /\ (forall b, In b (map oe_loan entries) <->
                  In b (issued_books s') /\ ib_status b = issued
                  /\ ib_due_date b < to_dateonly now)
    /\ StronglySorted (fun a b => ib_due_date a <= ib_due_date b)
                      (map oe_loan entries)
    /\ (forall e, In e entries ->
          oe_fines e = pending_fines_of_loan (ib_id (oe_loan e)) s'
          /\ oe_total_fine e
             = fold_right Z.add 0 (map fine_amount (oe_fines e)))
    /\ (forall e, In e entries ->
          ~ In (ib_id (oe_loan e))
               (map FineService.sr_issued_book_id report)).
Proof.
  intros Hrole Hrun. unfold IssuedBooksApi.get_overdue.
  rewrite authorizeRoles_librarian.
  apply String.eqb_eq in Hrole. rewrite Hrole. cbv zeta.
  eexists. split; [reflexivity|].
  rewrite map_map. cbn [oe_loan]. rewrite map_id.
  split; [apply order_asc_perm|].
  split; [intros b; rewrite order_asc_In; apply findAll_overdue_In|].
  split; [apply order_asc_sorted|].
  split.
  - intros e He. apply in_map_iff in He. destruct He as (b & <- & _).
    cbn [oe_fines oe_total_fine oe_loan]. split; [reflexivity|].
    rewrite fold_left_sum. lia.
  - intros e He. apply in_map_iff in He. destruct He as (b & <- & Hb).
    cbn [oe_loan]. apply order_asc_In, findAll_overdue_In in Hb.
    destruct Hb as (Hin & Hst & _).
    rewrite generateFines_unfold in Hrun.
    destruct (sweep_loop_rows _ _ _ _ _ _ _ Hrun) as [Hrows Hrep].
    simpl in Hrep. rewrite Hrep. intros Hrepd.
    apply in_map_iff in Hrepd. destruct Hrepd as (h & Hid & Hh).
    apply filter_In in Hh. destruct Hh as [Hh Hfine].
    rewrite Hrows in Hin. apply in_map_iff in Hin.
    destruct Hin as (b0 & Hb0 & Hin0).
    assert (Hf : fined_among now s
                   (FineService.IssuedBook_findAll_overdue now s) b0 = true).
    { unfold fined_among. apply existsb_exists. exists h.
      split; [exact Hh|]. rewrite Hfine, andb_true_r. apply Z.eqb_eq.
      rewrite Hid, <- Hb0.
      destruct (fined_among now s _ b0); reflexivity. }
    rewrite Hf in Hb0. subst b. simpl in Hst. discriminate.
Qed.

Lemma get_overdue_after_sweep_witness :
  exists report s' entries,
    FineService.generateFinesForOverdueBooks no_rejects
      (date_getTime (day_2024_01_10 + 1)) mixed_store = (Ok report, s')
    /\ map FineService.sr_issued_book_id report = [2]
    /\ IssuedBooksApi.get_overdue (date_getTime (day_2024_01_10 + 1))
         (mkRequester 1 "librarian") s' = Json 200 entries
    /\ map oe_loan entries = [scenario_loan]
    /\ (forall e, In e entries ->
          ~ In (ib_id (oe_loan e))
               (map FineService.sr_issued_book_id report)).
Proof.
  eexists _, _.
  destruct (get_overdue_after_sweep no_rejects
              (date_getTime (day_2024_01_10 + 1)) (mkRequester 1 "librarian")
              mixed_store _ _ eq_refl eq_refl)
    as (entries & Hget & _ & _ & _ & _ & Hnot).
  exists entries. split; [reflexivity|]. split; [reflexivity|].
  split; [exact Hget|]. split; [|exact Hnot].
  inversion Hget; subst entries. reflexivity.
Defined.

(** ** The fines views of /api/issued-books *)



(** ** GET /api/fines *)







(** Pages are separate queries, and the engine may scan each its own way:
    with two fines created at the same instant and one row a page, a first
    page scanned in table order and a second page scanned in reverse both
    answer the first fine, and the second fine is on neither. *)
Example pages_of_tied_fines_overlap :
  fines_page (fun l => l) (mkFinesQuery None None None (Some 1)) 1 tied_store
  = [tied_fine_1]
  /\ fines_page (@rev Fine) (mkFinesQuery None None None (Some 1)) 2
       tied_store
     = [tied_fine_1]
  /\ fines_matching (mkFinesQuery None None None (Some 1)) tied_store
     = [tied_fine_1; tied_fine_2].
Proof. repeat split. Qed.



(** ** POST /api/fines/:id/pay and /waive *)

(** X29. For a librarian, the pay and waive routes answer 200 or 400, never
    500: 200 exactly when the fine exists, is not paid, and the update is
    accepted; otherwise 400 with the message of the error ('Fine not
    found', 'Fine already paid' or 'Cannot waive paid fine' among them),
    and then nothing is written. *)
Theorem pay_waive_routes (rejects : DbWrite -> bool) (now : Z)
    (req : Requester) (id : Z) (s : Store) :
  req_userRole req = "librarian"%string ->
  (forall paid_date a s',
      FinesApi.post_pay rejects now req id paid_date s = (a, s') ->
      (answer_status a = 200 \/ answer_status a = 400)
      /\ (answer_status a = 200 <->
          exists f, Fine_findByPk id s = Some f /\ fine_status f <> paid
                    /\ rejects (W_Fine_update id) = false)
      /\ (answer_status a = 400 -> s' = s)
      /\ (Fine_findByPk id s = None -> a = JsonMessage 400 "Fine not found")
      /\ (forall f, Fine_findByPk id s = Some f -> fine_status f = paid ->
                    a = JsonMessage 400 "Fine already paid"))
  /\ (forall notes a s',
        FinesApi.post_waive rejects req id notes s = (a, s') ->
        (answer_status a = 200 \/ answer_status a = 400)
        /\ (answer_status a = 200 <->
            exists f, Fine_findByPk id s = Some f /\ fine_status f <> paid
                      /\ rejects (W_Fine_update id) = false)
        /\ (answer_status a = 400 -> s' = s)
        /\ (Fine_findByPk id s = None -> a = JsonMessage 400 "Fine not found")
        /\ (forall f, Fine_findByPk id s = Some f -> fine_status f = paid ->
                      a = JsonMessage 400 "Cannot waive paid fine")).
Proof.
  intros Hrole. apply String.eqb_eq in Hrole.
  assert (Hcases :
            forall (run : Outcome Fine * Store) (paidmsg : string)
                   (u : Fine -> Fine) a s',
              run = match Fine_findByPk id s with
                    | None => (Threw "Fine not found"%string, s)
                    | Some f =>
                        if FineStatus_eqb (fine_status f) paid
                        then (Threw paidmsg, s)
                        else Fine_update rejects f u s
                    end ->
              match run with
              | (Ok fine, s1) => (Json 200 fine, s1)
              | (Threw message, s1) => (JsonMessage 400 message, s1)
              end = (a, s') ->
              (answer_status a = 200 \/ answer_status a = 400)
              /\ (answer_status a = 200 <->
                  exists f, Fine_findByPk id s = Some f
                            /\ fine_status f <> paid
                            /\ rejects (W_Fine_update id) = false)
              /\ (answer_status a = 400 -> s' = s)
              /\ (Fine_findByPk id s = None ->
                  a = JsonMessage 400 "Fine not found")
              /\ (forall f, Fine_findByPk id s = Some f ->
                            fine_status f = paid ->
                            a = JsonMessage 400 paidmsg)).
  { intros run paidmsg u a s' ->. unfold Fine_update.
    destruct (Fine_findByPk id s) as [f|] eqn:Hfind.
    2:{ intros H; inversion H; subst. simpl.
        repeat split; auto; try discriminate.
        intros (? & E & _). discriminate E. }
    pose proof (find_key_some fine_id _ _ _ Hfind) as [_ Hid].
    destruct (FineStatus_eqb (fine_status f) paid) eqn:Hst.
    { apply FineStatus_eqb_eq in Hst. intros H; inversion H; subst. simpl.
      repeat split; auto; try discriminate.
      intros (f0 & E & Hne & _). inversion E; subst. contradiction. }
    assert (Hne : fine_status f <> paid)
      by (intros E; rewrite E in Hst; discriminate).
    rewrite Hid.
    destruct (rejects (W_Fine_update id)) eqn:Hrej;
      intros H; inversion H; subst; simpl.
    - repeat split; auto; try discriminate.
      + intros (? & _ & _ & E). discriminate E.
      + intros f0 E Hp. inversion E; subst. contradiction.
    - repeat split; auto; try discriminate.
      + intros _. exists f. auto.
      + intros f0 E Hp. inversion E; subst. contradiction. }
  split.
  - intros paid_date a s'. unfold FinesApi.post_pay.
    rewrite authorizeRoles_librarian, Hrole.
    apply (Hcases _ "Fine already paid"%string
             (Fine_set_paid
                (to_dateonly match paid_date with
                             | Some d => d | None => now end))).
    unfold FineService.payFine, bind, gets, throw.
    destruct (Fine_findByPk id s) as [f|];
      [destruct (FineStatus_eqb (fine_status f) paid)|]; reflexivity.
  - intros notes a s'. unfold FinesApi.post_waive.
    rewrite authorizeRoles_librarian, Hrole.
    apply (Hcases _ "Cannot waive paid fine"%string
             (Fine_set_waived
                match notes with Some n => n | None => EmptyString end)).
    unfold FineService.waiveFine, bind, gets, throw.
    destruct (Fine_findByPk id s) as [f|];
      [destruct (FineStatus_eqb (fine_status f) paid)|]; reflexivity.
Qed.

Lemma pay_waive_routes_witness :
  (forall paid_date a s',
      FinesApi.post_pay no_rejects (date_getTime day_2024_01_15)
        (mkRequester 1 "librarian") 1 paid_date swept_store = (a, s') ->
      (answer_status a = 200 \/ answer_status a = 400)
      /\ (answer_status a = 200 <->
          exists f, Fine_findByPk 1 swept_store = Some f
                    /\ fine_status f <> paid
                    /\ no_rejects (W_Fine_update 1) = false)
      /\ (answer_status a = 400 -> s' = swept_store)
      /\ (Fine_findByPk 1 swept_store = None ->
          a = JsonMessage 400 "Fine not found")
      /\ (forall f, Fine_findByPk 1 swept_store = Some f ->
                    fine_status f = paid ->
                    a = JsonMessage 400 "Fine already paid"))
  /\ (forall notes a s',
        FinesApi.post_waive no_rejects (mkRequester 1 "librarian") 1 notes
          swept_store = (a, s') ->
        (answer_status a = 200 \/ answer_status a = 400)
        /\ (answer_status a = 200 <->
            exists f, Fine_findByPk 1 swept_store = Some f
                      /\ fine_status f <> paid
                      /\ no_rejects (W_Fine_update 1) = false)
        /\ (answer_status a = 400 -> s' = swept_store)
        /\ (Fine_findByPk 1 swept_store = None ->
            a = JsonMessage 400 "Fine not found")
        /\ (forall f, Fine_findByPk 1 swept_store = Some f ->
                      fine_status f = paid ->
                      a = JsonMessage 400 "Cannot waive paid fine")).
Proof.
  apply (pay_waive_routes no_rejects (date_getTime day_2024_01_15)
           (mkRequester 1 "librarian") 1 swept_store).
  reflexivity.
Defined.

(** ** CronService *)

Lemma generateFines_threw (rejects : DbWrite -> bool) (now : Z) (s : Store)
    (e : string) (s' : Store) :
  FineService.generateFinesForOverdueBooks rejects now s = (Threw e, s') ->
  e = db_error.
Proof.
  intros Hrun. rewrite generateFines_unfold in Hrun.
  destruct (sweep_loop_threw _ _ _ _ _ _ _ Hrun)
    as (pre & b & post & r1 & s1 & _ & _ & Hb).
  now destruct (sweep_body_loans _ _ _ _ _ _ _ Hb) as (_ & _ & _ & _ & _ & He).
Qed.

Lemma sweep_loop_no_rejects (rejects : DbWrite -> bool) (now : Z)
    (l : list IssuedBook) :
  (forall w, rejects w = false) ->
  forall r s,
    exists r' s', FineService.sweep_loop rejects now l r s = (Ok r', s').
Proof.
  intros Hrej. induction l as [|h rest IH]; intros r s;
    [exists r, s; reflexivity|].
  assert (Hbody : exists r1 s1,
             FineService.sweep_body rejects now h r s = (Ok r1, s1)).
  { destruct (has_fine now s h) eqn:Hf.
    - pose proof (sweep_body_writes rejects now h r s Hf) as Hw.
      assert (Hnone : existsb rejects (sweep_writes s h) = false).
      { unfold sweep_writes. cbn [existsb]. now rewrite !Hrej. }
      now rewrite Hnone in Hw.
    - exists r, s. apply sweep_body_None. unfold has_fine in Hf.
      destruct (FineService.calculateFine now (ib_id h) s);
        [discriminate|reflexivity]. }
  destruct Hbody as (r1 & s1 & Eb).
  destruct (IH r1 s1) as (r' & s' & Hrest).
  exists r', s'. now rewrite sweep_loop_cons, Eb.
Qed.

(** X30. The daily job never fails: it writes what the sweep writes and
    logs either the number of loans the sweep fined or the error of the
    write that ended the sweep, and it logs the number when no write is
    rejected. The number is that of the loans with status issued whose due
    date is before the day of the firing and that [calculateFine] yields a
    fine for: a loan due on the day the job fires is not counted, and not
    fined, that night. *)
Theorem cron_job_reports (rejects : DbWrite -> bool) (now : Z) (s : Store) :
  let generated :=
    [console_log "Running daily fine generation...";
     console_log
       ("Generated fines for "
        ++ NilZero.string_of_int
             (Z.to_int (Z.of_nat (List.length (loans_to_fine now s))))
        ++ " overdue books")] in
  snd (CronService.job rejects now s)
  = snd (FineService.generateFinesForOverdueBooks rejects now s)
  /\ match fst (FineService.generateFinesForOverdueBooks rejects now s) with
     | Ok report =>
         fst (CronService.job rejects now s) = generated
         /\ map FineService.sr_issued_book_id report
            = map ib_id (loans_to_fine now s)
     | Threw error =>
         error = db_error
         /\ fst (CronService.job rejects now s)
            = [console_log "Running daily fine generation...";
               console_error "Error in daily fine generation:" db_error]
     end
  /\ ((forall w, rejects w = false) ->
      fst (CronService.job rejects now s) = generated)
  /\ (forall day b,
        date_getTime day <= now < date_getTime (day + 1) ->
        ib_due_date b = day ->
        ~ In b (loans_to_fine now s)).
Proof.
  intros generated.
  assert (Hok : forall report s',
             FineService.generateFinesForOverdueBooks rejects now s
             = (Ok report, s') ->
             map FineService.sr_issued_book_id report
             = map ib_id (loans_to_fine now s)).
  { intros report s' Hrun. rewrite generateFines_unfold in Hrun.
    destruct (sweep_loop_rows _ _ _ _ _ _ _ Hrun) as [_ Hrep].
    simpl in Hrep. rewrite Hrep.
    unfold FineService.IssuedBook_findAll_overdue, loans_to_fine.
    now rewrite filter_filter_andb. }
  assert (Hlog : forall report s',
             FineService.generateFinesForOverdueBooks rejects now s
             = (Ok report, s') ->
             fst (CronService.job rejects now s) = generated).
  { intros report s' Hrun. unfold CronService.job. rewrite Hrun.
    unfold generated. cbn [fst].
    rewrite <- (length_map ib_id (loans_to_fine now s)),
      <- (Hok _ _ Hrun), length_map. reflexivity. }
  split; [|split; [|split]].
  - unfold CronService.job.
    destruct (FineService.generateFinesForOverdueBooks rejects now s)
      as [[report|e] s']; reflexivity.
  - destruct (FineService.generateFinesForOverdueBooks rejects now s)
      as [[report|e] s'] eqn:Hrun; cbn [fst].
    + split; [exact (Hlog _ _ eq_refl)|exact (Hok _ _ eq_refl)].
    + pose proof (generateFines_threw _ _ _ _ _ Hrun) as ->.
      split; [reflexivity|]. unfold CronService.job. now rewrite Hrun.
  - intros Hrej.
    destruct (sweep_loop_no_rejects rejects now
                (FineService.IssuedBook_findAll_overdue now s) Hrej [] s)
      as (report & s' & Hrun).
    rewrite <- generateFines_unfold in Hrun. exact (Hlog _ _ Hrun).
  - intros day b [Hlo Hhi] Hdue Hin. unfold loans_to_fine in Hin.
    apply filter_In in Hin. destruct Hin as [_ Hin].
    apply andb_true_iff in Hin. destruct Hin as [Hin _].
    apply andb_true_iff in Hin. destruct Hin as [_ Hin].
    apply Z.ltb_lt, dateonly_lt_instant in Hin.
    rewrite Hdue in Hin. lia.
Qed.

Lemma cron_job_reports_witness :
  fst (CronService.job no_rejects sweep_instant scenario_store)
  = [console_log "Running daily fine generation...";
     console_log "Generated fines for 1 overdue books"]
  /\ ~ In (mkIssuedBook 2 43 8 1 19702 (day_2024_01_10 + 1) None 0 issued None)
         (loans_to_fine sweep_instant
            (set_issued_books
               [mkIssuedBook 2 43 8 1 19702 (day_2024_01_10 + 1) None 0
                             issued None] scenario_store))
  /\ has_fine sweep_instant
       (set_issued_books
          [mkIssuedBook 2 43 8 1 19702 (day_2024_01_10 + 1) None 0
                        issued None] scenario_store)
       (mkIssuedBook 2 43 8 1 19702 (day_2024_01_10 + 1) None 0 issued None)
     = true.
Proof.
  split; [|split; [|reflexivity]].
  - destruct (cron_job_reports no_rejects sweep_instant scenario_store)
      as (_ & _ & Hlog & _).
    exact (Hlog (fun _ => eq_refl)).
  - destruct (cron_job_reports no_rejects sweep_instant
                (set_issued_books
                   [mkIssuedBook 2 43 8 1 19702 (day_2024_01_10 + 1) None 0
                                 issued None] scenario_store))
      as (_ & _ & _ & Hday).
    apply (Hday (day_2024_01_10 + 1)); [|reflexivity].
    unfold sweep_instant, date_getTime, MS_PER_DAY, day_2024_01_10. lia.
Defined.
